(** * network-insight: resilient resolution layer

    A shallow embedding of the TypeScript services of the package
    (IpManager, LocationManager, NetworkService and the [retry] helper)
    together with the properties stated about them.

    Conventions.
    - A JavaScript string is a [string]: a sequence of characters whose
      codes are below 256 (the code units U+0000 to U+00FF).
    - A JavaScript number that the code uses as an integer (milliseconds,
      counters, octets) is a [Z].
    - [undefined]/[null] results of a typed expression are [None].
    - A function that may throw returns a [Completion].
    - [axios], [Date.now] and the [net] module are the capabilities of a
      [Platform]; asynchronous code threads the platform's world. *)

From Stdlib Require Import ZArith Bool Ascii String List Lia.
From Stdlib Require Import Numbers.DecimalString.
From stdpp Require Import base option list strings gmap.

Local Open Scope Z_scope.

(* ===================================================================== *)
(** * Part I: definitions                                                  *)
(* ===================================================================== *)

(** ** JavaScript strings, values and completions *)

Module JS.

(** [s.startsWith(p)] *)
Fixpoint startsWith (p s : string) : bool :=
  match p with
  | EmptyString => true
  | String a p' =>
      match s with
      | EmptyString => false
      | String b s' => if Ascii.eqb a b then startsWith p' s' else false
      end
  end.

(** [s.slice(n)] for a non-negative [n]. *)
Fixpoint slice (n : nat) (s : string) : string :=
  match n with
  | O => s
  | S k => match s with EmptyString => EmptyString | String _ s' => slice k s' end
  end.

(** [s.includes(p)] *)
Fixpoint includes (p s : string) : bool :=
  startsWith p s ||
  match s with
  | EmptyString => false
  | String _ s' => includes p s'
  end.

(** [s.replace(p, r)] with a string pattern: only the first occurrence
    is replaced. *)
Fixpoint replace (p r s : string) : string :=
  if startsWith p s then r +:+ slice (String.length p) s
  else match s with
       | EmptyString => EmptyString
       | String c s' => String c (replace p r s')
       end.

(** [s.split(sep)] for a separator of one character; the result is
    never empty: [("").split(",")] is [[""]]. *)
Fixpoint split (sep : ascii) (s : string) : list string :=
  match s with
  | EmptyString => [EmptyString]
  | String c s' =>
      if Ascii.eqb c sep then EmptyString :: split sep s'
      else match split sep s' with
           | [] => [String c EmptyString]
           | p :: ps => String c p :: ps
           end
  end.

(** [xs[0]] on an array of strings: [undefined] when out of range. *)
Definition first {A : Type} (xs : list A) : option A := head xs.

(** White space and line terminators removed by [trim], among the
    characters below 256: TAB, LF, VT, FF, CR, SPACE and the no-break
    space U+00A0. *)
Definition isWhiteSpace (c : ascii) : bool :=
  let n := nat_of_ascii c in
  ((9 <=? n)%nat && (n <=? 13)%nat) || (n =? 32)%nat || (n =? 160)%nat.

Fixpoint trimStart (s : string) : string :=
  match s with
  | EmptyString => EmptyString
  | String c s' => if isWhiteSpace c then trimStart s' else s
  end.

Fixpoint trimEnd (s : string) : string :=
  match s with
  | EmptyString => EmptyString
  | String c s' =>
      match trimEnd s' with
      | EmptyString => if isWhiteSpace c then EmptyString else String c EmptyString
      | t => String c t
      end
  end.

(** [s.trim()] *)
Definition trim (s : string) : string := trimEnd (trimStart s).

(** [(s.match(/lit/g) || []).length] for a literal, non-empty pattern:
    the number of non-overlapping occurrences, scanning from the left.
    [skip] counts the characters of the current match still to pass. *)
Fixpoint matchCountFrom (lit : string) (skip : nat) (s : string) : nat :=
  match s with
  | EmptyString => O
  | String _ s' =>
      match skip with
      | S k => matchCountFrom lit k s'
      | O => if startsWith lit s
             then S (matchCountFrom lit (String.length lit - 1) s')
             else matchCountFrom lit O s'
      end
  end.

Definition matchCount (lit : string) (s : string) : nat := matchCountFrom lit O s.

Definition isDigit (c : ascii) : bool :=
  let n := nat_of_ascii c in ((48 <=? n)%nat && (n <=? 57)%nat).

Definition isHexDigit (c : ascii) : bool :=
  let n := nat_of_ascii c in
  isDigit c || ((97 <=? n)%nat && (n <=? 102)%nat) || ((65 <=? n)%nat && (n <=? 70)%nat).

Definition digitValue (c : ascii) : Z := Z.of_nat (nat_of_ascii c) - 48.

(** The longest prefix of decimal digits of [s], read in base ten with
    accumulator [acc]; [seen] tells whether a digit has been read. *)
Fixpoint parseDigits (acc : Z) (seen : bool) (s : string) : option Z :=
  match s with
  | EmptyString => if seen then Some acc else None
  | String c s' =>
      if isDigit c then parseDigits (10 * acc + digitValue c) true s'
      else if seen then Some acc else None
  end.

(** [parseInt(s, 10)]: leading white space is skipped, an optional sign
    is read, then the longest digit prefix; [None] is [NaN]. *)
Definition parseInt (s : string) : option Z :=
  match trimStart s with
  | String "-" s' => Z.opp <$> parseDigits 0 false s'
  | String "+" s' => parseDigits 0 false s'
  | s' => parseDigits 0 false s'
  end.

(** [n.toString()] for an integer [n]. *)
Definition toString (n : Z) : string := NilZero.string_of_int (Z.to_int n).

(** Values of dynamic type, as found in a parsed response body. *)
#[warnings="-register-all"]
Inductive Value : Type :=
| Undefined
| Null
| Boolean (b : bool)
| Number (n : Z)
| Str (s : string)
| Object (fields : list (string * Value)).

Definition truthy (v : Value) : bool :=
  match v with
  | Undefined | Null => false
  | Boolean b => b
  | Number n => negb (n =? 0)
  | Str s => negb (String.eqb s EmptyString)
  | Object _ => true
  end.

Fixpoint assoc (k : string) (fields : list (string * Value)) : Value :=
  match fields with
  | [] => Undefined
  | (k', v) :: rest => if String.eqb k k' then v else assoc k rest
  end.

(** [v.k] on a value that is neither [undefined] nor [null]; own data
    properties only. *)
Definition prop (v : Value) (k : string) : Value :=
  match v with
  | Object fields => assoc k fields
  | _ => Undefined
  end.

Inductive TypeTag := TUndefined | TObject | TBoolean | TNumber | TString.

Definition typeof (v : Value) : TypeTag :=
  match v with
  | Undefined => TUndefined
  | Null => TObject
  | Boolean _ => TBoolean
  | Number _ => TNumber
  | Str _ => TString
  | Object _ => TObject
  end.

(** [typeof v === "string"] and [typeof v === "number"] *)
Definition isTypeString (v : Value) : bool :=
  match typeof v with TString => true | _ => false end.
Definition isTypeNumber (v : Value) : bool :=
  match typeof v with TNumber => true | _ => false end.

(** String conversion, as done by a template literal or [RegExp.test].
    A number is printed with all its digits, which is what the code
    prints for an integer of magnitude below 10^21; from there on
    JavaScript switches to the exponent form, which is not modelled. *)
Definition ToString (v : Value) : string :=
  match v with
  | Undefined => "undefined"
  | Null => "null"
  | Boolean true => "true"
  | Boolean false => "false"
  | Number n => toString n
  | Str s => s
  | Object _ => "[object Object]"
  end.

(** Truthiness of an optional string: [undefined] and [""] are falsy. *)
Definition truthyStr (o : option string) : bool :=
  match o with
  | Some s => negb (String.eqb s EmptyString)
  | None => false
  end.

(** [a || b] on optional strings. *)
Definition or (a b : option string) : option string :=
  if truthyStr a then a else b.

Inductive Error : Type :=
| Err (message : string)
| TypeError (message : string).

Definition message (e : Error) : string :=
  match e with Err m => m | TypeError m => m end.

(** The outcome of running a piece of code: a value or a thrown error. *)
Inductive Completion (A : Type) : Type :=
| Normal (a : A)
| Throw (e : Error).
Arguments Normal {A} a.
Arguments Throw {A} e.

End JS.

(** ** Regular expressions

    The patterns of the source are all anchored at both ends ([^...$]), so
    [test] decides whether the whole string belongs to the language. The
    matcher works by derivatives. *)

Module RegExp.

Inductive regex : Type :=
| Void
| Eps
| Class (p : ascii -> bool)
| Cat (r1 r2 : regex)
| Alt (r1 r2 : regex)
| Star (r : regex).

Fixpoint nullable (r : regex) : bool :=
  match r with
  | Void => false
  | Eps => true
  | Class _ => false
  | Cat a b => nullable a && nullable b
  | Alt a b => nullable a || nullable b
  | Star _ => true
  end.

Fixpoint deriv (c : ascii) (r : regex) : regex :=
  match r with
  | Void => Void
  | Eps => Void
  | Class p => if p c then Eps else Void
  | Cat a b =>
      if nullable a then Alt (Cat (deriv c a) b) (deriv c b)
      else Cat (deriv c a) b
  | Alt a b => Alt (deriv c a) (deriv c b)
  | Star a => Cat (deriv c a) (Star a)
  end.

Fixpoint matches (r : regex) (s : string) : bool :=
  match s with
  | EmptyString => nullable r
  | String c s' => matches (deriv c r) s'
  end.

(** [/^r$/.test(s)] *)
Definition test (r : regex) (s : string) : bool := matches r s.

(** A literal character. *)
Definition Chr (c : ascii) : regex := Class (Ascii.eqb c).

(** [r{n}] *)
Fixpoint Times (n : nat) (r : regex) : regex :=
  match n with
  | O => Eps
  | S k => Cat r (Times k r)
  end.

(** [r{0,n}] *)
Fixpoint UpTo (n : nat) (r : regex) : regex :=
  match n with
  | O => Eps
  | S k => Alt Eps (Cat r (UpTo k r))
  end.

(** [r{lo,hi}] *)
Definition Range (lo hi : nat) (r : regex) : regex :=
  Cat (Times lo r) (UpTo (hi - lo) r).

(** [r+] *)
Definition Plus (r : regex) : regex := Cat r (Star r).

(** [\d] *)
Definition Digit : regex := Class JS.isDigit.

(** [[0-9a-fA-F]] *)
Definition Hex : regex := Class JS.isHexDigit.

End RegExp.


(** ** Types of the package ([types/index.ts]) *)

Record ApiConfig := {
  ipifyUrl : string;
  geolocationUrl : string;
  timeout : Z;
  retries : Z;
}.

Record CacheConfig := {
  enabled : bool;
  ttl : Z;  (* time to live in milliseconds *)
}.

Record FeaturesConfig := {
  rateLimiting : bool;
  fallbackProviders : bool;
}.

Record NetworkInfoConfig := {
  api : ApiConfig;
  cache : CacheConfig;
  features : FeaturesConfig;
}.

Record CacheEntry (T : Type) := {
  entry_data : T;
  entry_timestamp : Z;
  entry_ttl : Z;
}.
Arguments entry_data {T} _.
Arguments entry_timestamp {T} _.
Arguments entry_ttl {T} _.

Record ApiResponse (T : Type) := {
  success : bool;
  data : option T;
  error : option string;
  timestamp : string;
}.
Arguments success {T} _.
Arguments data {T} _.
Arguments error {T} _.
Arguments timestamp {T} _.

(** ** The platform: HTTP client, clock and [net] module *)

Inductive AxiosResult : Type :=
| Resolved (body : JS.Value)   (* the promise resolves; [body] is [response.data] *)
| Rejected (e : JS.Error).     (* transport failure or timeout *)

Class Platform := {
  World : Type;
  (** [axios.get(url, { timeout })] *)
  axios_get : string -> Z -> World -> AxiosResult * World;
  (** [Date.now()] *)
  Date_now : World -> Z;
  (** [require('net').isIP(s)]; [None] when the module or the call throws. *)
  net_isIP : string -> option Z;
}.

(** The world together with the list of URLs requested so far (what a
    test reads from the mocked client's call list). *)
Record Runtime `{Platform} := {
  world : World;
  requests : list string;
}.

Definition http_get `{Platform} (url : string) (timeoutMs : Z) (rt : Runtime)
  : AxiosResult * Runtime :=
  let '(res, w) := axios_get url timeoutMs (world rt) in
  (res, {| world := w; requests := requests rt ++ [url] |}).

(** ** The TTL cache

    IpManager, LocationManager and NetworkManager each carry the same
    three private members: the map [cache], [getCached] and [setCached]
    (and the public [clearCache]). They are embedded once, for any type
    of cached data. *)

Module Cache.
Section Cache.
Context {T : Type}.
Variable config : NetworkInfoConfig.

(** [getCached(key)] at time [now]: the value read, if any, and the map
    as the call leaves it. *)
Definition getCached (now : Z) (key : string) (m : gmap string (CacheEntry T))
  : option T * gmap string (CacheEntry T) :=
  if negb (enabled (cache config)) then (None, m)
  else
    match m !! key with
    | None => (None, m)
    | Some entry =>
        if now - entry_timestamp entry >? entry_ttl entry
        then (None, delete key m)
        else (Some (entry_data entry), m)
    end.

(** [ttl || this.config.cache.ttl] *)
Definition ttlOrDefault (ttlArg : option Z) : Z :=
  match ttlArg with
  | Some t => if t =? 0 then ttl (cache config) else t
  | None => ttl (cache config)
  end.

(** [setCached(key, data, ttl?)] at time [now]. *)
Definition setCached (now : Z) (key : string) (d : T) (ttlArg : option Z)
    (m : gmap string (CacheEntry T)) : gmap string (CacheEntry T) :=
  if negb (enabled (cache config)) then m
  else <[ key := {| entry_data := d; entry_timestamp := now;
                    entry_ttl := ttlOrDefault ttlArg |} ]> m.

(** [clearCache(key?)] *)
Definition clearCache (key : option string) (m : gmap string (CacheEntry T))
  : gmap string (CacheEntry T) :=
  if JS.truthyStr key then
    match key with Some k => delete k m | None => m end
  else ∅.
End Cache.
End Cache.

(** ** [utils/helpers.ts]: retry with exponential backoff *)

Module Helpers.

Inductive Result (T E : Type) : Type :=
| Fulfilled (v : T)
| RejectedWith (e : E).
Arguments Fulfilled {T E} v.
Arguments RejectedWith {T E} e.

Section Retry.
(** The operation acts on a state [S] (everything its outcome may
    depend on); [delay ms] lets time pass. *)
Context {S T E : Type}.
Variable operation : S -> Result T E * S.
Variable delay : Z -> S -> S.

(** What a run has done so far: the state reached, the result of each
    invocation of the operation and the delays waited, both in order. *)
Record Run := {
  state : S;
  results : list (Result T E);
  delays : list Z;
}.

Definition invocations (r : Run) : nat := length (results r).

Definition invoke (r : Run) : Result T E * Run :=
  let '(res, s) := operation (state r) in
  (res, {| state := s; results := results r ++ [res]; delays := delays r |}).

Definition wait (ms : Z) (r : Run) : Run :=
  {| state := delay ms (state r); results := results r;
     delays := delays r ++ [ms] |}.

(** The [for] loop from [attempt] on; [n] bounds the iterations left.
    [lastError] is [None] while the variable is still unassigned, and
    [throw lastError!] then throws [undefined]. *)
Fixpoint retryFrom (n : nat) (maxRetries delayMs attempt : Z)
    (lastError : option E) (r : Run) : Result T (option E) * Run :=
  match n with
  | O => (RejectedWith lastError, r)
  | Datatypes.S n' =>
      if attempt <? maxRetries then
        match invoke r with
        | (Fulfilled v, r1) => (Fulfilled v, r1)
        | (RejectedWith e, r1) =>
            let r2 := if attempt <? maxRetries - 1
                      then wait (delayMs * 2 ^ attempt) r1
                      else r1 in
            retryFrom n' maxRetries delayMs (attempt + 1) (Some e) r2
        end
      else (RejectedWith lastError, r)
  end.

(** [retry(operation, maxRetries = 3, delayMs = 1000)]; the loop runs
    at most [maxRetries] times. *)
Definition retry (maxRetries delayMs : option Z) (s : S)
  : Result T (option E) * Run :=
  let mr := default 3 maxRetries in
  let dm := default 1000 delayMs in
  retryFrom (Z.to_nat mr) mr dm 0 None
            {| state := s; results := []; delays := [] |}.
End Retry.

End Helpers.

(** ** [services/IpManager.ts] *)

Module IpManager.

Import JS RegExp.

(** The object: its configuration and its cache. *)
Record t := {
  config : NetworkInfoConfig;
  cache : gmap string (CacheEntry string);
}.

(** [/^(\d{1,3})\.(\d{1,3})\.(\d{1,3})\.(\d{1,3})$/] *)
Definition ipv4Regex : regex :=
  Cat (Range 1 3 Digit) (Cat (Chr ".")
 (Cat (Range 1 3 Digit) (Cat (Chr ".")
 (Cat (Range 1 3 Digit) (Cat (Chr ".")
      (Range 1 3 Digit)))))).

(** [/^[0-9a-fA-F:]+$/] *)
Definition ipv6Regex : regex :=
  Plus (Class (fun c => isHexDigit c || Ascii.eqb c ":")).

(** [/^[0-9a-fA-F]{1,4}$/] *)
Definition partRegex : regex := Range 1 4 Hex.

(** The callback of [octets.every]. *)
Definition octetOk (octet : string) : bool :=
  match parseInt octet with
  | None => false  (* NaN fails both comparisons *)
  | Some num => (0 <=? num) && (num <=? 255) && String.eqb octet (toString num)
  end.

(** The body of the [for (const part of parts)] loop. *)
Definition partOk (part : string) : bool :=
  String.eqb part "" || test partRegex part.

(** [fallbackIpValidation(ip)] *)
Definition fallbackIpValidation (ip : string) : bool :=
  if test ipv4Regex ip then
    forallb octetOk (split "." ip)
  else if test ipv6Regex ip && includes ":" ip then
    let colonCount := matchCount ":" ip in
    let parts := split ":" ip in
    if ((colonCount <? 2) || (7 <? colonCount))%nat then false
    else if (1 <? matchCount "::" ip)%nat then false
    else forallb partOk parts
  else false.

(** [isValidIp(ip)]: the [net] module decides; when it is not available
    the manual validation does. *)
Definition isValidIp `{Platform} (ip : string) : bool :=
  match net_isIP ip with
  | Some result => negb (result =? 0)
  | None => fallbackIpValidation ip
  end.

Definition getCached (self : t) (now : Z) (key : string) : option string * t :=
  let '(v, m) := Cache.getCached (config self) now key (cache self) in
  (v, {| config := config self; cache := m |}).

Definition setCached (self : t) (now : Z) (key : string) (d : string)
    (ttlArg : option Z) : t :=
  {| config := config self;
     cache := Cache.setCached (config self) now key d ttlArg (cache self) |}.

Definition clearCache (self : t) (key : option string) : t :=
  {| config := config self; cache := Cache.clearCache key (cache self) |}.

Definition cacheKey : string := "public-ip".

Definition providers : list string :=
  [ "https://api.ipify.org?format=json";
    "https://api64.ipify.org?format=json";
    "https://icanhazip.com" ].

(** The candidate address read from a response body: a string body is
    trimmed, otherwise the [ip] property is taken; [None] is the
    [continue] branch. The variable is declared [let ip: string]; an
    [ip] property that is a non-zero number, [true] or an object is
    turned into text by [net.isIP] (["5"], ["true"],
    ["[object Object]"]), which is no address, and makes the manual
    validation reject or throw inside the [try] block, so that attempt
    has no candidate either. A [Value] has no arrays: a body whose [ip]
    is an array is not covered. *)
Definition candidate (body : Value) : option string :=
  match body with
  | Str s => Some (trim s)
  | _ =>
      if truthy body && truthy (prop body "ip") then
        match prop body "ip" with
        | Str s => Some s
        | _ => None
        end
      else None
  end.

Section WithPlatform.
Context `{Platform}.

(** What one provider's attempt yields from the client's result: the
    validated address, or [None] when the loop moves on. *)
Definition attempt (res : AxiosResult) : option string :=
  match res with
  | Rejected _ => None
  | Resolved body =>
      match candidate body with
      | Some ip => if isValidIp ip then Some ip else None
      | None => None
      end
  end.

(** The [for (const provider of providers)] loop and the final
    [throw]. *)
Fixpoint resolveFrom (ps : list string) (self : t) (rt : Runtime)
  : Completion string * t * Runtime :=
  match ps with
  | [] => (Throw (Err "All IP service providers failed"), self, rt)
  | provider :: rest =>
      let '(res, rt1) := http_get provider (timeout (api (config self))) rt in
      match attempt res with
      | Some ip =>
          (Normal ip, setCached self (Date_now (world rt1)) cacheKey ip None, rt1)
      | None => resolveFrom rest self rt1
      end
  end.

(** [getPublicIp()] *)
Definition getPublicIp (self : t) (rt : Runtime)
  : Completion string * t * Runtime :=
  let '(cached, self1) := getCached self (Date_now (world rt)) cacheKey in
  match cached with
  | Some ip => if truthyStr cached then (Normal ip, self1, rt)
               else resolveFrom providers self1 rt
  | None => resolveFrom providers self1 rt
  end.

(** [healthCheck()] *)
Definition healthCheck (rt : Runtime) : bool * Runtime :=
  let '(res, rt1) := http_get "https://api.ipify.org" 5000 rt in
  match res with
  | Resolved _ => (true, rt1)
  | Rejected _ => (false, rt1)
  end.
End WithPlatform.

(** *** The request, as [getClientIp] reads it *)

(** A header value: [string | string[] | undefined]. *)
Inductive HeaderValue : Type :=
| HString (s : string)
| HArray (xs : list string).

Record Socket := {
  socket_remoteAddress : option string;
}.

Record Connection := {
  remoteAddress : option string;
  connection_socket : option Socket;
}.

Record Request := {
  ip : option string;
  connection : option Connection;
  socket : option Socket;
  headers : gmap string HeaderValue;
}.

(** Optional chaining [o?.f]. *)
Definition chain {A B : Type} (o : option A) (f : A -> option B) : option B :=
  match o with
  | Some a => f a
  | None => None
  end.

(** Truthiness of a header value: an array is truthy, even when empty. *)
Definition truthyHeader (h : option HeaderValue) : bool :=
  match h with
  | Some (HString s) => negb (String.eqb s "")
  | Some (HArray _) => true
  | None => false
  end.

(** The initial value of the variable [ip]: the first truthy one of
    the four address fields (a falsy result is [undefined] or [""]). *)
Definition directAddress (req : Request) : option string :=
  JS.or (ip req)
 (JS.or (chain (connection req) remoteAddress)
 (JS.or (chain (socket req) socket_remoteAddress)
        (chain (chain (connection req) connection_socket) socket_remoteAddress))).

(** [!ip || ip === "::1"] *)
Definition unusable (a : option string) : bool :=
  negb (truthyStr a) || bool_decide (a = Some "::1").

(** [x.split(",")[0].trim()] *)
Definition firstForwarded (x : string) : string :=
  trim (default "" (first (split "," x))).

(** The final [return ip.split(":")[0]]. *)
Definition stripPort (a : string) : string :=
  default "" (first (split ":" a)).

(** [getClientIp(req)] *)
Definition getClientIp (req : Request) : Completion string :=
  let ip0 := directAddress req in
  if bool_decide (ip0 = Some "::1") then Normal "127.0.0.1"
  else
    let ip1 :=
      match ip0 with
      | Some a => if truthyStr ip0 && startsWith "::ffff:" a
                  then Some (replace "::ffff:" "" a) else ip0
      | None => ip0
      end in
    (* the x-forwarded-for block *)
    let ip2 : Completion (option string) :=
      if unusable ip1 then
        match headers req !! "x-forwarded-for" with
        | Some (HArray xs) =>
            match first xs with
            | Some x => Normal (Some (firstForwarded x))
            | None =>
                Throw (TypeError
                  "Cannot read properties of undefined (reading 'split')")
            end
        | Some (HString x) => Normal (Some (firstForwarded x))
        | None => Normal ip1
        end
      else Normal ip1 in
    match ip2 with
    | Throw e => Throw e
    | Normal ip2 =>
        (* the x-real-ip / x-client-ip / "unknown" block *)
        if unusable ip2 then
          let realIp := headers req !! "x-real-ip" in
          let clientIp := headers req !! "x-client-ip" in
          let chosen := if truthyHeader realIp then realIp
                        else if truthyHeader clientIp then clientIp
                        else Some (HString "unknown") in
          match chosen with
          | Some (HString a) => Normal (stripPort a)
          | _ => Throw (TypeError "ip.split is not a function")
          end
        else
          match ip2 with
          | Some a => Normal (stripPort a)
          | None => (* not reached: a usable address is a string *)
              Throw (TypeError
                "Cannot read properties of undefined (reading 'split')")
          end
    end.

End IpManager.

(** ** [services/LocationManager.ts] *)

Module LocationManager.

Import JS RegExp.

Record t := {
  config : NetworkInfoConfig;
  cache : gmap string (CacheEntry Value);
}.

(** [/^(\d{1,3}\.){3}\d{1,3}$/] *)
Definition ipv4Regex : regex :=
  Cat (Times 3 (Cat (Range 1 3 Digit) (Chr "."))) (Range 1 3 Digit).

(** [/^([0-9a-fA-F]{1,4}:){7}[0-9a-fA-F]{1,4}$/] *)
Definition ipv6Regex : regex :=
  Cat (Times 7 (Cat (Range 1 4 Hex) (Chr ":"))) (Range 1 4 Hex).

(** [isValidIp(ip)] *)
Definition isValidIp (ip : string) : bool :=
  test ipv4Regex ip || test ipv6Regex ip.

(** [isValidLocationData(data)] *)
Definition isValidLocationData (d : Value) : bool :=
  truthy d &&
  isTypeString (prop d "ip") &&
  isTypeString (prop d "country_name") &&
  isTypeNumber (prop d "latitude") &&
  isTypeNumber (prop d "longitude").

Definition getCached (self : t) (now : Z) (key : string) : option Value * t :=
  let '(v, m) := Cache.getCached (config self) now key (cache self) in
  (v, {| config := config self; cache := m |}).

Definition setCached (self : t) (now : Z) (key : string) (d : Value)
    (ttlArg : option Z) : t :=
  {| config := config self;
     cache := Cache.setCached (config self) now key d ttlArg (cache self) |}.

Definition clearCache (self : t) (key : option string) : t :=
  {| config := config self; cache := Cache.clearCache key (cache self) |}.

Definition providers : list string :=
  [ "https://ipapi.co"; "https://ipwho.is"; "https://ipinfo.io" ].

(** [ip ? `${provider}/${ip}/json/` : `${provider}/json/`] *)
Definition url (provider : string) (ip : option string) : string :=
  match ip with
  | Some a => if truthyStr ip then provider +:+ "/" +:+ a +:+ "/json/"
              else provider +:+ "/json/"
  | None => provider +:+ "/json/"
  end.

(** [`location-${targetIp}`] *)
Definition cacheKey (targetIp : Value) : string := "location-" +:+ ToString targetIp.

(** What one provider's attempt yields: the validated body, or [None]
    when the loop moves on. *)
Definition attempt (res : AxiosResult) : option Value :=
  match res with
  | Rejected _ => None
  | Resolved body =>
      if truthy body && isValidLocationData body then Some body else None
  end.

Section WithPlatform.
Context `{Platform}.

(** [getCurrentPublicIp()]: the [ip] property of the body, whatever
    its type; reading it from [undefined] or [null] throws inside the
    [try] block. *)
Definition getCurrentPublicIp (self : t) (rt : Runtime)
  : Completion Value * Runtime :=
  let '(res, rt1) :=
    http_get "https://api.ipify.org?format=json" (timeout (api (config self))) rt in
  match res with
  | Resolved Undefined | Resolved Null | Rejected _ =>
      (Throw (Err "Failed to get public IP for location lookup"), rt1)
  | Resolved body => (Normal (prop body "ip"), rt1)
  end.

(** The provider loop and the final [throw]. *)
Fixpoint resolveFrom (ps : list string) (ip : option string) (key : string)
    (self : t) (rt : Runtime) : Completion Value * t * Runtime :=
  match ps with
  | [] => (Throw (Err "All geolocation providers failed"), self, rt)
  | provider :: rest =>
      let '(res, rt1) :=
        http_get (url provider ip) (timeout (api (config self))) rt in
      match attempt res with
      | Some body =>
          (Normal body, setCached self (Date_now (world rt1)) key body None, rt1)
      | None => resolveFrom rest ip key self rt1
      end
  end.

(** The part of [getLocation] that follows the choice of [targetIp]. *)
Definition locate (ip : option string) (targetIp : Value) (self : t)
    (rt : Runtime) : Completion Value * t * Runtime :=
  if negb (isValidIp (ToString targetIp)) then
    (Throw (Err ("Invalid IP address: " +:+ ToString targetIp)), self, rt)
  else
    let key := cacheKey targetIp in
    let '(cached, self1) := getCached self (Date_now (world rt)) key in
    match cached with
    | Some v => if truthy v then (Normal v, self1, rt)
                else resolveFrom providers ip key self1 rt
    | None => resolveFrom providers ip key self1 rt
    end.

(** [ip || await this.getCurrentPublicIp()] *)
Definition targetIp (ip : option string) (self : t) (rt : Runtime)
  : Completion Value * Runtime :=
  match ip with
  | Some a => if truthyStr ip then (Normal (Str a), rt)
              else getCurrentPublicIp self rt
  | None => getCurrentPublicIp self rt
  end.

(** [getLocation(ip?)] *)
Definition getLocation (ip : option string) (self : t) (rt : Runtime)
  : Completion Value * t * Runtime :=
  match targetIp ip self rt with
  | (Normal target, rt1) => locate ip target self rt1
  | (Throw e, rt1) => (Throw e, self, rt1)
  end.

(** [getCurrentLocation()] *)
Definition getCurrentLocation (self : t) (rt : Runtime)
  : Completion Value * t * Runtime :=
  getLocation None self rt.

(** [healthCheck()] *)
Definition healthCheck (rt : Runtime) : bool * Runtime :=
  let '(res, rt1) := http_get "https://ipapi.co/json/" 5000 rt in
  match res with
  | Resolved _ => (true, rt1)
  | Rejected _ => (false, rt1)
  end.
End WithPlatform.

End LocationManager.

(** ** [services/NetworkService.ts]: the two aggregations

    The managers' calls run concurrently; what the aggregation code sees
    of each is the promise it returns. A settled promise is given by its
    outcome and the instant at which it settled. *)

Module NetworkService.

Import JS.

Record Settled (A : Type) := {
  settledAt : nat;
  outcome : Completion A;
}.
Arguments settledAt {A} _.
Arguments outcome {A} _.

(** [Promise.all([p, q])]: the pair of values, or the reason of the
    promise that rejected first. *)
Definition promiseAll {A B : Type} (p : Settled A) (q : Settled B)
  : Completion (A * B) :=
  match outcome p, outcome q with
  | Normal a, Normal b => Normal (a, b)
  | Throw e, Normal _ => Throw e
  | Normal _, Throw e => Throw e
  | Throw e1, Throw e2 =>
      if (settledAt q <? settledAt p)%nat then Throw e2 else Throw e1
  end.

Record FullNetworkInfo (I : Type) := {
  publicIp : string;
  location : Value;
  interfaces : I;
  externalAddresses : list string;
}.
Arguments publicIp {I} _.
Arguments location {I} _.
Arguments interfaces {I} _.
Arguments externalAddresses {I} _.

Record Health := {
  ipServices : bool;
  geolocationServices : bool;
  networkInfo : bool;
}.

(** [getFullNetworkInfo()], given the promises of [getPublicIp()] and
    [getCurrentLocation()], the results of the two synchronous calls
    (wrapped by [Promise.resolve], they never reject) and the text of
    [new Date().toISOString()]. The thrown values are [Error] objects,
    so the [instanceof] test holds. *)
Definition getFullNetworkInfo {I : Type}
    (pPublicIp : Settled string) (pLocation : Settled Value)
    (ifaces : I) (addresses : list string) (now : string)
  : Completion (ApiResponse (FullNetworkInfo I)) :=
  match promiseAll pPublicIp pLocation with
  | Normal (ip, loc) =>
      Normal {| success := true;
                data := Some {| publicIp := ip; location := loc;
                                interfaces := ifaces;
                                externalAddresses := addresses |};
                error := None;
                timestamp := now |}
  | Throw e =>
      Normal {| success := false; data := None;
                error := Some (message e); timestamp := now |}
  end.

(** [healthCheck()], given the promises of the two managers' health
    checks. *)
Definition healthCheckOf (pIp pGeo : Settled bool) (now : string)
  : Completion (ApiResponse Health) :=
  match promiseAll pIp pGeo with
  | Normal (ipOk, geoOk) =>
      Normal {| success := true;
                data := Some {| ipServices := ipOk;
                                geolocationServices := geoOk;
                                networkInfo := true |};
                error := None;
                timestamp := now |}
  | Throw e =>
      Normal {| success := false; data := None;
                error := Some (message e); timestamp := now |}
  end.

(** [healthCheck()] on the platform. Each manager's check issues its one
    request when it is called (the IP manager's first) and never
    rejects, so the order in which the two requests complete has no
    effect on the result. *)
Definition healthCheck `{Platform} (rt : Runtime) (now : string)
  : Completion (ApiResponse Health) * Runtime :=
  let '(ipOk, rt1) := IpManager.healthCheck rt in
  let '(geoOk, rt2) := LocationManager.healthCheck rt1 in
  (healthCheckOf {| settledAt := 0; outcome := Normal ipOk |}
                 {| settledAt := 1; outcome := Normal geoOk |} now, rt2).

End NetworkService.

(** ** A mocked platform

    As in the package's tests: the client answers from a queue of
    prepared results (each with the time it takes), and the [net] module
    throws, so that the manual validation is used. *)

Module Mock.

Record MockWorld := {
  queue : list (AxiosResult * Z);
  clock : Z;
}.

Definition get (_ : string) (_ : Z) (w : MockWorld) : AxiosResult * MockWorld :=
  match queue w with
  | [] => (Rejected (JS.Err "Network Error"), w)
  | (res, took) :: rest => (res, {| queue := rest; clock := clock w + took |})
  end.

#[global] Instance platform : Platform := {|
  World := MockWorld;
  axios_get := get;
  Date_now := clock;
  net_isIP := fun _ => None;
|}.

Definition start (q : list (AxiosResult * Z)) (now : Z) : Runtime :=
  {| world := {| queue := q; clock := now |}; requests := [] |}.

Definition config (cacheEnabled : bool) : NetworkInfoConfig :=
  {| api := {| ipifyUrl := "https://api.ipify.org?format=json";
               geolocationUrl := "https://ipapi.co";
               timeout := 10000; retries := 3 |};
     cache := {| enabled := cacheEnabled; ttl := 300000 |};
     features := {| rateLimiting := true; fallbackProviders := true |} |}.

Definition request (direct : option string)
    (hs : list (string * IpManager.HeaderValue)) : IpManager.Request :=
  {| IpManager.ip := direct; IpManager.connection := None;
     IpManager.socket := None; IpManager.headers := list_to_map hs |}.

Definition ipManager (cacheEnabled : bool)
    (m : gmap string (CacheEntry string)) : IpManager.t :=
  {| IpManager.config := config cacheEnabled; IpManager.cache := m |}.

Definition locationManager (cacheEnabled : bool)
    (m : gmap string (CacheEntry JS.Value)) : LocationManager.t :=
  {| LocationManager.config := config cacheEnabled; LocationManager.cache := m |}.

(** An address cached at instant 0. *)
Definition oldEntry : CacheEntry string :=
  {| entry_data := "198.51.100.7"; entry_timestamp := 0; entry_ttl := 300000 |}.

Definition locationData : JS.Value :=
  JS.Object [ ("ip", JS.Str "192.168.1.1");
              ("city", JS.Str "Test City");
              ("country_name", JS.Str "United States");
              ("latitude", JS.Number 40);
              ("longitude", JS.Number (-74)) ].

Definition failure : AxiosResult * Z := (Rejected (JS.Err "Provider failed"), 5).

Definition okIp : AxiosResult * Z :=
  (Resolved (JS.Object [("ip", JS.Str "192.168.1.2")]), 7).

Definition okLocation : AxiosResult * Z := (Resolved locationData, 7).

(** The runtime once the requests [reqs] have been made. *)
Definition after (q : list (AxiosResult * Z)) (now : Z) (reqs : list string)
  : Runtime :=
  {| world := {| queue := q; clock := now |}; requests := reqs |}.

(** An operation that always fails, counting its invocations. *)
Definition alwaysFails (n : nat) : Helpers.Result string nat * nat :=
  (Helpers.RejectedWith n, S n).

Definition noDelay (_ : Z) (n : nat) : nat := n.

(** A time line as state: what has happened so far, in order. *)
Inductive Event : Type :=
| Attempted
| Waited (ms : Z).

(** An operation that fails each time it is run, and records the run. *)
Definition failingAttempt (log : list Event)
  : Helpers.Result string string * list Event :=
  (Helpers.RejectedWith "Persistent failure", log ++ [Attempted]).

(** A delay that records the time waited. *)
Definition recordedDelay (ms : Z) (log : list Event) : list Event :=
  log ++ [Waited ms].

End Mock.

(** ** Notions used to state the properties *)

Module Spec.

Import JS.

(** Every character of [s] satisfies [p]. *)
Fixpoint allChars (p : ascii -> bool) (s : string) : bool :=
  match s with
  | EmptyString => true
  | String c s' => p c && allChars p s'
  end.

(** The last character of [s], if it has one. *)
Fixpoint lastChar (s : string) : option ascii :=
  match s with
  | EmptyString => None
  | String c EmptyString => Some c
  | String _ s' => lastChar s'
  end.

(** [s] neither begins nor ends with white space. *)
Definition trimmed (s : string) : bool :=
  negb (match s with String c _ => isWhiteSpace c | EmptyString => false end) &&
  negb (match lastChar s with Some c => isWhiteSpace c | None => false end).

(** [parts.join(sep)] *)
Fixpoint join (sep : ascii) (parts : list string) : string :=
  match parts with
  | [] => EmptyString
  | [p] => p
  | p :: rest => p +:+ String sep (join sep rest)
  end.

(** The first [n] characters of [s]. *)
Fixpoint take (n : nat) (s : string) : string :=
  match n with
  | O => EmptyString
  | S k => match s with
           | EmptyString => EmptyString
           | String c s' => String c (take k s')
           end
  end.

(** The concatenation of a list of strings. *)
Fixpoint flatten (ss : list string) : string :=
  match ss with
  | [] => EmptyString
  | x :: rest => x +:+ flatten rest
  end.

(** The language of a regular expression. *)
Fixpoint lang (r : RegExp.regex) (s : string) : Prop :=
  match r with
  | RegExp.Void => False
  | RegExp.Eps => s = EmptyString
  | RegExp.Class p => exists c, s = String c EmptyString /\ p c = true
  | RegExp.Cat a b => exists s1 s2, s = s1 +:+ s2 /\ lang a s1 /\ lang b s2
  | RegExp.Alt a b => lang a s \/ lang b s
  | RegExp.Star a => exists ss, s = flatten ss /\ Forall (lang a) ss
  end.

(** A group of one to three decimal digits. *)
Definition digitGroup (g : string) : bool :=
  (1 <=? String.length g)%nat && (String.length g <=? 3)%nat &&
  allChars isDigit g.

(** A decimal octet in canonical form: a non-empty group of decimal
    digits whose number lies in [0,255] and whose text is the decimal
    rendering of that number. *)
Definition octet (g : string) : bool :=
  negb (String.eqb g "") && allChars isDigit g &&
  match parseInt g with
  | Some n => (0 <=? n) && (n <=? 255) && String.eqb g (toString n)
  | None => false
  end.

(** An IPv4 literal: exactly four dot-separated canonical octets. *)
Definition ipv4Literal (s : string) : bool :=
  (length (split "." s) =? 4)%nat && forallb octet (split "." s).

(** A group of one to four hexadecimal digits. *)
Definition hexGroup (g : string) : bool :=
  (1 <=? String.length g)%nat && (String.length g <=? 4)%nat &&
  allChars isHexDigit g.

(** The non-empty colon-separated groups of [s]. *)
Definition groups (s : string) : list string :=
  filter (fun g => g <> EmptyString) (split ":" s).

(** An IPv6 literal in colon-hex notation, as the specification words
    it: at most one [::], every non-empty group of one to four
    hexadecimal digits, at most eight groups, and exactly eight when
    there is no [::]. *)
Definition ipv6Literal (s : string) : bool :=
  (matchCount "::" s <=? 1)%nat &&
  forallb hexGroup (groups s) &&
  (length (groups s) <=? 8)%nat &&
  (includes "::" s || (length (groups s) =? 8)%nat).

(** What the manual validation checks of a string with a colon: only
    hexadecimal digits and colons, two to seven colons (so three to
    eight colon-separated parts, the empty ones included), at most one
    [::] (counted without overlap), and no part longer than four
    characters. *)
Definition ipv6Basic (s : string) : bool :=
  allChars (fun c => isHexDigit c || Ascii.eqb c ":") s &&
  (3 <=? length (split ":" s))%nat && (length (split ":" s) <=? 8)%nat &&
  (matchCount "::" s <=? 1)%nat &&
  forallb (fun g => (String.length g <=? 4)%nat) (split ":" s).

(** The requests to [urls], issued in this order from [rt], all fail to
    produce a value ([yields] tells what an attempt gets from a result)
    and leave the runtime [rt']. *)
Inductive AllFail `{Platform} {A : Type} (yields : AxiosResult -> option A)
    (timeoutMs : Z) : list string -> Runtime -> Runtime -> Prop :=
| AllFail_nil rt : AllFail yields timeoutMs [] rt rt
| AllFail_cons u urls rt res rt1 rt2 :
    http_get u timeoutMs rt = (res, rt1) ->
    yields res = None ->
    AllFail yields timeoutMs urls rt1 rt2 ->
    AllFail yields timeoutMs (u :: urls) rt rt2.

(** The delays of the backoff: [base * 2^i] for [i = from, ..., from + n - 1]. *)
Definition backoff (base : Z) (from : Z) (n : nat) : list Z :=
  map (fun i => base * 2 ^ (from + Z.of_nat i)) (seq 0 n).

(** The time line of the retry loop: the state in which the attempt
    that comes after [k] failed ones starts, the first of them having
    index [from]. Each failed attempt [i] has run on the state its
    predecessor left, and the delay [base * 2^i] has passed on the state
    it left, before the next attempt starts. *)
Fixpoint afterFailures {St T E : Type} (operation : St -> Helpers.Result T E * St)
    (delay : Z -> St -> St) (base from : Z) (k : nat) (s : St) : St :=
  match k with
  | O => s
  | Datatypes.S k' =>
      afterFailures operation delay base (from + 1) k'
        (delay (base * 2 ^ from) (operation s).2)
  end.

(** The error thrown at the end of the retry loop: the last one caught,
    or the initial value of [lastError] when none was. *)
Definition finalError {E : Type} (lastError : option E) (errs : list E)
  : option E :=
  match last errs with
  | Some e => Some e
  | None => lastError
  end.

End Spec.

(** ** [services/NetworkManager.ts] *)

Module NetworkManager.

Import JS.

(** An entry of [os.networkInterfaces()]. *)
Record OsInterfaceInfo := {
  os_address : string;
  os_netmask : string;
  os_family : string;
  os_mac : string;
  os_internal : bool;
  os_cidr : option string;
}.

Record NetworkInterfaceInfo := {
  address : string;
  netmask : string;
  family : string;
  mac : string;
  internal : bool;
  cidr : option string;
}.

(** [obj[k] = v] on an object given by its entries in insertion order
    (interface names are not array indices, so this is the order of
    [Object.keys] and [Object.values]). *)
Fixpoint objSet {A : Type} (k : string) (v : A) (obj : list (string * A))
  : list (string * A) :=
  match obj with
  | [] => [(k, v)]
  | (k', v') :: rest =>
      if String.eqb k k' then (k, v) :: rest else (k', v') :: objSet k v rest
  end.

(** [obj[k]] *)
Fixpoint objGet {A : Type} (k : string) (obj : list (string * A)) : option A :=
  match obj with
  | [] => None
  | (k', v) :: rest => if String.eqb k k' then Some v else objGet k rest
  end.

Record t := {
  config : NetworkInfoConfig;
  cache : gmap string (CacheEntry (list (string * list NetworkInterfaceInfo)));
}.

Definition getCached (self : t) (now : Z) (key : string)
  : option (list (string * list NetworkInterfaceInfo)) * t :=
  let '(v, m) := Cache.getCached (config self) now key (cache self) in
  (v, {| config := config self; cache := m |}).

Definition setCached (self : t) (now : Z) (key : string)
    (d : list (string * list NetworkInterfaceInfo)) (ttlArg : option Z) : t :=
  {| config := config self;
     cache := Cache.setCached (config self) now key d ttlArg (cache self) |}.

Definition clearCache (self : t) (key : option string) : t :=
  {| config := config self; cache := Cache.clearCache key (cache self) |}.

Definition cacheKey : string := "network-interfaces".

(** The callback of [interfaceInfo.map]; [info.cidr || null]. *)
Definition convert (info : OsInterfaceInfo) : NetworkInterfaceInfo :=
  {| address := os_address info;
     netmask := os_netmask info;
     family := os_family info;
     mac := os_mac info;
     internal := os_internal info;
     cidr := if truthyStr (os_cidr info) then os_cidr info else None |}.

(** The [Object.keys(interfaces).forEach] loop; [os] is the object that
    [os.networkInterfaces()] returns, an entry whose value is [None]
    being a name mapped to [undefined]. *)
Definition collect (os : list (string * option (list OsInterfaceInfo)))
  : list (string * list NetworkInterfaceInfo) :=
  fold_left
    (fun result entry =>
       match entry.2 with
       | Some interfaceInfo => objSet entry.1 (map convert interfaceInfo) result
       | None => result
       end)
    os [].

(** [getInterfaces()] at instant [now]; the cached object is truthy
    whatever it holds. *)
Definition getInterfaces (self : t) (now : Z)
    (os : list (string * option (list OsInterfaceInfo)))
  : list (string * list NetworkInterfaceInfo) * t :=
  let '(cached, self1) := getCached self now cacheKey in
  match cached with
  | Some interfaces => (interfaces, self1)
  | None =>
      let result := collect os in
      (result, setCached self1 now cacheKey result (Some 60000))
  end.

(** The two nested [forEach] loops of [getExternalAddresses]. *)
Definition pushExternal (addresses : list string)
    (interfaceArray : list NetworkInterfaceInfo) : list string :=
  fold_left
    (fun acc interfaceInfo =>
       if negb (internal interfaceInfo) && String.eqb (family interfaceInfo) "IPv4"
       then acc ++ [address interfaceInfo]
       else acc)
    interfaceArray addresses.

(** [getExternalAddresses()] *)
Definition getExternalAddresses (self : t) (now : Z)
    (os : list (string * option (list OsInterfaceInfo))) : list string * t :=
  let '(interfaces, self1) := getInterfaces self now os in
  (fold_left pushExternal (map snd interfaces) [], self1).

(** [getInterfaceByName(name)]; an array is truthy, even when empty. *)
Definition getInterfaceByName (self : t) (now : Z)
    (os : list (string * option (list OsInterfaceInfo))) (name : string)
  : option (list NetworkInterfaceInfo) * t :=
  let '(interfaces, self1) := getInterfaces self now os in
  (objGet name interfaces, self1).

Record Stats := {
  totalInterfaces : nat;
  externalAddresses : nat;
  internalAddresses : nat;
}.

(** The counting loops of [getNetworkStats]: the pair is
    [(externalCount, internalCount)]. *)
Definition countOne (counts : nat * nat) (interfaceArray : list NetworkInterfaceInfo)
  : nat * nat :=
  fold_left
    (fun c interfaceInfo =>
       if internal interfaceInfo then (c.1, Datatypes.S c.2)
       else (Datatypes.S c.1, c.2))
    interfaceArray counts.

(** [getNetworkStats()] *)
Definition getNetworkStats (self : t) (now : Z)
    (os : list (string * option (list OsInterfaceInfo))) : Stats * t :=
  let '(interfaces, self1) := getInterfaces self now os in
  let counts := fold_left countOne (map snd interfaces) (O, O) in
  ({| totalInterfaces := length interfaces;
      externalAddresses := counts.1;
      internalAddresses := counts.2 |}, self1).

End NetworkManager.

(** ** [services/NetworkService.ts]: the service object *)

Module Service.

Import JS.

(** What a caller may pass as configuration: every field, at both
    levels, may be missing. *)
Record PartialApi := {
  p_ipifyUrl : option string;
  p_geolocationUrl : option string;
  p_timeout : option Z;
  p_retries : option Z;
}.

Record PartialCache := {
  p_enabled : option bool;
  p_ttl : option Z;
}.

Record PartialFeatures := {
  p_rateLimiting : option bool;
  p_fallbackProviders : option bool;
}.

Record PartialConfig := {
  p_api : option PartialApi;
  p_cache : option PartialCache;
  p_features : option PartialFeatures;
}.

(** [x || d] on an optional number: [undefined] and [0] are falsy. *)
Definition orNum (x : option Z) (d : Z) : Z :=
  match x with
  | Some n => if n =? 0 then d else n
  | None => d
  end.

(** [x || d] on an optional string. *)
Definition orStr (x : option string) (d : string) : string :=
  match x with
  | Some s => if truthyStr x then s else d
  | None => d
  end.

(** [x ?? d] *)
Definition nullish {A : Type} (x : option A) (d : A) : A := default d x.

(** The configuration built by the constructor. *)
Definition resolveConfig (config : option PartialConfig) : NetworkInfoConfig :=
  let a := config ≫= p_api in
  let c := config ≫= p_cache in
  let f := config ≫= p_features in
  {| api := {| ipifyUrl := orStr (a ≫= p_ipifyUrl) "https://api.ipify.org?format=json";
               geolocationUrl := orStr (a ≫= p_geolocationUrl) "https://ipapi.co";
               timeout := orNum (a ≫= p_timeout) 10000;
               retries := orNum (a ≫= p_retries) 3 |};
     cache := {| enabled := nullish (c ≫= p_enabled) true;
                 ttl := orNum (c ≫= p_ttl) 300000 |};
     features := {| rateLimiting := nullish (f ≫= p_rateLimiting) true;
                    fallbackProviders := nullish (f ≫= p_fallbackProviders) true |} |}.

Record t := {
  config : NetworkInfoConfig;
  ipManager : IpManager.t;
  locationManager : LocationManager.t;
  networkManager : NetworkManager.t;
}.

(** [initializeManagers()]: three new managers, each with an empty
    cache. *)
Definition initializeManagers (cfg : NetworkInfoConfig) : t :=
  {| config := cfg;
     ipManager := {| IpManager.config := cfg; IpManager.cache := ∅ |};
     locationManager :=
       {| LocationManager.config := cfg; LocationManager.cache := ∅ |};
     networkManager :=
       {| NetworkManager.config := cfg; NetworkManager.cache := ∅ |} |}.

(** [new NetworkService(config)] and [createInstance(config)] *)
Definition createInstance (config : option PartialConfig) : t :=
  initializeManagers (resolveConfig config).

(** [getInstance(config)], given the static field [instance]: the
    instance returned and the new value of the field. *)
Definition getInstance (instance : option t) (config : option PartialConfig)
  : t * option t :=
  match instance with
  | Some i => (i, Some i)
  | None => let i := createInstance config in (i, Some i)
  end.

(** The argument of [updateConfig]: a [Partial<NetworkInfoConfig>], whose
    sections are whole when present; [None] is a section the argument
    does not have as a property. *)
Record ConfigUpdate := {
  u_api : option ApiConfig;
  u_cache : option CacheConfig;
  u_features : option FeaturesConfig;
}.

(** [updateConfig(newConfig)]: [{ ...this.config, ...newConfig }], then
    [initializeManagers()]. *)
Definition updateConfig (self : t) (newConfig : ConfigUpdate) : t :=
  initializeManagers
    {| api := default (api (config self)) (u_api newConfig);
       cache := default (cache (config self)) (u_cache newConfig);
       features := default (features (config self)) (u_features newConfig) |}.

(** [getConfig()] *)
Definition getConfig (self : t) : NetworkInfoConfig :=
  {| api := api (config self); cache := cache (config self);
     features := features (config self) |}.

(** [clearCaches()] *)
Definition clearCaches (self : t) : t :=
  {| config := config self;
     ipManager := IpManager.clearCache (ipManager self) None;
     locationManager := LocationManager.clearCache (locationManager self) None;
     networkManager := NetworkManager.clearCache (networkManager self) None |}.

(** [getClientIp(req)] *)
Definition getClientIp (self : t) (req : IpManager.Request) : Completion string :=
  IpManager.getClientIp req.

Section WithPlatform.
Context `{Platform}.

(** [getPublicIp()] *)
Definition getPublicIp (self : t) (rt : Runtime)
  : Completion string * t * Runtime :=
  let '(res, m, rt1) := IpManager.getPublicIp (ipManager self) rt in
  (res, {| config := config self; ipManager := m;
           locationManager := locationManager self;
           networkManager := networkManager self |}, rt1).

(** [getLocation(ip?)] *)
Definition getLocation (self : t) (ip : option string) (rt : Runtime)
  : Completion Value * t * Runtime :=
  let '(res, m, rt1) := LocationManager.getLocation ip (locationManager self) rt in
  (res, {| config := config self; ipManager := ipManager self;
           locationManager := m;
           networkManager := networkManager self |}, rt1).
End WithPlatform.

(** [getNetworkInterfaces()] *)
Definition getNetworkInterfaces (self : t) (now : Z)
    (os : list (string * option (list NetworkManager.OsInterfaceInfo)))
  : list (string * list NetworkManager.NetworkInterfaceInfo) * t :=
  let '(res, m) := NetworkManager.getInterfaces (networkManager self) now os in
  (res, {| config := config self; ipManager := ipManager self;
           locationManager := locationManager self; networkManager := m |}).

End Service.

(** ** [utils/helpers.ts] responses and [routes/NetworkRoutes.ts] *)

Module Routes.

Import JS.

(** What a handler sends: the status ([res.json] alone answers 200) and
    the body. *)
Record Response (T : Type) := {
  status : Z;
  body : ApiResponse T;
}.
Arguments status {T} _.
Arguments body {T} _.

(** [createSuccessResponse(data)] with the text of
    [new Date().toISOString()]. *)
Definition createSuccessResponse {T : Type} (d : T) (now : string) : ApiResponse T :=
  {| success := true; data := Some d; error := None; timestamp := now |}.

(** [createErrorResponse(error)] *)
Definition createErrorResponse {T : Type} (e : string) (now : string)
  : ApiResponse T :=
  {| success := false; data := None; error := Some e; timestamp := now |}.

Record IpData := {
  clientIp : string;
  publicIp : string;
}.

Section WithPlatform.
Context `{Platform}.
(** [new Date(ms).toISOString()] *)
Variable toISOString : Z -> string.

(** [GET /ip] *)
Definition getIp (svc : Service.t) (req : IpManager.Request) (rt : Runtime)
  : Response IpData * Service.t * Runtime :=
  match Service.getClientIp svc req with
  | Throw e =>
      ({| status := 500;
          body := createErrorResponse (message e) (toISOString (Date_now (world rt))) |},
       svc, rt)
  | Normal cip =>
      match Service.getPublicIp svc rt with
      | (Normal pip, svc1, rt1) =>
          ({| status := 200;
              body := createSuccessResponse {| clientIp := cip; publicIp := pip |}
                        (toISOString (Date_now (world rt1))) |}, svc1, rt1)
      | (Throw e, svc1, rt1) =>
          ({| status := 500;
              body := createErrorResponse (message e)
                        (toISOString (Date_now (world rt1))) |}, svc1, rt1)
      end
  end.

(** [GET /location]: the location of the client's address. *)
Definition getLocation (svc : Service.t) (req : IpManager.Request) (rt : Runtime)
  : Response Value * Service.t * Runtime :=
  match Service.getClientIp svc req with
  | Throw e =>
      ({| status := 500;
          body := createErrorResponse (message e) (toISOString (Date_now (world rt))) |},
       svc, rt)
  | Normal cip =>
      match Service.getLocation svc (Some cip) rt with
      | (Normal loc, svc1, rt1) =>
          ({| status := 200;
              body := createSuccessResponse loc (toISOString (Date_now (world rt1))) |},
           svc1, rt1)
      | (Throw e, svc1, rt1) =>
          ({| status := 500;
              body := createErrorResponse (message e)
                        (toISOString (Date_now (world rt1))) |}, svc1, rt1)
      end
  end.

(** [GET /public-ip] *)
Definition getPublicIp (svc : Service.t) (rt : Runtime)
  : Response string * Service.t * Runtime :=
  match Service.getPublicIp svc rt with
  | (Normal pip, svc1, rt1) =>
      ({| status := 200;
          body := createSuccessResponse pip (toISOString (Date_now (world rt1))) |},
       svc1, rt1)
  | (Throw e, svc1, rt1) =>
      ({| status := 500;
          body := createErrorResponse (message e)
                    (toISOString (Date_now (world rt1))) |}, svc1, rt1)
  end.
End WithPlatform.

(** [GET /full] and [GET /health], given what the awaited service call
    completed with: the response of the service is sent as it is. *)
Definition forward {T : Type} (res : Completion (ApiResponse T)) (now : string)
  : Response T :=
  match res with
  | Normal r => {| status := 200; body := r |}
  | Throw e => {| status := 500; body := createErrorResponse (message e) now |}
  end.

End Routes.

(** ** Sample data for the network manager and the service *)

Module Sample.

Definition loopback : NetworkManager.OsInterfaceInfo :=
  {| NetworkManager.os_address := "127.0.0.1";
     NetworkManager.os_netmask := "255.0.0.0";
     NetworkManager.os_family := "IPv4";
     NetworkManager.os_mac := "00:00:00:00:00:00";
     NetworkManager.os_internal := true;
     NetworkManager.os_cidr := Some "127.0.0.1/8" |}.

Definition wired : NetworkManager.OsInterfaceInfo :=
  {| NetworkManager.os_address := "192.168.1.100";
     NetworkManager.os_netmask := "255.255.255.0";
     NetworkManager.os_family := "IPv4";
     NetworkManager.os_mac := "00:11:22:33:44:55";
     NetworkManager.os_internal := false;
     NetworkManager.os_cidr := Some "192.168.1.100/24" |}.

Definition wired6 : NetworkManager.OsInterfaceInfo :=
  {| NetworkManager.os_address := "fe80::1";
     NetworkManager.os_netmask := "ffff:ffff:ffff:ffff::";
     NetworkManager.os_family := "IPv6";
     NetworkManager.os_mac := "00:11:22:33:44:55";
     NetworkManager.os_internal := false;
     NetworkManager.os_cidr := Some "" |}.

(** What [os.networkInterfaces()] returns. *)
Definition os : list (string * option (list NetworkManager.OsInterfaceInfo)) :=
  [ ("lo", Some [loopback]); ("eth0", Some [wired; wired6]); ("tun0", None) ].

Definition os' : list (string * option (list NetworkManager.OsInterfaceInfo)) :=
  [ ("lo", Some [loopback]) ].

Definition networkManager : NetworkManager.t :=
  {| NetworkManager.config := Mock.config true; NetworkManager.cache := ∅ |}.

Definition service : Service.t := Service.createInstance None.

(** A cached location, stored at instant 0. *)
Definition oldLocation : CacheEntry JS.Value :=
  {| entry_data := Mock.locationData; entry_timestamp := 0; entry_ttl := 300000 |}.

(** An operation that fails twice, then succeeds. *)
Definition thirdTimeLucky (n : nat) : Helpers.Result string nat * nat :=
  if (n <? 2)%nat then (Helpers.RejectedWith n, S n)
  else (Helpers.Fulfilled "success", S n).

(** [new Date(ms).toISOString()], left abstract: the text of the number. *)
Definition iso (ms : Z) : string := JS.toString ms.

End Sample.

(* ===================================================================== *)
(** * Part II: properties                                                  *)
(* ===================================================================== *)

(** ** The TTL cache *)

Section CacheFacts.
Context {T : Type}.
Variable config : NetworkInfoConfig.
Implicit Types (m : gmap string (CacheEntry T)) (k : string) (v : T).

Lemma getCached_disabled now k m :
  enabled (cache config) = false ->
  Cache.getCached config now k m = (None, m).
Proof. intros Hd. unfold Cache.getCached. by rewrite Hd. Qed.

Lemma setCached_disabled now k v ttlArg m :
  enabled (cache config) = false ->
  Cache.setCached config now k v ttlArg m = m.
Proof. intros Hd. unfold Cache.setCached. by rewrite Hd. Qed.

Lemma setCached_enabled now k v ttlArg m :
  enabled (cache config) = true ->
  Cache.setCached config now k v ttlArg m =
  <[ k := {| entry_data := v; entry_timestamp := now;
             entry_ttl := Cache.ttlOrDefault config ttlArg |} ]> m.
Proof. intros He. unfold Cache.setCached. by rewrite He. Qed.

Lemma getCached_absent now k m :
  m !! k = None -> Cache.getCached config now k m = (None, m).
Proof.
  intros Hk. unfold Cache.getCached.
  destruct (negb _); [done|]. by rewrite Hk.
Qed.

Lemma getCached_expired now k m e :
  enabled (cache config) = true ->
  m !! k = Some e ->
  now - entry_timestamp e > entry_ttl e ->
  Cache.getCached config now k m = (None, delete k m).
Proof.
  intros He Hk Hage. unfold Cache.getCached. rewrite He, Hk. simpl.
  destruct (Z.gtb_spec (now - entry_timestamp e) (entry_ttl e)); [done|lia].
Qed.

Lemma getCached_live now k m e :
  enabled (cache config) = true ->
  m !! k = Some e ->
  now - entry_timestamp e <= entry_ttl e ->
  Cache.getCached config now k m = (Some (entry_data e), m).
Proof.
  intros He Hk Hage. unfold Cache.getCached. rewrite He, Hk. simpl.
  destruct (Z.gtb_spec (now - entry_timestamp e) (entry_ttl e)); [lia|done].
Qed.

(** A value stored at [now] and looked up at [later] is returned as long
    as [later - now] does not exceed the time to live, and is deleted by
    the lookup once it does. *)
Lemma setCached_then_getCached now later k v m :
  enabled (cache config) = true ->
  Cache.getCached config later k (Cache.setCached config now k v None m) =
  if later - now >? ttl (cache config)
  then (None, delete k m)
  else (Some v, Cache.setCached config now k v None m).
Proof.
  intros He. rewrite (setCached_enabled _ _ _ _ _ He).
  unfold Cache.getCached. rewrite He, lookup_insert_eq. simpl.
  destruct (later - now >? ttl (cache config)); [|done].
  by rewrite delete_insert_eq.
Qed.

(** A lookup never adds anything: the map it leaves is the map it found,
    or that map without the key looked up. *)
Lemma getCached_map now k m :
  (Cache.getCached config now k m).2 = m \/
  (Cache.getCached config now k m).1 = None /\
  (Cache.getCached config now k m).2 = delete k m /\
  exists e, m !! k = Some e /\ now - entry_timestamp e > entry_ttl e.
Proof.
  unfold Cache.getCached. destruct (negb _); [by left|].
  destruct (m !! k) as [e|] eqn:Hk; [|by left].
  destruct (Z.gtb_spec (now - entry_timestamp e) (entry_ttl e)); [|by left].
  right. repeat split; [done..|]. exists e. split; [done|lia].
Qed.

(** C3. With the cache enabled, a value stored with [setCached] is
    returned by a [getCached] of the same key made at the same instant
    (the configured time to live being a duration, not negative); an
    entry older than its time to live is reported absent and deleted
    from the map by the lookup; an entry whose age is at most its time
    to live is returned and the map is left as it is. *)
Theorem cache_roundtrip_and_lazy_expiry :
  enabled (cache config) = true ->
  (forall now k v m,
      0 <= ttl (cache config) ->
      Cache.getCached config now k (Cache.setCached config now k v None m)
      = (Some v, Cache.setCached config now k v None m)) /\
  (forall now k m e,
      m !! k = Some e ->
      now - entry_timestamp e > entry_ttl e ->
      Cache.getCached config now k m = (None, delete k m) /\
      (delete k m) !! k = None) /\
  (forall now k m e,
      m !! k = Some e ->
      now - entry_timestamp e <= entry_ttl e ->
      Cache.getCached config now k m = (Some (entry_data e), m)).
Proof.
  intros He. split; [|split].
  - intros now k v m Httl.
    rewrite (setCached_enabled _ _ _ _ _ He).
    set (e := {| entry_data := v; entry_timestamp := now;
                 entry_ttl := Cache.ttlOrDefault config None |}).
    apply (getCached_live now k _ e He); [apply lookup_insert_eq|].
    simpl. lia.
  - intros now k m e Hk Hage. split.
    + by apply (getCached_expired now k m e).
    + apply lookup_delete_eq.
  - intros now k m e Hk Hage. by apply (getCached_live now k m e).
Qed.
End CacheFacts.

(** ** Retry with exponential backoff *)

Section RetryFacts.
Import Helpers.
Context {S T E : Type}.
Variable operation : S -> Result T E * S.
Variable delay : Z -> S -> S.

Lemma backoff_cons base from n :
  Spec.backoff base from (Datatypes.S n) =
  base * 2 ^ from :: Spec.backoff base (from + 1) n.
Proof.
  unfold Spec.backoff. simpl. f_equal.
  - by rewrite Z.add_0_r.
  - rewrite <- seq_shift, map_map. apply map_ext. intros i.
    do 2 f_equal. lia.
Qed.

Lemma invoke_results (r r1 : @Run S T E) res :
  invoke operation r = (res, r1) ->
  results r1 = results r ++ [res] /\ delays r1 = delays r /\
  (operation (state r)).1 = res.
Proof.
  unfold invoke. destruct (operation (state r)) as [res' s'].
  intros [= <- <-]. done.
Qed.

(** The loop started at [attempt] with [n = maxRetries - attempt]
    iterations to go: it logs a run of failures, closed by the first
    success if there is one, and waits [delayMs * 2^i] after the failure
    of attempt [i] unless that attempt was the last one allowed. *)
Lemma retryFrom_trace n : forall maxRetries delayMs attempt lastError (r : @Run S T E),
  Z.of_nat n = maxRetries - attempt ->
  exists errs : list E,
    match retryFrom operation delay n maxRetries delayMs attempt lastError r with
    | (Fulfilled v, r') =>
        (length errs < n)%nat /\
        results r' = results r ++ map RejectedWith errs ++ [Fulfilled v] /\
        delays r' = delays r ++ Spec.backoff delayMs attempt (length errs)
    | (RejectedWith e, r') =>
        length errs = n /\
        results r' = results r ++ map RejectedWith errs /\
        delays r' = delays r ++ Spec.backoff delayMs attempt (n - 1) /\
        e = Spec.finalError lastError errs
    end.
Proof.
  induction n as [|n IH]; intros maxRetries delayMs attempt lastError r Hn.
  - exists []. simpl. by rewrite !app_nil_r.
  - simpl retryFrom.
    destruct (Z.ltb_spec attempt maxRetries) as [_|Hge]; [|lia].
    destruct (invoke operation r) as [[v|e] r1] eqn:Hinv;
      apply invoke_results in Hinv as (Hres & Hdel & _).
    + exists []. simpl. rewrite Hres, Hdel, app_nil_r. repeat split; [lia|done..].
    + set (r2 := if attempt <? maxRetries - 1
                 then wait delay (delayMs * 2 ^ attempt) r1 else r1).
      assert (Hres2 : results r2 = results r ++ [RejectedWith e]).
      { subst r2. by destruct (attempt <? maxRetries - 1). }
      assert (Hdel2 : delays r2 =
                delays r ++ if attempt <? maxRetries - 1
                            then [delayMs * 2 ^ attempt] else []).
      { subst r2. destruct (attempt <? maxRetries - 1); simpl;
          by rewrite Hdel, ?app_nil_r. }
      destruct (IH maxRetries delayMs (attempt + 1) (Some e) r2 ltac:(lia))
        as [errs Herrs].
      exists (e :: errs).
      destruct (retryFrom operation delay n maxRetries delayMs (attempt + 1) (Some e) r2)
        as [[v|e'] r'].
      * destruct Herrs as (Hlen & Hr & Hd).
        destruct (Z.ltb_spec attempt (maxRetries - 1)) as [_|Hlast]; [|lia].
        repeat split.
        -- simpl. lia.
        -- rewrite Hr, Hres2. simpl. by rewrite <- app_assoc.
        -- rewrite Hd, Hdel2. simpl length.
           rewrite backoff_cons. by rewrite <- app_assoc.
      * destruct Herrs as (Hlen & Hr & Hd & He).
        repeat split.
        -- simpl. lia.
        -- rewrite Hr, Hres2. simpl. by rewrite <- app_assoc.
        -- rewrite Hd, Hdel2.
           destruct (Z.ltb_spec attempt (maxRetries - 1)) as [Hlt|Hlast].
           ++ destruct n as [|n']; [lia|].
              replace (Datatypes.S (Datatypes.S n') - 1)%nat with (Datatypes.S n') by lia.
              replace (Datatypes.S n' - 1)%nat with n' by lia.
              rewrite backoff_cons. by rewrite <- app_assoc.
           ++ destruct n as [|n']; [|lia]. by rewrite app_nil_r.
        -- rewrite He. unfold Spec.finalError. rewrite last_cons.
           by destruct (last errs).
    Qed.

(** Every logged result is what the operation returned when invoked. *)
Lemma retryFrom_results n : forall maxRetries delayMs attempt lastError (r : @Run S T E),
  Forall (fun res => exists s, (operation s).1 = res) (results r) ->
  Forall (fun res => exists s, (operation s).1 = res)
         (results (retryFrom operation delay n maxRetries delayMs attempt lastError r).2).
Proof.
  induction n as [|n IH]; intros maxRetries delayMs attempt lastError r Hr; [done|].
  simpl retryFrom. destruct (attempt <? maxRetries); [|done].
  destruct (invoke operation r) as [[v|e] r1] eqn:Hinv;
    apply invoke_results in Hinv as (Hres & _ & Hop).
  - simpl. rewrite Hres. apply Forall_app. split; [done|].
    constructor; [eauto|constructor].
  - apply IH.
    assert (Hr1 : Forall (fun res => exists s, (operation s).1 = res) (results r1)).
    { rewrite Hres. apply Forall_app. split; [done|].
      constructor; [eauto|constructor]. }
    by destruct (attempt <? maxRetries - 1).
Qed.

(** What an invocation does to the run: the operation acts on the
    state of the run and leaves its own. *)
Lemma invoke_state (r r1 : @Run S T E) res :
  invoke operation r = (res, r1) -> operation (state r) = (res, state r1).
Proof.
  unfold invoke. destruct (operation (state r)) as [res' s'].
  by intros [= <- <-].
Qed.

(** The loop with its time line: besides what [retryFrom_trace] says of
    the two logs, every attempt starts in the state that the failed
    attempts before it and their delays have produced, one after the
    other, and the run ends in the state the last attempt left. *)
Lemma retryFrom_run n : forall maxRetries delayMs attempt lastError (r : @Run S T E),
  Z.of_nat n = maxRetries - attempt ->
  exists errs : list E,
    (forall i e, errs !! i = Some e ->
       (operation (Spec.afterFailures operation delay delayMs attempt i (state r))).1
       = RejectedWith e) /\
    match retryFrom operation delay n maxRetries delayMs attempt lastError r with
    | (Fulfilled v, r') =>
        (length errs < n)%nat /\
        results r' = results r ++ map RejectedWith errs ++ [Fulfilled v] /\
        delays r' = delays r ++ Spec.backoff delayMs attempt (length errs) /\
        operation (Spec.afterFailures operation delay delayMs attempt
                     (length errs) (state r))
        = (Fulfilled v, state r')
    | (RejectedWith e, r') =>
        length errs = n /\
        results r' = results r ++ map RejectedWith errs /\
        delays r' = delays r ++ Spec.backoff delayMs attempt (n - 1) /\
        e = Spec.finalError lastError errs /\
        match n with
        | O => state r' = state r
        | Datatypes.S m =>
            (operation (Spec.afterFailures operation delay delayMs attempt
                          m (state r))).2
            = state r'
        end
    end.
Proof.
  induction n as [|n IH]; intros maxRetries delayMs attempt lastError r Hn.
  - exists []. split; [by intros i e|]. simpl. by rewrite !app_nil_r.
  - simpl retryFrom.
    destruct (Z.ltb_spec attempt maxRetries) as [_|Hge]; [|lia].
    destruct (invoke operation r) as [[v|e] r1] eqn:Hinv;
      pose proof (invoke_state _ _ _ Hinv) as Hop;
      apply invoke_results in Hinv as (Hres & Hdel & _).
    + exists []. split; [by intros i e|]. simpl.
      rewrite Hres, Hdel, app_nil_r. repeat split; [lia|done..].
    + set (r2 := if attempt <? maxRetries - 1
                 then wait delay (delayMs * 2 ^ attempt) r1 else r1).
      assert (Hres2 : results r2 = results r ++ [RejectedWith e]).
      { subst r2. by destruct (attempt <? maxRetries - 1). }
      assert (Hdel2 : delays r2 =
                delays r ++ if attempt <? maxRetries - 1
                            then [delayMs * 2 ^ attempt] else []).
      { subst r2. destruct (attempt <? maxRetries - 1); simpl;
          by rewrite Hdel, ?app_nil_r. }
      assert (Hst2 : state r2 =
                if attempt <? maxRetries - 1
                then Spec.afterFailures operation delay delayMs attempt 1 (state r)
                else state r1).
      { subst r2. destruct (attempt <? maxRetries - 1); [|done].
        simpl. by rewrite Hop. }
      destruct (IH maxRetries delayMs (attempt + 1) (Some e) r2 ltac:(lia))
        as (errs & Hearlier & Herrs).
      exists (e :: errs).
      destruct (Z.ltb_spec attempt (maxRetries - 1)) as [Hlt|Hlast].
      * split.
        { intros [|i] e' Hi; simpl in Hi.
          - injection Hi as <-. simpl. by rewrite Hop.
          - specialize (Hearlier i e' Hi). by rewrite Hst2 in Hearlier. }
        destruct (retryFrom operation delay n maxRetries delayMs (attempt + 1)
                    (Some e) r2) as [[v|e'] r'].
        -- destruct Herrs as (Hlen & Hr & Hd & Hs). rewrite Hst2 in Hs.
           repeat split.
           ++ simpl. lia.
           ++ rewrite Hr, Hres2. simpl. by rewrite <- app_assoc.
           ++ rewrite Hd, Hdel2. simpl length.
              rewrite backoff_cons. by rewrite <- app_assoc.
           ++ exact Hs.
        -- destruct Herrs as (Hlen & Hr & Hd & He & Hs).
           destruct n as [|n']; [lia|]. rewrite Hst2 in Hs.
           repeat split.
           ++ simpl. lia.
           ++ rewrite Hr, Hres2. simpl. by rewrite <- app_assoc.
           ++ rewrite Hd, Hdel2.
              replace (Datatypes.S (Datatypes.S n') - 1)%nat with (Datatypes.S n') by lia.
              replace (Datatypes.S n' - 1)%nat with n' by lia.
              rewrite backoff_cons. by rewrite <- app_assoc.
           ++ rewrite He. unfold Spec.finalError. rewrite last_cons.
              by destruct (last errs).
           ++ exact Hs.
      * destruct n as [|n']; [|lia]. simpl in Herrs.
        destruct Herrs as (Hlen & Hr & Hd & He & Hs).
        destruct errs; [|done].
        split.
        { intros [|i] e' Hi; simpl in Hi; [|done].
          injection Hi as <-. simpl. by rewrite Hop. }
        simpl. repeat split.
        -- rewrite Hr, Hres2. by rewrite app_nil_r.
        -- rewrite Hd, Hdel2. by rewrite !app_nil_r.
        -- by rewrite Hst2, Hop.
Qed.

(** C4. For [maxRetries >= 1], [retry] invokes the operation at most
    [maxRetries] times. If it returns, the value is that of the first
    successful invocation, every earlier invocation failed, and after
    the failure of attempt [i] (counted from zero) it waited
    [delayMs * 2^i]. If it throws, the operation was invoked exactly
    [maxRetries] times, all failed, the delays were [delayMs * 2^i] for
    [i < maxRetries - 1], and the error thrown is the one of the last
    invocation, as it was. The waiting is placed between the attempts:
    attempt [i] starts in the state in which the delay
    [delayMs * 2^(i-1)] has passed on what attempt [i-1] left, and the
    run ends in the state the last attempt left, with no delay after
    it. With [maxRetries = 1] there is one invocation and no delay. An
    operation that always fails is invoked exactly [maxRetries] times. *)
Theorem retry_backoff (maxRetries delayMs : Z) (s : S) :
  1 <= maxRetries ->
  let '(res, run) := retry operation delay (Some maxRetries) (Some delayMs) s in
  let before := Spec.afterFailures operation delay delayMs 0 in
  (invocations run <= Z.to_nat maxRetries)%nat /\
  match res with
  | Fulfilled v =>
      exists errs,
        results run = map RejectedWith errs ++ [Fulfilled v] /\
        delays run = Spec.backoff delayMs 0 (length errs) /\
        (forall i e, errs !! i = Some e ->
           (operation (before i s)).1 = RejectedWith e) /\
        operation (before (length errs) s) = (Fulfilled v, state run)
  | RejectedWith e =>
      exists errs eLast,
        results run = map RejectedWith (errs ++ [eLast]) /\
        invocations run = Z.to_nat maxRetries /\
        delays run = Spec.backoff delayMs 0 (Z.to_nat maxRetries - 1) /\
        e = Some eLast /\
        (forall i e, errs !! i = Some e ->
           (operation (before i s)).1 = RejectedWith e) /\
        operation (before (length errs) s) = (RejectedWith eLast, state run)
  end /\
  (maxRetries = 1 -> invocations run = 1%nat /\ delays run = []) /\
  ((forall s0, exists e0, (operation s0).1 = RejectedWith e0) ->
   invocations run = Z.to_nat maxRetries /\
   exists e0, res = RejectedWith (Some e0)).
Proof.
  intros Hmax. unfold retry. simpl default.
  set (r0 := {| state := s; results := []; delays := [] |}).
  destruct (retryFrom_run (Z.to_nat maxRetries) maxRetries delayMs 0 None r0
              ltac:(lia)) as (errs & Hearlier & Htrace).
  pose proof (retryFrom_results (Z.to_nat maxRetries) maxRetries delayMs 0 None r0
                ltac:(constructor)) as Hlog.
  destruct (retryFrom operation delay (Z.to_nat maxRetries) maxRetries delayMs 0 None r0)
    as [[v|e] run]; simpl in Hlog.
  - destruct Htrace as (Hlen & Hres & Hdel & Hst). simpl in Hres, Hdel, Hst, Hearlier.
    assert (Hinv : invocations run = Datatypes.S (length errs)).
    { unfold invocations. rewrite Hres, length_app, length_map. simpl. lia. }
    split; [lia|]. split; [by exists errs|]. split.
    + intros ->. change (Z.to_nat 1) with 1%nat in Hlen.
      destruct errs; simpl in *; [|lia]. by rewrite Hinv, Hdel.
    + intros Hfail. exfalso.
      rewrite Hres in Hlog. apply Forall_app in Hlog as [_ Hlog].
      apply Forall_cons in Hlog as [[s0 Hs0] _].
      destruct (Hfail s0) as [e0 He0]. congruence.
  - destruct Htrace as (Hlen & Hres & Hdel & He & Hst).
    simpl in Hres, Hdel, Hearlier.
    assert (Hinv : invocations run = Z.to_nat maxRetries).
    { unfold invocations. by rewrite Hres, length_map. }
    destruct (decide (errs = [])) as [->|Hne].
    { simpl in Hlen. lia. }
    destruct (exists_last Hne) as (errs' & eLast & ->).
    assert (He' : e = Some eLast).
    { rewrite He. unfold Spec.finalError. by rewrite last_snoc. }
    assert (Hm : Z.to_nat maxRetries = Datatypes.S (length errs')).
    { rewrite <- Hlen, length_app. simpl. lia. }
    rewrite Hm in Hst. simpl in Hst.
    assert (Hlast : (operation (Spec.afterFailures operation delay delayMs 0
                                  (length errs') s)).1 = RejectedWith eLast).
    { apply Hearlier. rewrite lookup_app_r by done.
      by rewrite Nat.sub_diag. }
    split; [lia|]. split.
    { exists errs', eLast. repeat split; try done.
      - intros i e0 Hi. apply Hearlier. by apply lookup_app_l_Some.
      - destruct (operation (Spec.afterFailures operation delay delayMs 0
                               (length errs') s)) as [res' s'].
        simpl in Hlast, Hst. by subst. }
    split.
    + intros ->. by rewrite Hinv, Hdel.
    + intros _. split; [done|]. exists eLast. by rewrite He'.
Qed.
End RetryFacts.

(** ** Strings *)

Section StringFacts.
Import JS.

Lemma startsWith_char c d s :
  startsWith (String c "") (String d s) = Ascii.eqb c d.
Proof. simpl. by destruct (Ascii.eqb c d). Qed.

Lemma includes_char_cons c d s :
  includes (String c "") (String d s) = Ascii.eqb c d || includes (String c "") s.
Proof. cbn [includes]. by rewrite startsWith_char. Qed.

(** [split] never returns the empty array, and its first element is
    free of the separator. *)
Lemma split_head sep s :
  exists p ps, split sep s = p :: ps /\ includes (String sep "") p = false.
Proof.
  induction s as [|c s (p & ps & Hs & Hp)]; simpl.
  - by exists "", [].
  - destruct (Ascii.eqb c sep) eqn:Hc.
    + by exists "", (split sep s).
    + rewrite Hs. exists (String c p), ps. split; [done|].
      rewrite includes_char_cons, Hp, Ascii.eqb_sym, Hc. done.
Qed.

Lemma split_no_sep sep s :
  includes (String sep "") s = false -> split sep s = [s].
Proof.
  induction s as [|c s IH]; [done|].
  rewrite includes_char_cons. intros [Hc Hs]%orb_false_elim.
  simpl. rewrite Ascii.eqb_sym, Hc, (IH Hs). done.
Qed.

(** When the separator occurs, the first element of [split] is what
    stands before its first occurrence. *)
Lemma split_first_prefix sep s :
  includes (String sep "") s = true ->
  exists p ps rest, split sep s = p :: ps /\ s = p +:+ String sep rest.
Proof.
  induction s as [|c s IH]; [done|].
  rewrite includes_char_cons. simpl. rewrite (Ascii.eqb_sym sep c).
  destruct (Ascii.eqb c sep) eqn:Hc.
  - intros _. apply Ascii.eqb_eq in Hc as ->. by exists "", (split sep s), s.
  - simpl. intros (p & ps & rest & -> & ->)%IH.
    by exists (String c p), ps, rest.
Qed.
End StringFacts.

(** ** The client address *)

Section ClientIpFacts.
Import JS IpManager.

Lemma stripPort_no_colon a : includes ":" (stripPort a) = false.
Proof.
  unfold stripPort, first.
  destruct (split_head ":" a) as (p & ps & -> & Hp). done.
Qed.

Lemma stripPort_id a : includes ":" a = false -> stripPort a = a.
Proof. intros Ha. unfold stripPort. by rewrite (split_no_sep _ _ Ha). Qed.

Lemma stripPort_truncates a :
  includes ":" a = true -> exists rest, a = stripPort a +:+ String ":" rest.
Proof.
  intros (p & ps & rest & Hs & Ha)%split_first_prefix.
  exists rest. unfold stripPort. by rewrite Hs.
Qed.

Lemma unusable_false a :
  a <> "" -> a <> "::1" -> unusable (Some a) = false.
Proof.
  intros Hne Hlo. unfold unusable. simpl.
  rewrite bool_decide_eq_false_2 by congruence.
  destruct (String.eqb_spec a ""); [done|done].
Qed.

Lemma unusable_falsy o : truthyStr o = false -> unusable o = true.
Proof. intros Ho. unfold unusable. by rewrite Ho. Qed.

(** A usable direct address that needs no unwrapping is returned cut at
    its first colon. *)
Lemma getClientIp_direct req a :
  directAddress req = Some a ->
  a <> "" -> a <> "::1" -> startsWith "::ffff:" a = false ->
  getClientIp req = Normal (stripPort a).
Proof.
  intros Hd Hne Hlo Hpre. unfold getClientIp. rewrite Hd.
  rewrite bool_decide_eq_false_2 by congruence.
  rewrite Hpre, andb_false_r.
  rewrite (unusable_false a Hne Hlo). cbn iota.
  by rewrite (unusable_false a Hne Hlo).
Qed.

(** Without a usable direct address and without [x-forwarded-for], a
    string in [x-real-ip] is returned cut at its first colon. *)
Lemma getClientIp_real_ip req a :
  truthyStr (directAddress req) = false ->
  headers req !! "x-forwarded-for" = None ->
  headers req !! "x-real-ip" = Some (HString a) -> a <> "" ->
  getClientIp req = Normal (stripPort a).
Proof.
  intros Hd Hxff Hreal Hne. unfold getClientIp.
  destruct (directAddress req) as [d|] eqn:Hdir.
  - simpl in Hd. apply negb_false_iff, String.eqb_eq in Hd as ->.
    rewrite bool_decide_eq_false_2 by done. simpl.
    rewrite Hxff. simpl. rewrite Hreal. simpl.
    by destruct (String.eqb_spec a "").
  - rewrite bool_decide_eq_false_2 by done. simpl.
    rewrite Hxff. simpl. rewrite Hreal. simpl.
    by destruct (String.eqb_spec a "").
Qed.

(** C10. Whenever [getClientIp] returns, the string returned has no
    colon: the chosen address is cut at its first colon. So an IPv6
    address other than ["::1"] and the ["::ffff:"] forms comes back
    truncated, be it the direct address or the [x-real-ip] header:
    ["2001:db8::1"] gives ["2001"]. *)
Theorem getClientIp_no_colon :
  (forall req s, getClientIp req = Normal s -> includes ":" s = false) /\
  (forall req a,
      directAddress req = Some a ->
      a <> "" -> a <> "::1" -> startsWith "::ffff:" a = false ->
      includes ":" a = true ->
      exists rest,
        getClientIp req = Normal (stripPort a) /\
        a = stripPort a +:+ String ":" rest) /\
  (forall req a,
      truthyStr (directAddress req) = false ->
      headers req !! "x-forwarded-for" = None ->
      headers req !! "x-real-ip" = Some (HString a) ->
      includes ":" a = true ->
      exists rest,
        getClientIp req = Normal (stripPort a) /\
        a = stripPort a +:+ String ":" rest) /\
  getClientIp (Mock.request None [("x-real-ip", HString "2001:db8::1")])
  = Normal "2001".
Proof.
  split; [|split; [|split]].
  - intros req s. unfold getClientIp.
    repeat case_match; intros; simplify_eq;
      first [ apply stripPort_no_colon | reflexivity ].
  - intros req a Hd Hne Hlo Hpre Hcolon.
    destruct (stripPort_truncates a Hcolon) as [rest Hrest].
    exists rest. split; [by apply getClientIp_direct|done].
  - intros req a Hd Hxff Hreal Hcolon.
    destruct (stripPort_truncates a Hcolon) as [rest Hrest].
    exists rest. split; [|done].
    apply getClientIp_real_ip; [done..|]. by intros ->.
  - reflexivity.
Qed.

Lemma replace_prefix p s : replace p "" (p +:+ s) = s.
Proof.
  assert (Hsw : forall q t, startsWith q (q +:+ t) = true).
  { induction q as [|c q IH]; intros t; [done|].
    simpl. by rewrite Ascii.eqb_refl. }
  assert (Hsl : forall q t, slice (String.length q) (q +:+ t) = t).
  { induction q as [|c q IH]; intros t; [done|]. simpl. apply IH. }
  assert (Hun : forall q r t,
    replace q r t = if startsWith q t then r +:+ slice (String.length q) t
                    else match t with
                         | EmptyString => EmptyString
                         | String c t' => String c (replace q r t')
                         end) by (by intros q r []).
  rewrite Hun, Hsw. apply Hsl.
Qed.

(** C8. The normalisation of the client address: a direct address
    ["::1"] gives ["127.0.0.1"]; a direct address ["::ffff:"] followed
    by an address without colon gives that address, so
    ["::ffff:192.168.1.100"] gives ["192.168.1.100"]; without a direct
    address, the header [x-forwarded-for] with value
    ["203.0.113.195, 70.41.3.18"] gives its first entry
    ["203.0.113.195"]; and when neither a direct address nor any of the
    three headers gives one, the result is ["unknown"]. *)
Theorem getClientIp_normalization :
  (forall req, directAddress req = Some "::1" ->
               getClientIp req = Normal "127.0.0.1") /\
  (forall req v4,
      directAddress req = Some ("::ffff:" +:+ v4) ->
      v4 <> "" -> includes ":" v4 = false ->
      getClientIp req = Normal v4) /\
  getClientIp (Mock.request (Some "::ffff:192.168.1.100") [])
  = Normal "192.168.1.100" /\
  (forall req,
      truthyStr (directAddress req) = false ->
      headers req !! "x-forwarded-for"
      = Some (HString "203.0.113.195, 70.41.3.18") ->
      getClientIp req = Normal "203.0.113.195") /\
  (forall req,
      truthyStr (directAddress req) = false ->
      headers req !! "x-forwarded-for" = None ->
      truthyHeader (headers req !! "x-real-ip") = false ->
      truthyHeader (headers req !! "x-client-ip") = false ->
      getClientIp req = Normal "unknown").
Proof.
  split; [|split; [|split; [|split]]].
  - intros req Hd. unfold getClientIp. by rewrite Hd.
  - intros req v4 Hd Hne Hcolon. unfold getClientIp. rewrite Hd.
    rewrite bool_decide_eq_false_2 by (simpl; intros [=]).
    change (truthyStr (Some ("::ffff:" +:+ v4))) with true.
    change (startsWith "::ffff:" ("::ffff:" +:+ v4)) with (startsWith "" v4).
    replace (startsWith "" v4) with true by (by destruct v4).
    cbn [andb]. rewrite replace_prefix.
    assert (Hlo : v4 <> "::1") by (by intros ->).
    rewrite (unusable_false v4 Hne Hlo). cbn iota.
    rewrite (unusable_false v4 Hne Hlo). by rewrite stripPort_id.
  - reflexivity.
  - intros req Hd Hxff. unfold getClientIp.
    rewrite bool_decide_eq_false_2 by (intros E; by rewrite E in Hd).
    assert (Hip1 : match directAddress req with
                   | Some a => if truthyStr (directAddress req) && startsWith "::ffff:" a
                               then Some (replace "::ffff:" "" a)
                               else directAddress req
                   | None => directAddress req
                   end = directAddress req).
    { rewrite Hd. by destruct (directAddress req). }
    rewrite Hip1, (unusable_falsy _ Hd), Hxff. reflexivity.
  - intros req Hd Hxff Hreal Hclient. unfold getClientIp.
    rewrite bool_decide_eq_false_2 by (intros E; by rewrite E in Hd).
    assert (Hip1 : match directAddress req with
                   | Some a => if truthyStr (directAddress req) && startsWith "::ffff:" a
                               then Some (replace "::ffff:" "" a)
                               else directAddress req
                   | None => directAddress req
                   end = directAddress req).
    { rewrite Hd. by destruct (directAddress req). }
    rewrite Hip1, (unusable_falsy _ Hd), Hxff. cbn iota.
    rewrite (unusable_falsy _ Hd), Hreal, Hclient. reflexivity.
Qed.

(** X18. [getClientIp] returns whenever none of the three headers is an
    array: the only ways to a [TypeError] are an empty
    [x-forwarded-for] array and an array in [x-real-ip] or
    [x-client-ip]. *)
Lemma getClientIp_returns req :
  headers req !! "x-forwarded-for" <> Some (HArray []) ->
  (forall xs, headers req !! "x-real-ip" <> Some (HArray xs)) ->
  (forall xs, headers req !! "x-client-ip" <> Some (HArray xs)) ->
  exists s, getClientIp req = Normal s.
Proof.
  intros Hxff Hreal Hclient. unfold getClientIp.
  repeat case_match; simplify_eq; eauto.
  all: try (exfalso; eapply Hreal; eassumption).
  all: try (exfalso; eapply Hclient; eassumption).
  all: try match goal with
    | H : truthyHeader ?h = true, H' : ?h = None |- _ => by rewrite H' in H
    | H : unusable None = false |- _ => by unfold unusable in H
    | H : first ?xs = None |- _ => by destruct xs
    end.
Qed.

(** C7. [getClientIp] does raise: without a usable direct address and
    with [x-forwarded-for] given as an empty list, reading
    [forwarded[0].split] throws a [TypeError] instead of going on to
    the other headers and the sentinel ["unknown"]. *)
Theorem getClientIp_throws_on_empty_forwarded_list :
  getClientIp (Mock.request None [("x-forwarded-for", HArray [])])
  = Throw (TypeError "Cannot read properties of undefined (reading 'split')") /\
  (forall req,
      truthyStr (directAddress req) = false ->
      headers req !! "x-forwarded-for" = Some (HArray []) ->
      exists e, getClientIp req = Throw e).
Proof.
  split; [reflexivity|].
  intros req Hd Hxff. unfold getClientIp.
  rewrite bool_decide_eq_false_2 by (intros E; by rewrite E in Hd).
  assert (Hip1 : match directAddress req with
                 | Some a => if truthyStr (directAddress req) && startsWith "::ffff:" a
                             then Some (replace "::ffff:" "" a)
                             else directAddress req
                 | None => directAddress req
                 end = directAddress req).
  { rewrite Hd. by destruct (directAddress req). }
  rewrite Hip1, (unusable_falsy _ Hd), Hxff. simpl. eauto.
Qed.
End ClientIpFacts.

(** ** The fallback chains *)

Section FallbackFacts.
Context `{Platform}.
Import JS.

Lemma http_get_requests u t (rt rt1 : Runtime) res :
  http_get u t rt = (res, rt1) -> requests rt1 = requests rt ++ [u].
Proof.
  unfold http_get. destruct (axios_get u t (world rt)) as [res' w].
  by intros [= <- <-].
Qed.

(** Failed attempts contact their URLs in order, one after the other. *)
Lemma AllFail_requests {A} (yields : AxiosResult -> option A) t urls
    (rt rt' : Runtime) :
  Spec.AllFail yields t urls rt rt' -> requests rt' = requests rt ++ urls.
Proof.
  induction 1 as [rt|u urls rt res rt1 rt2 Hget _ _ IH].
  - by rewrite app_nil_r.
  - rewrite IH, (http_get_requests _ _ _ _ _ Hget). by rewrite <- app_assoc.
Qed.

(** *** The public address *)

Lemma ip_resolveFrom_success pre p post self rt rt1 res rt2 v :
  Spec.AllFail IpManager.attempt (timeout (api (IpManager.config self))) pre rt rt1 ->
  http_get p (timeout (api (IpManager.config self))) rt1 = (res, rt2) ->
  IpManager.attempt res = Some v ->
  IpManager.resolveFrom (pre ++ p :: post) self rt =
  (Normal v,
   IpManager.setCached self (Date_now (world rt2)) IpManager.cacheKey v None,
   rt2).
Proof.
  intros Hfail Hget Hv.
  induction Hfail as [rt|u urls rt res0 rt0 rt1 Hget0 Hnone _ IH]; simpl.
  - by rewrite Hget, Hv.
  - rewrite Hget0, Hnone. by apply IH.
Qed.

Lemma ip_resolveFrom_exhausted ps self rt rt' :
  Spec.AllFail IpManager.attempt (timeout (api (IpManager.config self))) ps rt rt' ->
  IpManager.resolveFrom ps self rt =
  (Throw (Err "All IP service providers failed"), self, rt').
Proof.
  induction 1 as [rt|u urls rt res0 rt0 rt1 Hget0 Hnone _ IH]; simpl; [done|].
  by rewrite Hget0, Hnone.
Qed.

Lemma ip_getPublicIp_miss self rt m1 :
  Cache.getCached (IpManager.config self) (Date_now (world rt))
    IpManager.cacheKey (IpManager.cache self) = (None, m1) ->
  IpManager.getPublicIp self rt =
  IpManager.resolveFrom IpManager.providers
    {| IpManager.config := IpManager.config self; IpManager.cache := m1 |} rt.
Proof.
  intros Hmiss. unfold IpManager.getPublicIp, IpManager.getCached.
  by rewrite Hmiss.
Qed.

(** *** The geolocation *)

Lemma loc_resolveFrom_success pre p post ip key self rt rt1 res rt2 v :
  Spec.AllFail LocationManager.attempt
    (timeout (api (LocationManager.config self)))
    (map (fun q => LocationManager.url q ip) pre) rt rt1 ->
  http_get (LocationManager.url p ip)
    (timeout (api (LocationManager.config self))) rt1 = (res, rt2) ->
  LocationManager.attempt res = Some v ->
  LocationManager.resolveFrom (pre ++ p :: post) ip key self rt =
  (Normal v, LocationManager.setCached self (Date_now (world rt2)) key v None, rt2).
Proof.
  intros Hfail Hget Hv. revert rt Hfail.
  induction pre as [|q pre IH]; intros rt Hfail; simpl.
  - inversion Hfail; subst. by rewrite Hget, Hv.
  - inversion Hfail as [|u urls rt' res0 rt0 rt1' Hget0 Hnone Hrest]; subst.
    rewrite Hget0, Hnone. by apply IH.
Qed.

Lemma loc_resolveFrom_exhausted ps ip key self rt rt' :
  Spec.AllFail LocationManager.attempt
    (timeout (api (LocationManager.config self)))
    (map (fun q => LocationManager.url q ip) ps) rt rt' ->
  LocationManager.resolveFrom ps ip key self rt =
  (Throw (Err "All geolocation providers failed"), self, rt').
Proof.
  revert rt. induction ps as [|q ps IH]; intros rt Hfail; simpl.
  - by inversion Hfail; subst.
  - inversion Hfail as [|u urls rt0 res0 rt1 rt2 Hget0 Hnone Hrest]; subst.
    rewrite Hget0, Hnone. by apply IH.
Qed.

Lemma loc_getLocation_miss ip self rt target rt0 m1 :
  LocationManager.targetIp ip self rt = (Normal target, rt0) ->
  LocationManager.isValidIp (ToString target) = true ->
  Cache.getCached (LocationManager.config self) (Date_now (world rt0))
    (LocationManager.cacheKey target) (LocationManager.cache self) = (None, m1) ->
  LocationManager.getLocation ip self rt =
  LocationManager.resolveFrom LocationManager.providers ip
    (LocationManager.cacheKey target)
    {| LocationManager.config := LocationManager.config self;
       LocationManager.cache := m1 |} rt0.
Proof.
  intros Htarget Hvalid Hmiss.
  unfold LocationManager.getLocation. rewrite Htarget.
  unfold LocationManager.locate, LocationManager.getCached.
  by rewrite Hvalid, Hmiss.
Qed.

(** What makes an attempt on a public-address provider fail: the
    request is rejected, the body gives no candidate, or the candidate
    is not a valid address. *)
Lemma ip_attempt_fails res :
  IpManager.attempt res = None <->
  (exists e, res = Rejected e) \/
  (exists body, res = Resolved body /\ IpManager.candidate body = None) \/
  (exists body ip, res = Resolved body /\ IpManager.candidate body = Some ip /\
                   IpManager.isValidIp ip = false).
Proof.
  destruct res as [body|e]; simpl.
  - destruct (IpManager.candidate body) as [ip|] eqn:Hc.
    + destruct (IpManager.isValidIp ip) eqn:Hv; split; try done.
      * intros [[? [=]]|[(? & [= <-] & ?)|(? & ? & [= <-] & ? & ?)]]; congruence.
      * intros _. right. right. by exists body, ip.
    + split; [|done]. intros _. right. left. by exists body.
  - split; [|done]. intros _. left. by exists e.
Qed.

(** The same for a geolocation provider: rejected, or a body that is
    not location data. *)
Lemma loc_attempt_fails res :
  LocationManager.attempt res = None <->
  (exists e, res = Rejected e) \/
  (exists body, res = Resolved body /\
                LocationManager.isValidLocationData body = false).
Proof.
  destruct res as [body|e]; simpl.
  - destruct (truthy body) eqn:Ht; simpl.
    + destruct (LocationManager.isValidLocationData body) eqn:Hv; split; try done.
      * intros [[? [=]]|(? & [= <-] & ?)]; congruence.
      * intros _. right. by exists body.
    + split; [|done]. intros _. right. exists body. split; [done|].
      unfold LocationManager.isValidLocationData. by rewrite Ht.
  - split; [|done]. intros _. left. by exists e.
Qed.
End FallbackFacts.

Section CacheMiss.
Context {T : Type}.

(** A lookup that finds nothing leaves the map as it was, but for an
    expired entry under the key, which it deletes. *)
Lemma getCached_miss config now k (m m1 : gmap string (CacheEntry T)) :
  Cache.getCached config now k m = (None, m1) ->
  (m1 = m \/
   m1 = delete k m /\
   exists e, m !! k = Some e /\ now - entry_timestamp e > entry_ttl e) /\
  (enabled (cache config) = true -> m1 !! k = None) /\
  (enabled (cache config) = false -> m1 = m).
Proof.
  unfold Cache.getCached. destruct (enabled (cache config)); simpl.
  - destruct (m !! k) as [e|] eqn:Hk.
    + destruct (Z.gtb_spec (now - entry_timestamp e) (entry_ttl e)); [|done].
      intros [= <-]. split; [|split; [|done]].
      * right. split; [done|]. exists e. split; [done|lia].
      * intros _. apply lookup_delete_eq.
    + intros [= <-]. split; [by left|]. by split.
  - intros [= <-]. split; [by left|]. by split.
Qed.
End CacheMiss.

Section FallbackClaims.
Context `{Platform}.
Import JS.

(** C1 (as amended). A resolution that finds no live cache entry
    contacts the providers in their configured order, one at a time,
    and stops at the first that yields a valid candidate: when the
    providers before [p] all fail and [p] succeeds with [v], exactly
    those providers and then [p] are contacted, none after [p], and [v]
    is returned. When caching is enabled [v] is stored under the cache
    key, stamped with the instant of the store and the configured time
    to live; when caching is disabled nothing is stored. This holds for
    the public address and for the geolocation; for the latter the
    requests are counted from the point where the address to locate is
    known and has passed the parameter check (when no address is given,
    finding it takes one request of its own, before the chain). *)
Theorem fallback_first_success :
  (forall (self : IpManager.t) (rt : Runtime) pre p post m1 rt1 res rt2 v,
      IpManager.providers = pre ++ p :: post ->
      Cache.getCached (IpManager.config self) (Date_now (world rt))
        IpManager.cacheKey (IpManager.cache self) = (None, m1) ->
      Spec.AllFail IpManager.attempt (timeout (api (IpManager.config self)))
        pre rt rt1 ->
      http_get p (timeout (api (IpManager.config self))) rt1 = (res, rt2) ->
      IpManager.attempt res = Some v ->
      exists self',
        IpManager.getPublicIp self rt = (Normal v, self', rt2) /\
        requests rt2 = requests rt ++ pre ++ [p] /\
        IpManager.cache self' =
          if enabled (cache (IpManager.config self))
          then <[ IpManager.cacheKey :=
                    {| entry_data := v;
                       entry_timestamp := Date_now (world rt2);
                       entry_ttl := ttl (cache (IpManager.config self)) |} ]> m1
          else IpManager.cache self) /\
  (forall (self : LocationManager.t) (rt : Runtime) ip target rt0
          pre p post m1 rt1 res rt2 v,
      LocationManager.providers = pre ++ p :: post ->
      LocationManager.targetIp ip self rt = (Normal target, rt0) ->
      LocationManager.isValidIp (ToString target) = true ->
      Cache.getCached (LocationManager.config self) (Date_now (world rt0))
        (LocationManager.cacheKey target) (LocationManager.cache self)
        = (None, m1) ->
      Spec.AllFail LocationManager.attempt
        (timeout (api (LocationManager.config self)))
        (map (fun q => LocationManager.url q ip) pre) rt0 rt1 ->
      http_get (LocationManager.url p ip)
        (timeout (api (LocationManager.config self))) rt1 = (res, rt2) ->
      LocationManager.attempt res = Some v ->
      exists self',
        LocationManager.getLocation ip self rt = (Normal v, self', rt2) /\
        requests rt2 =
          requests rt0 ++ map (fun q => LocationManager.url q ip) (pre ++ [p]) /\
        LocationManager.cache self' =
          if enabled (cache (LocationManager.config self))
          then <[ LocationManager.cacheKey target :=
                    {| entry_data := v;
                       entry_timestamp := Date_now (world rt2);
                       entry_ttl := ttl (cache (LocationManager.config self)) |} ]> m1
          else LocationManager.cache self).
Proof.
  split.
  - intros self rt pre p post m1 rt1 res rt2 v Hps Hmiss Hfail Hget Hv.
    eexists. split; [|split].
    + rewrite (ip_getPublicIp_miss _ _ _ Hmiss), Hps.
      by apply (ip_resolveFrom_success pre p post _ rt rt1 res rt2 v).
    + rewrite (http_get_requests _ _ _ _ _ Hget), (AllFail_requests _ _ _ _ _ Hfail).
      by rewrite app_assoc.
    + simpl. unfold Cache.setCached. simpl.
      apply getCached_miss in Hmiss as (_ & _ & Hoff).
      destruct (enabled (cache (IpManager.config self))); simpl; [done|].
      by apply Hoff.
  - intros self rt ip target rt0 pre p post m1 rt1 res rt2 v
      Hps Htarget Hvalid Hmiss Hfail Hget Hv.
    eexists. split; [|split].
    + rewrite (loc_getLocation_miss _ _ _ _ _ _ Htarget Hvalid Hmiss), Hps.
      by apply (loc_resolveFrom_success pre p post _ _ _ rt0 rt1 res rt2 v).
    + rewrite (http_get_requests _ _ _ _ _ Hget), (AllFail_requests _ _ _ _ _ Hfail).
      by rewrite map_app, app_assoc.
    + simpl. unfold Cache.setCached. simpl.
      apply getCached_miss in Hmiss as (_ & _ & Hoff).
      destruct (enabled (cache (LocationManager.config self))); simpl; [done|].
      by apply Hoff.
Qed.

(** C2 (as amended). When every provider's attempt fails, the
    resolution throws the error that names the resource kind, after
    contacting all the providers in order, and the provider loop stores
    nothing: the cache is left as the initial lookup left it, that is
    unchanged, but for an expired entry under the cache key, which that
    lookup deletes. With caching enabled the cache holds no entry under
    the key afterwards. *)
Theorem fallback_exhausted :
  (forall (self : IpManager.t) (rt : Runtime) m1 rt',
      Cache.getCached (IpManager.config self) (Date_now (world rt))
        IpManager.cacheKey (IpManager.cache self) = (None, m1) ->
      Spec.AllFail IpManager.attempt (timeout (api (IpManager.config self)))
        IpManager.providers rt rt' ->
      IpManager.getPublicIp self rt =
        (Throw (Err "All IP service providers failed"),
         {| IpManager.config := IpManager.config self; IpManager.cache := m1 |},
         rt') /\
      requests rt' = requests rt ++ IpManager.providers /\
      (m1 = IpManager.cache self \/
       m1 = delete IpManager.cacheKey (IpManager.cache self) /\
       exists e, IpManager.cache self !! IpManager.cacheKey = Some e /\
                 Date_now (world rt) - entry_timestamp e > entry_ttl e) /\
      (enabled (cache (IpManager.config self)) = true ->
       m1 !! IpManager.cacheKey = None)) /\
  (forall (self : LocationManager.t) (rt : Runtime) ip target rt0 m1 rt',
      LocationManager.targetIp ip self rt = (Normal target, rt0) ->
      LocationManager.isValidIp (ToString target) = true ->
      Cache.getCached (LocationManager.config self) (Date_now (world rt0))
        (LocationManager.cacheKey target) (LocationManager.cache self)
        = (None, m1) ->
      Spec.AllFail LocationManager.attempt
        (timeout (api (LocationManager.config self)))
        (map (fun q => LocationManager.url q ip) LocationManager.providers)
        rt0 rt' ->
      LocationManager.getLocation ip self rt =
        (Throw (Err "All geolocation providers failed"),
         {| LocationManager.config := LocationManager.config self;
            LocationManager.cache := m1 |},
         rt') /\
      requests rt' =
        requests rt0 ++ map (fun q => LocationManager.url q ip) LocationManager.providers /\
      (m1 = LocationManager.cache self \/
       m1 = delete (LocationManager.cacheKey target) (LocationManager.cache self) /\
       exists e,
         LocationManager.cache self !! LocationManager.cacheKey target = Some e /\
         Date_now (world rt0) - entry_timestamp e > entry_ttl e) /\
      (enabled (cache (LocationManager.config self)) = true ->
       m1 !! LocationManager.cacheKey target = None)).
Proof.
  split.
  - intros self rt m1 rt' Hmiss Hfail.
    pose proof (getCached_miss _ _ _ _ _ Hmiss) as (Hmap & Hon & _).
    split; [|split; [|split]]; [|by apply AllFail_requests in Hfail|done..].
    rewrite (ip_getPublicIp_miss _ _ _ Hmiss).
    by apply ip_resolveFrom_exhausted.
  - intros self rt ip target rt0 m1 rt' Htarget Hvalid Hmiss Hfail.
    pose proof (getCached_miss _ _ _ _ _ Hmiss) as (Hmap & Hon & _).
    split; [|split; [|split]]; [|by apply AllFail_requests in Hfail|done..].
    rewrite (loc_getLocation_miss _ _ _ _ _ _ Htarget Hvalid Hmiss).
    by apply loc_resolveFrom_exhausted.
Qed.
End FallbackClaims.

(** ** Aggregation *)

Section AggregationClaims.
Import JS NetworkService.

(** C9 (as amended). With one kind failing and the other succeeding,
    neither aggregation raises. The health check answers with a success
    response that records [false] for the failing service and [true]
    for the other one, and no failure reason. The full network
    information answers with a failure response: [success] is false,
    there is no data at all, and [error] is the message of the failing
    kind's error. *)
Theorem aggregation_one_kind_failing :
  (forall `{Platform} (rt rt1 rt2 : Runtime) now e body,
      http_get "https://api.ipify.org" 5000 rt = (Rejected e, rt1) ->
      http_get "https://ipapi.co/json/" 5000 rt1 = (Resolved body, rt2) ->
      healthCheck rt now =
        (Normal {| success := true;
                   data := Some {| ipServices := false;
                                   geolocationServices := true;
                                   networkInfo := true |};
                   error := None;
                   timestamp := now |}, rt2)) /\
  (forall (I : Type) (pIp : Settled string) (pLoc : Settled Value)
          (ifaces : I) addresses now e loc,
      outcome pIp = Throw e -> outcome pLoc = Normal loc ->
      getFullNetworkInfo pIp pLoc ifaces addresses now =
        Normal {| success := false; data := None;
                  error := Some (message e); timestamp := now |}) /\
  (forall (I : Type) (pIp : Settled string) (pLoc : Settled Value)
          (ifaces : I) addresses now ip e,
      outcome pIp = Normal ip -> outcome pLoc = Throw e ->
      getFullNetworkInfo pIp pLoc ifaces addresses now =
        Normal {| success := false; data := None;
                  error := Some (message e); timestamp := now |}).
Proof.
  split; [|split].
  - intros P rt rt1 rt2 now e body Hip Hgeo.
    unfold healthCheck, IpManager.healthCheck, LocationManager.healthCheck.
    by rewrite Hip, Hgeo.
  - intros I pIp pLoc ifaces addresses now e loc Hip Hloc.
    unfold getFullNetworkInfo, promiseAll. by rewrite Hip, Hloc.
  - intros I pIp pLoc ifaces addresses now ip e Hip Hloc.
    unfold getFullNetworkInfo, promiseAll. by rewrite Hip, Hloc.
Qed.

(** The statement that fails: with the public address failing and the
    geolocation succeeding, the full network information does not
    raise, and the health check keeps no failure reason. *)
Lemma aggregation_neither_raises_nor_keeps_reason :
  (~ exists e,
      getFullNetworkInfo
        {| settledAt := 0;
           outcome := Throw (Err "All IP service providers failed") |}
        {| settledAt := 1; outcome := Normal Mock.locationData |}
        tt [] "2026-01-01T00:00:00.000Z" = Throw e) /\
  (healthCheck (Mock.start [Mock.failure; Mock.okLocation] 1000)
     "2026-01-01T00:00:00.000Z").1 =
  Normal {| success := true;
            data := Some {| ipServices := false;
                            geolocationServices := true;
                            networkInfo := true |};
            error := None;
            timestamp := "2026-01-01T00:00:00.000Z" |}.
Proof.
  split; [|reflexivity]. by intros [e [=]].
Qed.
End AggregationClaims.

(** ** The fallback chains on the mocked platform *)

Section FallbackExamples.
Import JS.

(** The statement that fails for C1: with caching disabled there is no
    live entry, the first provider fails and the second yields a valid
    address, which is returned after exactly these two requests; but
    nothing is stored under the cache key. *)
Lemma getPublicIp_stores_nothing_when_cache_disabled :
  let self := Mock.ipManager false ∅ in
  let rt := Mock.start [Mock.failure; Mock.okIp] 1000 in
  Cache.getCached (IpManager.config self) (Date_now (world rt))
    IpManager.cacheKey (IpManager.cache self) = (None, ∅) /\
  IpManager.attempt Mock.failure.1 = None /\
  IpManager.attempt Mock.okIp.1 = Some "192.168.1.2" /\
  exists self',
    IpManager.getPublicIp self rt =
      (Normal "192.168.1.2", self',
       Mock.after [] 1012 [ "https://api.ipify.org?format=json";
                            "https://api64.ipify.org?format=json" ]) /\
    IpManager.cache self' !! IpManager.cacheKey = None.
Proof.
  repeat split. eexists. split; [reflexivity|]. reflexivity.
Qed.

(** The statement that fails for C2: an entry that has expired is in
    the cache, every provider fails, the error is thrown, and the cache
    is not what it was: the expired entry is gone. *)
Lemma getPublicIp_exhausted_drops_expired_entry :
  let self := Mock.ipManager true {[ IpManager.cacheKey := Mock.oldEntry ]} in
  let rt := Mock.start [] 1000000 in
  exists self' rt',
    IpManager.getPublicIp self rt =
      (Throw (Err "All IP service providers failed"), self', rt') /\
    requests rt' = IpManager.providers /\
    IpManager.cache self !! IpManager.cacheKey = Some Mock.oldEntry /\
    IpManager.cache self' !! IpManager.cacheKey = None /\
    IpManager.cache self' <> IpManager.cache self.
Proof.
  do 2 eexists. split; [reflexivity|].
  split; [reflexivity|]. split; [reflexivity|]. split; [reflexivity|].
  intros Heq. apply (f_equal (fun m => m !! IpManager.cacheKey)) in Heq.
  vm_compute in Heq. discriminate.
Qed.
End FallbackExamples.

(** ** Regular expressions: the matcher decides the language *)

Section RegExpFacts.
Import JS RegExp Spec.

Lemma app_cons' c s t : String c s +:+ t = String c (s +:+ t).
Proof. reflexivity. Qed.

Lemma app_nil_l' t : "" +:+ t = t.
Proof. reflexivity. Qed.

Lemma app_nil_r' s : s +:+ "" = s.
Proof. induction s as [|c s IH]; [done|]. by rewrite app_cons', IH. Qed.

Lemma app_assoc' s1 s2 s3 : (s1 +:+ s2) +:+ s3 = s1 +:+ (s2 +:+ s3).
Proof. induction s1 as [|c s1 IH]; [done|]. by rewrite !app_cons', IH. Qed.

Lemma app_eq_nil s1 s2 : s1 +:+ s2 = "" -> s1 = "" /\ s2 = "".
Proof. by destruct s1. Qed.

Lemma length_app' s1 s2 :
  String.length (s1 +:+ s2) = (String.length s1 + String.length s2)%nat.
Proof.
  induction s1 as [|c s1 IH]; [done|]. rewrite app_cons'. simpl. by rewrite IH.
Qed.

Lemma allChars_app p s1 s2 :
  allChars p (s1 +:+ s2) = allChars p s1 && allChars p s2.
Proof.
  induction s1 as [|c s1 IH]; [done|].
  rewrite app_cons'. simpl. by rewrite IH, andb_assoc.
Qed.

Lemma take_slice n s : take n s +:+ slice n s = s.
Proof.
  revert s. induction n as [|n IH]; intros [|c s]; simpl; [done..|].
  by rewrite app_cons', IH.
Qed.

Lemma length_take n s :
  (n <= String.length s)%nat -> String.length (take n s) = n.
Proof.
  revert s. induction n as [|n IH]; intros [|c s]; simpl; intros Hn;
    [done|done|lia|]. rewrite IH; [done|lia].
Qed.

Lemma length_slice n s :
  String.length (slice n s) = (String.length s - n)%nat.
Proof.
  revert s. induction n as [|n IH]; intros [|c s]; simpl; by rewrite ?IH.
Qed.

Lemma nullable_lang r : nullable r = true <-> lang r "".
Proof.
  induction r as [| |p|a IHa b IHb|a IHa b IHb|a IHa]; simpl.
  - done.
  - done.
  - split; [done|]. by intros (c & [=] & _).
  - rewrite andb_true_iff, IHa, IHb. split.
    + intros [Ha Hb]. by exists "", "".
    + intros (s1 & s2 & Hs & Ha & Hb).
      symmetry in Hs. apply app_eq_nil in Hs as [-> ->]. done.
  - by rewrite orb_true_iff, IHa, IHb.
  - split; [|done]. intros _. by exists [].
Qed.

Lemma lang_star_cons a c s :
  lang (Star a) (String c s) ->
  exists s1 s2, s = s1 +:+ s2 /\ lang a (String c s1) /\ lang (Star a) s2.
Proof.
  intros (ss & Hs & Hall). revert Hs.
  induction Hall as [|x ss Hx Hall IH]; simpl; [done|].
  destruct x as [|c' x]; [by rewrite app_nil_l'|].
  rewrite app_cons'. intros [= <- ->]. exists x, (flatten ss).
  repeat split; [done|]. by exists ss.
Qed.

Lemma deriv_lang r : forall c s, lang (deriv c r) s <-> lang r (String c s).
Proof.
  induction r as [| |p|a IHa b IHb|a IHa b IHb|a IHa]; intros c s; simpl.
  - done.
  - done.
  - destruct (p c) eqn:Hp; simpl.
    + split.
      * intros ->. by exists c.
      * by intros (c' & [= <- ->] & _).
    + split; [done|]. intros (c' & [= <- ->] & Hp'). congruence.
  - assert (Hcat : (exists s1 s2, s = s1 +:+ s2 /\ lang (deriv c a) s1 /\ lang b s2)
                   \/ (lang a "" /\ lang (deriv c b) s)
                   <-> exists t1 t2, String c s = t1 +:+ t2 /\ lang a t1 /\ lang b t2).
    { split.
      - intros [(s1 & s2 & -> & Ha & Hb)|[Ha Hb]].
        + exists (String c s1), s2. by rewrite <- IHa.
        + exists "", (String c s). by rewrite <- IHb.
      - intros (t1 & t2 & Hs & Ha & Hb). destruct t1 as [|c' t1].
        + rewrite app_nil_l' in Hs. subst t2. right. by rewrite IHb.
        + rewrite app_cons' in Hs. injection Hs as <- ->. left.
          exists t1, t2. by rewrite IHa. }
    rewrite <- Hcat. destruct (nullable a) eqn:Hn; simpl.
    + apply nullable_lang in Hn. split.
      * intros [?|?]; [by left|by right].
      * intros [?|[_ ?]]; [by left|by right].
    + split; [by left|]. intros [?|[Ha _]]; [done|].
      apply nullable_lang in Ha. congruence.
  - by rewrite IHa, IHb.
  - split.
    + intros (s1 & s2 & -> & Ha & (ss & -> & Hall)).
      exists (String c s1 :: ss). split; [done|].
      constructor; [by apply IHa|done].
    + intros (s1 & s2 & -> & Ha & Hstar)%lang_star_cons.
      exists s1, s2. by rewrite IHa.
Qed.

(** The matcher is correct and complete for the language. *)
Lemma matches_lang r s : matches r s = true <-> lang r s.
Proof.
  revert r. induction s as [|c s IH]; intros r; simpl.
  - apply nullable_lang.
  - by rewrite IH, deriv_lang.
Qed.

Lemma lang_chr c s : lang (Chr c) s <-> s = String c "".
Proof.
  simpl. split.
  - by intros (c' & -> & ->%Ascii.eqb_eq).
  - intros ->. exists c. by rewrite Ascii.eqb_refl.
Qed.

Lemma lang_times p n s :
  lang (Times n (Class p)) s <-> String.length s = n /\ allChars p s = true.
Proof.
  revert s. induction n as [|n IH]; intros s; simpl.
  - split; [by intros ->|]. destruct s; [done|]. by intros [[=] _].
  - split.
    + intros (s1 & s2 & -> & (c & -> & Hc) & [<- Hall]%IH).
      rewrite app_cons', app_nil_l'. simpl. by rewrite Hc, Hall.
    + destruct s as [|c s]; simpl; intros [[=] [Hc Hall]%andb_true_iff].
      exists (String c ""), s. repeat split; [by exists c|].
      by apply IH.
Qed.

Lemma lang_upto p n s :
  lang (UpTo n (Class p)) s <->
  (String.length s <= n)%nat /\ allChars p s = true.
Proof.
  revert s. induction n as [|n IH]; intros s; simpl.
  - split; [by intros ->|]. intros [Hl _]. destruct s; simpl in *; [done|lia].
  - split.
    + intros [->|(s1 & s2 & -> & (c & -> & Hc) & [Hl Hall]%IH)].
      * simpl. split; [lia|done].
      * rewrite app_cons', app_nil_l'. simpl. rewrite Hc, Hall.
        split; [lia|done].
    + destruct s as [|c s]; simpl; [by left|].
      intros [Hl [Hc Hall]%andb_true_iff]. right.
      exists (String c ""), s. repeat split; [by exists c|].
      apply IH. split; [lia|done].
Qed.

Lemma lang_range p lo hi s :
  (lo <= hi)%nat ->
  lang (Range lo hi (Class p)) s <->
  (lo <= String.length s <= hi)%nat /\ allChars p s = true.
Proof.
  intros Hle. unfold Range. simpl. split.
  - intros (s1 & s2 & -> & [Hl1 Ha1]%lang_times & [Hl2 Ha2]%lang_upto).
    rewrite length_app', allChars_app, Ha1, Ha2. split; [lia|done].
  - intros [Hl Hall]. exists (take lo s), (slice lo s).
    rewrite <- (take_slice lo s), allChars_app in Hall.
    apply andb_true_iff in Hall as [Ha1 Ha2].
    split; [by rewrite take_slice|]. split.
    + apply lang_times. split; [apply length_take; lia|done].
    + apply lang_upto. split; [rewrite length_slice; lia|done].
Qed.

Lemma lang_star_class p s :
  lang (Star (Class p)) s <-> allChars p s = true.
Proof.
  split.
  - intros (ss & -> & Hall). induction Hall as [|x ss (c & -> & Hc) _ IH]; [done|].
    change (flatten (String c "" :: ss)) with (String c (flatten ss)).
    cbn [allChars]. by rewrite Hc, IH.
  - induction s as [|c s IH]; simpl.
    + intros _. by exists [].
    + intros [Hc (ss & -> & Hall)%IH]%andb_true_iff.
      exists (String c "" :: ss). split; [done|].
      constructor; [by exists c|done].
Qed.

Lemma lang_plus_class p s :
  lang (Plus (Class p)) s <-> s <> "" /\ allChars p s = true.
Proof.
  unfold Plus. split.
  - intros (s1 & s2 & -> & (c & -> & Hc) & Hstar%lang_star_class).
    rewrite app_cons', app_nil_l'. simpl. by rewrite Hc, Hstar.
  - destruct s as [|c s]; [by intros [? _]|].
    simpl. intros [_ [Hc Hall]%andb_true_iff].
    exists (String c ""), s. repeat split; [by exists c|].
    by apply lang_star_class.
Qed.

(** [/^[p]{lo,hi}$/.test(s)] *)
Lemma test_range p lo hi s :
  (lo <= hi)%nat ->
  test (Range lo hi (Class p)) s =
  (lo <=? String.length s)%nat && (String.length s <=? hi)%nat && allChars p s.
Proof.
  intros Hle. apply eq_true_iff_eq. unfold test.
  rewrite matches_lang, (lang_range _ _ _ _ Hle), !andb_true_iff.
  rewrite !Nat.leb_le. tauto.
Qed.

(** [/^[p]+$/.test(s)] *)
Lemma test_plus p s :
  test (Plus (Class p)) s = negb (String.eqb s "") && allChars p s.
Proof.
  apply eq_true_iff_eq. unfold test.
  rewrite matches_lang, lang_plus_class, andb_true_iff, negb_true_iff.
  destruct (String.eqb_spec s ""); split; intros [? ?]; done.
Qed.
End RegExpFacts.

(** ** Splitting and counting *)

Section SplitFacts.
Import JS Spec.

Lemma allChars_no_sep p sep s :
  allChars p s = true -> p sep = false -> includes (String sep "") s = false.
Proof.
  intros Hall Hsep. induction s as [|c s IH]; [done|].
  simpl in Hall. apply andb_true_iff in Hall as [Hc Hall].
  rewrite includes_char_cons, (IH Hall), orb_false_r.
  destruct (Ascii.eqb_spec sep c) as [->|]; [congruence|done].
Qed.

Lemma split_cons_sep sep s : split sep (String sep s) = "" :: split sep s.
Proof. simpl. by rewrite Ascii.eqb_refl. Qed.

Lemma split_app_sep sep a rest :
  includes (String sep "") a = false ->
  split sep (a +:+ String sep rest) = a :: split sep rest.
Proof.
  induction a as [|c a IH].
  - intros _. rewrite app_nil_l'. apply split_cons_sep.
  - rewrite includes_char_cons. intros [Hc Ha]%orb_false_elim.
    rewrite app_cons'. simpl. rewrite Ascii.eqb_sym, Hc, (IH Ha). done.
Qed.

Lemma join_cons_char sep c p ps :
  join sep (String c p :: ps) = String c (join sep (p :: ps)).
Proof. by destruct ps. Qed.

Lemma join_split sep s : join sep (split sep s) = s.
Proof.
  induction s as [|c s IH]; [done|].
  destruct (split_head sep s) as (p & ps & Hs & _).
  simpl. rewrite Hs in *.
  destruct (Ascii.eqb_spec c sep) as [->|Hne].
  - change (join sep ("" :: p :: ps)) with (String sep (join sep (p :: ps))).
    by rewrite IH.
  - by rewrite join_cons_char, IH.
Qed.

Lemma matchCount_char_cons sep c s :
  matchCount (String sep "") (String c s) =
  ((if Ascii.eqb sep c then 1 else 0) + matchCount (String sep "") s)%nat.
Proof.
  unfold matchCount. cbn [matchCountFrom]. rewrite startsWith_char.
  by destruct (Ascii.eqb sep c).
Qed.

(** The number of parts is the number of separators plus one. *)
Lemma length_split sep s :
  length (split sep s) = Datatypes.S (matchCount (String sep "") s).
Proof.
  induction s as [|c s IH]; [done|].
  rewrite matchCount_char_cons. simpl. rewrite (Ascii.eqb_sym sep c).
  destruct (Ascii.eqb c sep); simpl; [by rewrite IH|].
  destruct (split sep s); simpl in *; lia.
Qed.

Lemma includes_matchCount sep s :
  includes (String sep "") s = (0 <? matchCount (String sep "") s)%nat.
Proof.
  induction s as [|c s IH]; [done|].
  rewrite includes_char_cons, matchCount_char_cons, IH.
  destruct (Ascii.eqb sep c); simpl; [done|].
  by destruct (matchCount (String sep "") s).
Qed.

(** No separator, no match of a literal that begins with it. *)
Lemma matchCountFrom_no_sep sep lit s : forall k,
  includes (String sep "") s = false ->
  matchCountFrom (String sep lit) k s = O.
Proof.
  induction s as [|c s IH]; intros k; [done|].
  rewrite includes_char_cons. intros [Hc Hs]%orb_false_elim.
  cbn [matchCountFrom]. destruct k as [|k]; [|by apply IH].
  cbn [startsWith]. rewrite Hc. by apply IH.
Qed.

Lemma split_allChars p sep s :
  allChars p s = true -> Forall (fun g => allChars p g = true) (split sep s).
Proof.
  induction s as [|c s IH]; simpl.
  - intros _. by constructor.
  - intros [Hc Hs]%andb_true_iff. specialize (IH Hs).
    destruct (Ascii.eqb c sep); [by constructor|].
    destruct (split sep s) as [|g gs].
    + constructor; [simpl; by rewrite Hc|done].
    + inversion IH; subst. constructor; [simpl; by rewrite Hc|done].
Qed.

Lemma split_parts_no_sep sep s :
  Forall (fun g => includes (String sep "") g = false) (split sep s).
Proof.
  induction s as [|c s IH]; simpl.
  - by constructor.
  - destruct (Ascii.eqb c sep) eqn:Hc; [by constructor|].
    destruct (split sep s) as [|g gs].
    + constructor; [|done].
      by rewrite includes_char_cons, Ascii.eqb_sym, Hc.
    + inversion IH; subst. constructor; [|done].
      rewrite includes_char_cons, Ascii.eqb_sym, Hc. done.
Qed.

Lemma allChars_weaken (p q : ascii -> bool) s :
  (forall c, p c = true -> q c = true) ->
  allChars p s = true -> allChars q s = true.
Proof.
  intros Hpq. induction s as [|c s IH]; simpl; [done|].
  intros [Hc Hs]%andb_true_iff. by rewrite (Hpq _ Hc), IH.
Qed.

(** A string made of [p]-characters and separators, without separator,
    is made of [p]-characters. *)
Lemma allChars_drop_sep p sep g :
  allChars (fun c => p c || Ascii.eqb c sep) g = true ->
  includes (String sep "") g = false ->
  allChars p g = true.
Proof.
  induction g as [|c g IH]; [done|]. cbn [allChars].
  intros [Hc Hg]%andb_true_iff. rewrite includes_char_cons.
  intros [Hne Hno]%orb_false_elim. rewrite (IH Hg Hno), andb_true_r.
  rewrite Ascii.eqb_sym, Hne, orb_false_r in Hc. done.
Qed.
End SplitFacts.

(** ** The validation of address literals *)

Section ValidationFacts.
Import JS RegExp Spec.

Lemma lang_digitGroup g : lang (Range 1 3 Digit) g <-> digitGroup g = true.
Proof.
  unfold Digit, digitGroup. rewrite lang_range by lia.
  rewrite !andb_true_iff, !Nat.leb_le. tauto.
Qed.

Lemma lang_group_dot r s :
  lang (Cat (Range 1 3 Digit) (Cat (Chr ".") r)) s <->
  exists a rest, s = a +:+ String "." rest /\ digitGroup a = true /\ lang r rest.
Proof.
  split.
  - intros (a & s2 & -> & Ha%lang_digitGroup & (s3 & rest & -> & ->%lang_chr & Hr)).
    by exists a, rest.
  - intros (a & rest & -> & Ha%lang_digitGroup & Hr).
    exists a, (String "." rest). repeat split; [done|].
    exists ".", rest. repeat split; [|done]. by apply lang_chr.
Qed.

(** What the IPv4 pattern of [IpManager] matches. *)
Lemma test_ipv4Regex s :
  test IpManager.ipv4Regex s = true <->
  exists a b c d,
    s = a +:+ String "." (b +:+ String "." (c +:+ String "." d)) /\
    digitGroup a = true /\ digitGroup b = true /\
    digitGroup c = true /\ digitGroup d = true.
Proof.
  unfold test, IpManager.ipv4Regex. rewrite matches_lang. split.
  - intros (a & r1 & -> & Ha & H1)%lang_group_dot.
    apply lang_group_dot in H1 as (b & r2 & -> & Hb & H2).
    apply lang_group_dot in H2 as (c & d & -> & Hc & Hd%lang_digitGroup).
    by exists a, b, c, d.
  - intros (a & b & c & d & -> & Ha & Hb & Hc & Hd).
    apply lang_group_dot. exists a. eexists. repeat split; [done|].
    apply lang_group_dot. exists b. eexists. repeat split; [done|].
    apply lang_group_dot. exists c, d. repeat split; [done|].
    by apply lang_digitGroup.
Qed.

Lemma digitGroup_no_dot g : digitGroup g = true -> includes "." g = false.
Proof.
  unfold digitGroup. intros [_ Hall]%andb_true_iff.
  by apply (allChars_no_sep isDigit).
Qed.

Lemma split_ipv4 a b c d :
  digitGroup a = true -> digitGroup b = true ->
  digitGroup c = true -> digitGroup d = true ->
  split "." (a +:+ String "." (b +:+ String "." (c +:+ String "." d)))
  = [a; b; c; d].
Proof.
  intros Ha%digitGroup_no_dot Hb%digitGroup_no_dot
         Hc%digitGroup_no_dot Hd%digitGroup_no_dot.
  rewrite !split_app_sep by done. by rewrite split_no_sep.
Qed.

Lemma toString_length n :
  0 <= n <= 255 -> (String.length (toString n) <= 3)%nat.
Proof.
  intros Hn.
  assert (Hall : forallb (fun k => (String.length (toString (Z.of_nat k)) <=? 3)%nat)
                         (seq 0 256) = true) by (vm_compute; reflexivity).
  rewrite forallb_forall in Hall.
  specialize (Hall (Z.to_nat n)). rewrite Z2Nat.id in Hall by lia.
  apply Nat.leb_le, Hall, in_seq. lia.
Qed.

Lemma octet_octetOk g :
  digitGroup g = true -> octet g = IpManager.octetOk g.
Proof.
  unfold digitGroup, octet, IpManager.octetOk.
  intros [[Hlen _]%andb_true_iff ->]%andb_true_iff.
  by destruct g.
Qed.

Lemma octet_digitGroup g : octet g = true -> digitGroup g = true.
Proof.
  unfold octet, digitGroup.
  intros [[Hne Hall]%andb_true_iff Hnum]%andb_true_iff.
  rewrite Hall, andb_true_r.
  destruct (parseInt g) as [n|]; [|done].
  apply andb_true_iff in Hnum as [[Hlo Hhi]%andb_true_iff Heq%String.eqb_eq].
  apply Z.leb_le in Hlo, Hhi. pose proof (toString_length n ltac:(lia)) as Hlen.
  rewrite <- Heq in Hlen. apply andb_true_iff. split.
  - destruct g; [done|]. apply Nat.leb_le. simpl. lia.
  - by apply Nat.leb_le.
Qed.

(** On a string that matches the IPv4 pattern, the validation is the
    check of the four octets. *)
Lemma fallback_ipv4_branch s :
  test IpManager.ipv4Regex s = true ->
  IpManager.fallbackIpValidation s = ipv4Literal s.
Proof.
  intros Hre. unfold IpManager.fallbackIpValidation, ipv4Literal. rewrite Hre.
  apply test_ipv4Regex in Hre as (a & b & c & d & -> & Ha & Hb & Hc & Hd).
  rewrite split_ipv4 by done. simpl.
  by rewrite !octet_octetOk by done.
Qed.

Lemma ipv4Literal_regex s :
  ipv4Literal s = true -> test IpManager.ipv4Regex s = true.
Proof.
  unfold ipv4Literal. intros [Hlen%Nat.eqb_eq Hall]%andb_true_iff.
  apply test_ipv4Regex. rewrite <- (join_split "." s).
  destruct (split "." s) as [|a [|b [|c [|d [|? ?]]]]]; try done.
  simpl in Hall.
  repeat (apply andb_true_iff in Hall as [?%octet_digitGroup Hall]).
  by exists a, b, c, d.
Qed.

Lemma ipv4Regex_not_basic s :
  test IpManager.ipv4Regex s = true -> ipv6Basic s = false.
Proof.
  intros (a & b & c & d & -> & _)%test_ipv4Regex. unfold ipv6Basic.
  rewrite allChars_app. cbn [allChars].
  change (isHexDigit "." || Ascii.eqb "." ":") with false.
  by rewrite andb_false_r.
Qed.

Lemma partOk_length g :
  allChars isHexDigit g = true ->
  IpManager.partOk g = (String.length g <=? 4)%nat.
Proof.
  intros Hall. unfold IpManager.partOk, IpManager.partRegex, Hex.
  rewrite test_range by lia. rewrite Hall, andb_true_r.
  by destruct g.
Qed.

(** On any other string, the validation is the basic IPv6 check. *)
Lemma fallback_ipv6_branch s :
  test IpManager.ipv4Regex s = false ->
  IpManager.fallbackIpValidation s = ipv6Basic s.
Proof.
  intros Hre. unfold IpManager.fallbackIpValidation, ipv6Basic. rewrite Hre.
  unfold IpManager.ipv6Regex. rewrite test_plus, includes_matchCount, length_split.
  set (q := fun c => isHexDigit c || Ascii.eqb c ":").
  destruct (allChars q s) eqn:Hall; [|by rewrite andb_false_r].
  assert (Hparts : forallb IpManager.partOk (split ":" s) =
                   forallb (fun g => (String.length g <=? 4)%nat) (split ":" s)).
  { pose proof (split_allChars q ":" s Hall) as Hq.
    pose proof (split_parts_no_sep ":" s) as Hno.
    induction Hq as [|g gs Hg _ IH]; [done|].
    inversion Hno; subst. simpl.
    rewrite partOk_length, IH; [done..|].
    by apply (allChars_drop_sep _ ":"). }
  rewrite Hparts.
  set (cc := matchCount ":" s). set (mc := matchCount "::" s).
  assert (Hempty : s = "" -> cc = O) by (by intros ->).
  destruct (String.eqb_spec s "") as [Hs|Hs];
    [rewrite (Hempty Hs); reflexivity|].
  destruct (Nat.ltb_spec 0 cc), (Nat.ltb_spec cc 2), (Nat.ltb_spec 7 cc),
    (Nat.ltb_spec 1 mc), (Nat.leb_spec 3 (Datatypes.S cc)),
    (Nat.leb_spec (Datatypes.S cc) 8), (Nat.leb_spec mc 1);
    simpl; try lia; reflexivity.
Qed.

(** The manual validation accepts exactly the IPv4 literals and the
    strings that pass the basic IPv6 check. *)
Lemma fallbackIpValidation_spec s :
  IpManager.fallbackIpValidation s = ipv4Literal s || ipv6Basic s.
Proof.
  destruct (test IpManager.ipv4Regex s) eqn:Hre.
  - rewrite (fallback_ipv4_branch _ Hre), (ipv4Regex_not_basic _ Hre).
    by rewrite orb_false_r.
  - rewrite (fallback_ipv6_branch _ Hre).
    destruct (ipv4Literal s) eqn:Hv4; [|done].
    apply ipv4Literal_regex in Hv4. congruence.
Qed.
End ValidationFacts.

Section ValidationClaims.
Import JS RegExp Spec.

Lemma ipv4Regex_no_colon s :
  test IpManager.ipv4Regex s = true -> includes ":" s = false.
Proof.
  intros (a & b & c & d & -> & Ha & Hb & Hc & Hd)%test_ipv4Regex.
  apply (allChars_no_sep (fun ch => isDigit ch || Ascii.eqb ch ".")); [|done].
  assert (Hg : forall g, digitGroup g = true ->
                 allChars (fun ch => isDigit ch || Ascii.eqb ch ".") g = true).
  { intros g [_ Hall]%andb_true_iff.
    apply (allChars_weaken isDigit); [|done]. by intros ch ->. }
  rewrite !allChars_app. cbn [allChars]. rewrite !allChars_app. cbn [allChars].
  rewrite !allChars_app. cbn [allChars].
  by rewrite (Hg a), (Hg b), (Hg c), (Hg d).
Qed.

Lemma ipv4Literal_no_colon s : ipv4Literal s = true -> includes ":" s = false.
Proof. intros H%ipv4Literal_regex. by apply ipv4Regex_no_colon. Qed.

(** What the manual validation does check. It accepts a string that
    has a colon exactly when it passes a basic check: only hexadecimal
    digits and colons, two to seven colons (three to eight
    colon-separated parts, the empty ones included), at most one [::]
    counted without overlap, and no part longer than four characters.
    All in all it accepts the IPv4 literals and the strings that pass
    this check. A string with two disjoint [::] or with more than eight
    parts is rejected. *)
Theorem fallback_ipv6_basic_check :
  (forall s, includes ":" s = true ->
             IpManager.fallbackIpValidation s = ipv6Basic s) /\
  (forall s, IpManager.fallbackIpValidation s = true <->
             ipv4Literal s = true \/ ipv6Basic s = true) /\
  (forall s, (2 <= matchCount "::" s)%nat ->
             IpManager.fallbackIpValidation s = false) /\
  (forall s, (8 < length (split ":" s))%nat ->
             IpManager.fallbackIpValidation s = false).
Proof.
  split; [|split; [|split]].
  - intros s Hcolon. apply fallback_ipv6_branch.
    destruct (test IpManager.ipv4Regex s) eqn:Hre; [|done].
    apply ipv4Regex_no_colon in Hre. congruence.
  - intros s. by rewrite fallbackIpValidation_spec, orb_true_iff.
  - intros s Hmc. rewrite fallbackIpValidation_spec.
    apply orb_false_iff. split.
    + destruct (ipv4Literal s) eqn:Hv4; [|done].
      apply ipv4Literal_no_colon in Hv4.
      unfold matchCount in Hmc.
      rewrite (matchCountFrom_no_sep ":" ":" s O Hv4) in Hmc. lia.
    + unfold ipv6Basic.
      destruct (Nat.leb_spec (matchCount "::" s) 1) as [Hle|_]; [lia|].
      by rewrite andb_false_r.
  - intros s Hlen. rewrite fallbackIpValidation_spec.
    apply orb_false_iff. split.
    + destruct (ipv4Literal s) eqn:Hv4; [|done].
      apply ipv4Literal_no_colon in Hv4.
      rewrite (split_no_sep _ _ Hv4) in Hlen. simpl in Hlen. lia.
    + unfold ipv6Basic.
      destruct (Nat.leb_spec (length (split ":" s)) 8) as [Hle|_]; [lia|].
      by rewrite andb_false_r, !andb_false_l.
Qed.

(** C6. The manual validation, which stands in for [net.isIP] when the
    [net] module cannot be loaded, does not decide colon-hex notation,
    in either direction: ["1:2:3"] has three groups and no [::] and is
    no IPv6 literal, yet it is accepted; ["::2:3:4:5:6:7:8"] is an IPv6
    literal, one [::] followed by seven groups, yet it is rejected for
    its eight colons. The text [":::"] is accepted too, its colons
    counting as a single [::]. *)
Theorem fallback_ipv6_not_colon_hex_notation :
  IpManager.fallbackIpValidation "1:2:3" = true /\
  ipv6Literal "1:2:3" = false /\
  IpManager.fallbackIpValidation "::2:3:4:5:6:7:8" = false /\
  ipv6Literal "::2:3:4:5:6:7:8" = true /\
  IpManager.fallbackIpValidation ":::" = true.
Proof. repeat split; vm_compute; reflexivity. Qed.

(** The pattern of [LocationManager] accepts any four groups of one to
    three digits. *)
Lemma locationManager_accepts_digit_groups a b c d :
  digitGroup a = true -> digitGroup b = true ->
  digitGroup c = true -> digitGroup d = true ->
  LocationManager.isValidIp
    (a +:+ String "." (b +:+ String "." (c +:+ String "." d))) = true.
Proof.
  intros Ha Hb Hc Hd. unfold LocationManager.isValidIp.
  apply orb_true_iff. left. unfold test. apply matches_lang.
  assert (Hgd : forall g, digitGroup g = true ->
                  lang (Cat (Range 1 3 Digit) (Chr ".")) (g +:+ ".")).
  { intros g Hg. exists g, ".". repeat split.
    - by apply lang_digitGroup.
    - by apply lang_chr. }
  exists ((a +:+ ".") +:+ (b +:+ ".") +:+ (c +:+ ".") +:+ ""), d.
  split; [|split].
  - rewrite app_nil_r', !app_assoc'. done.
  - exists (a +:+ "."), ((b +:+ ".") +:+ (c +:+ ".") +:+ "").
    repeat split; [by apply Hgd|].
    exists (b +:+ "."), ((c +:+ ".") +:+ "").
    repeat split; [by apply Hgd|].
    exists (c +:+ "."), "". repeat split; by apply Hgd.
  - by apply lang_digitGroup.
Qed.

(** C5. The check that [LocationManager] applies to the address a
    caller supplies does not look at the octets: ["256.1.1.1"] and
    ["01.02.03.04"], which are no IPv4 literals and which the manual
    validation of [IpManager] rejects, are accepted, and [getLocation]
    goes on to ask the first provider about ["256.1.1.1"]. *)
Theorem locationManager_accepts_invalid_octets :
  LocationManager.isValidIp "256.1.1.1" = true /\
  ipv4Literal "256.1.1.1" = false /\
  IpManager.fallbackIpValidation "256.1.1.1" = false /\
  LocationManager.isValidIp "01.02.03.04" = true /\
  ipv4Literal "01.02.03.04" = false /\
  IpManager.fallbackIpValidation "01.02.03.04" = false /\
  exists self',
    LocationManager.getLocation (Some "256.1.1.1")
      (Mock.locationManager true ∅) (Mock.start [Mock.okLocation] 1000) =
    (Normal Mock.locationData, self',
     Mock.after [] 1007 ["https://ipapi.co/256.1.1.1/json/"]).
Proof.
  repeat split; try (vm_compute; reflexivity).
  eexists. reflexivity.
Qed.
End ValidationClaims.

(* ===================================================================== *)
(** * Part III: the properties at concrete inputs                          *)
(* ===================================================================== *)

Section Instances.
Import JS.

(** The cache at work: a value stored at instant 1000 is read back at
    instant 1000; the entry stored at instant 0 with a time to live of
    300000 is gone at instant 400000 and still there at 300000. *)
Lemma cache_roundtrip_and_lazy_expiry_witness :
  let cfg := Mock.config true in
  let m : gmap string (CacheEntry string) := {[ "public-ip" := Mock.oldEntry ]} in
  Cache.getCached cfg 1000 "public-ip"
    (Cache.setCached cfg 1000 "public-ip" "192.168.1.1" None ∅)
  = (Some "192.168.1.1", Cache.setCached cfg 1000 "public-ip" "192.168.1.1" None ∅) /\
  Cache.getCached cfg 400000 "public-ip" m = (None, delete "public-ip" m) /\
  Cache.getCached cfg 300000 "public-ip" m = (Some "198.51.100.7", m).
Proof.
  intros cfg m.
  destruct (cache_roundtrip_and_lazy_expiry (T := string) cfg eq_refl)
    as (Hset & Hexpired & Hlive).
  split; [|split].
  - apply Hset. simpl. lia.
  - apply (Hexpired 400000 "public-ip" m Mock.oldEntry); [reflexivity|simpl; lia].
  - apply (Hlive 300000 "public-ip" m Mock.oldEntry); [reflexivity|simpl; lia].
Defined.

(** Three attempts at an operation that always fails, with a base
    delay of 100, on a state that records what happens: the theorem
    gives the error thrown, the three invocations, the two delays and
    the time line, in which each delay stands between two attempts. *)
Lemma retry_backoff_witness :
  let '(res, run) :=
    Helpers.retry Mock.failingAttempt Mock.recordedDelay (Some 3) (Some 100) [] in
  res = Helpers.RejectedWith (Some "Persistent failure") /\
  Helpers.invocations run = 3%nat /\
  Helpers.delays run = [100; 200] /\
  Helpers.state run =
    [Mock.Attempted; Mock.Waited 100; Mock.Attempted; Mock.Waited 200;
     Mock.Attempted].
Proof.
  pose proof (retry_backoff Mock.failingAttempt Mock.recordedDelay 3 100 []
                ltac:(lia)) as H.
  destruct (Helpers.retry Mock.failingAttempt Mock.recordedDelay (Some 3) (Some 100) [])
    as [[v|e] run].
  - destruct H as (_ & _ & _ & Hall).
    destruct Hall as [_ [e0 He0]]; [intros s0; by eexists|]. discriminate.
  - destruct H as (_ & (errs & eLast & Hres & Hinv & Hdel & He & _ & Hst) & _).
    assert (Hlen : length errs = 2%nat).
    { unfold Helpers.invocations in Hinv.
      rewrite Hres, length_map, length_app in Hinv. simpl in Hinv. lia. }
    rewrite Hlen in Hst. remember (Helpers.state run) as st eqn:Est.
    vm_compute in Hst. injection Hst as <- <-.
    rewrite He, Hinv, Hdel. repeat split.
Defined.

(** The run of an operation that always fails and counts its
    invocations: three invocations, delays of 100 then 200, and the
    error of the third invocation thrown. *)
Example retry_permanent_failure :
  Helpers.retry Mock.alwaysFails Mock.noDelay (Some 3) (Some 100) O =
  (Helpers.RejectedWith (Some 2%nat),
   {| Helpers.state := 3%nat;
      Helpers.results := [Helpers.RejectedWith 0%nat; Helpers.RejectedWith 1%nat;
                          Helpers.RejectedWith 2%nat];
      Helpers.delays := [100; 200] |}).
Proof. reflexivity. Qed.

(** With one attempt allowed there is no delay. *)
Example retry_single_attempt :
  Helpers.retry Mock.alwaysFails Mock.noDelay (Some 1) (Some 100) O =
  (Helpers.RejectedWith (Some 0%nat),
   {| Helpers.state := 1%nat;
      Helpers.results := [Helpers.RejectedWith 0%nat];
      Helpers.delays := [] |}).
Proof. reflexivity. Qed.

(** Providers A, B, C with A failing and B answering, caching
    enabled: A then B are contacted and B's value is stored. *)
Lemma fallback_first_success_witness :
  (exists self',
      IpManager.getPublicIp (Mock.ipManager true ∅)
        (Mock.start [Mock.failure; Mock.okIp] 1000) =
      (Normal "192.168.1.2", self',
       Mock.after [] 1012 [ "https://api.ipify.org?format=json";
                            "https://api64.ipify.org?format=json" ]) /\
      IpManager.cache self' =
        <[ "public-ip" := {| entry_data := "192.168.1.2";
                             entry_timestamp := 1012;
                             entry_ttl := 300000 |} ]> ∅) /\
  (exists self',
      LocationManager.getLocation (Some "192.168.1.1")
        (Mock.locationManager true ∅)
        (Mock.start [Mock.failure; Mock.okLocation] 1000) =
      (Normal Mock.locationData, self',
       Mock.after [] 1012 [ "https://ipapi.co/192.168.1.1/json/";
                            "https://ipwho.is/192.168.1.1/json/" ]) /\
      LocationManager.cache self' =
        <[ "location-192.168.1.1" := {| entry_data := Mock.locationData;
                                        entry_timestamp := 1012;
                                        entry_ttl := 300000 |} ]> ∅).
Proof.
  split.
  - destruct (proj1 fallback_first_success
                (Mock.ipManager true ∅)
                (Mock.start [Mock.failure; Mock.okIp] 1000)
                ["https://api.ipify.org?format=json"]
                "https://api64.ipify.org?format=json"
                ["https://icanhazip.com"]
                ∅
                (Mock.after [Mock.okIp] 1005 ["https://api.ipify.org?format=json"])
                Mock.okIp.1
                (Mock.after [] 1012 [ "https://api.ipify.org?format=json";
                                      "https://api64.ipify.org?format=json" ])
                "192.168.1.2")
      as (self' & Hrun & _ & Hcache).
    + reflexivity.
    + reflexivity.
    + eapply Spec.AllFail_cons; [reflexivity|reflexivity|apply Spec.AllFail_nil].
    + reflexivity.
    + reflexivity.
    + exists self'. split; [exact Hrun|exact Hcache].
  - destruct (proj2 fallback_first_success
                (Mock.locationManager true ∅)
                (Mock.start [Mock.failure; Mock.okLocation] 1000)
                (Some "192.168.1.1") (Str "192.168.1.1")
                (Mock.start [Mock.failure; Mock.okLocation] 1000)
                ["https://ipapi.co"] "https://ipwho.is" ["https://ipinfo.io"]
                ∅
                (Mock.after [Mock.okLocation] 1005
                   ["https://ipapi.co/192.168.1.1/json/"])
                Mock.okLocation.1
                (Mock.after [] 1012 [ "https://ipapi.co/192.168.1.1/json/";
                                      "https://ipwho.is/192.168.1.1/json/" ])
                Mock.locationData)
      as (self' & Hrun & _ & Hcache).
    + reflexivity.
    + reflexivity.
    + vm_compute. reflexivity.
    + reflexivity.
    + eapply Spec.AllFail_cons; [reflexivity|reflexivity|apply Spec.AllFail_nil].
    + reflexivity.
    + reflexivity.
    + exists self'. split; [exact Hrun|exact Hcache].
Defined.

(** All providers failing, caching enabled and an empty cache: the
    error names the kind and the cache stays empty. *)
Lemma fallback_exhausted_witness :
  (IpManager.getPublicIp (Mock.ipManager true ∅) (Mock.start [] 1000) =
   (Throw (Err "All IP service providers failed"),
    Mock.ipManager true ∅,
    Mock.after [] 1000 IpManager.providers)) /\
  (LocationManager.getLocation (Some "192.168.1.1")
     (Mock.locationManager true ∅) (Mock.start [] 1000) =
   (Throw (Err "All geolocation providers failed"),
    Mock.locationManager true ∅,
    Mock.after [] 1000 [ "https://ipapi.co/192.168.1.1/json/";
                         "https://ipwho.is/192.168.1.1/json/";
                         "https://ipinfo.io/192.168.1.1/json/" ])).
Proof.
  split.
  - apply (proj1 fallback_exhausted (Mock.ipManager true ∅)
             (Mock.start [] 1000) ∅ (Mock.after [] 1000 IpManager.providers)).
    + reflexivity.
    + eapply Spec.AllFail_cons; [reflexivity|reflexivity|].
      eapply Spec.AllFail_cons; [reflexivity|reflexivity|].
      eapply Spec.AllFail_cons; [reflexivity|reflexivity|].
      apply Spec.AllFail_nil.
  - apply (proj2 fallback_exhausted (Mock.locationManager true ∅)
             (Mock.start [] 1000) (Some "192.168.1.1") (Str "192.168.1.1")
             (Mock.start [] 1000) ∅
             (Mock.after [] 1000 [ "https://ipapi.co/192.168.1.1/json/";
                                   "https://ipwho.is/192.168.1.1/json/";
                                   "https://ipinfo.io/192.168.1.1/json/" ])).
    + reflexivity.
    + vm_compute. reflexivity.
    + reflexivity.
    + eapply Spec.AllFail_cons; [reflexivity|reflexivity|].
      eapply Spec.AllFail_cons; [reflexivity|reflexivity|].
      eapply Spec.AllFail_cons; [reflexivity|reflexivity|].
      apply Spec.AllFail_nil.
Defined.

(** The basic check on addresses with a colon. *)
Lemma fallback_ipv6_basic_check_witness :
  IpManager.fallbackIpValidation "::1" = Spec.ipv6Basic "::1" /\
  IpManager.fallbackIpValidation "fe80::1" = true /\
  IpManager.fallbackIpValidation "2001:0db8:85a3:0000:0000:8a2e:0370:7334" = true /\
  IpManager.fallbackIpValidation "1::2::3" = false /\
  IpManager.fallbackIpValidation
    "2001:0db8:85a3:0000:0000:8a2e:0370:7334:1234" = false.
Proof.
  destruct fallback_ipv6_basic_check as (Hcolon & Hiff & Htwo & Hnine).
  split; [|split; [|split; [|split]]].
  - apply Hcolon. reflexivity.
  - apply Hiff. right. vm_compute. reflexivity.
  - apply Hiff. right. vm_compute. reflexivity.
  - apply Htwo. vm_compute. lia.
  - apply Hnine. vm_compute. lia.
Defined.

(** An empty [x-forwarded-for] list makes [getClientIp] throw. *)
Lemma getClientIp_throws_on_empty_forwarded_list_witness :
  exists e,
    IpManager.getClientIp
      (Mock.request None [("x-forwarded-for", IpManager.HArray [])]) = Throw e.
Proof.
  apply (proj2 getClientIp_throws_on_empty_forwarded_list); reflexivity.
Defined.

(** The four normalisations on requests as the tests build them. *)
Lemma getClientIp_normalization_witness :
  IpManager.getClientIp (Mock.request (Some "::1") []) = Normal "127.0.0.1" /\
  IpManager.getClientIp (Mock.request (Some "::ffff:192.168.1.100") [])
  = Normal "192.168.1.100" /\
  IpManager.getClientIp
    (Mock.request None
       [("x-forwarded-for", IpManager.HString "203.0.113.195, 70.41.3.18")])
  = Normal "203.0.113.195" /\
  IpManager.getClientIp (Mock.request None []) = Normal "unknown".
Proof.
  destruct getClientIp_normalization as (Hloop & Hmapped & _ & Hfwd & Hnone).
  split; [|split; [|split]].
  - apply Hloop. reflexivity.
  - apply Hmapped; [reflexivity|discriminate|reflexivity].
  - apply Hfwd; reflexivity.
  - apply Hnone; reflexivity.
Defined.

(** One kind failing, one succeeding, on the mocked platform. *)
Lemma aggregation_one_kind_failing_witness :
  NetworkService.healthCheck
    (Mock.start [Mock.failure; Mock.okLocation] 1000) "2026-01-01T00:00:00.000Z"
  = (Normal {| success := true;
               data := Some {| NetworkService.ipServices := false;
                               NetworkService.geolocationServices := true;
                               NetworkService.networkInfo := true |};
               error := None;
               timestamp := "2026-01-01T00:00:00.000Z" |},
     Mock.after [] 1012 ["https://api.ipify.org"; "https://ipapi.co/json/"]) /\
  NetworkService.getFullNetworkInfo
    {| NetworkService.settledAt := 0;
       NetworkService.outcome := Throw (Err "All IP service providers failed") |}
    {| NetworkService.settledAt := 1;
       NetworkService.outcome := Normal Mock.locationData |}
    tt [] "2026-01-01T00:00:00.000Z"
  = Normal {| success := false; data := None;
              error := Some "All IP service providers failed";
              timestamp := "2026-01-01T00:00:00.000Z" |} /\
  NetworkService.getFullNetworkInfo
    {| NetworkService.settledAt := 0;
       NetworkService.outcome := Normal "203.0.113.195" |}
    {| NetworkService.settledAt := 1;
       NetworkService.outcome := Throw (Err "All geolocation providers failed") |}
    tt [] "2026-01-01T00:00:00.000Z"
  = Normal {| success := false; data := None;
              error := Some "All geolocation providers failed";
              timestamp := "2026-01-01T00:00:00.000Z" |}.
Proof.
  destruct aggregation_one_kind_failing as (Hhealth & Hip & Hloc).
  split; [|split].
  - apply (Hhealth Mock.platform _
             (Mock.after [Mock.okLocation] 1005 ["https://api.ipify.org"]) _ _
             (Err "Provider failed") Mock.locationData); reflexivity.
  - apply (Hip unit _ _ tt [] _ (Err "All IP service providers failed")
             Mock.locationData); reflexivity.
  - apply (Hloc unit _ _ tt [] _ "203.0.113.195"
             (Err "All geolocation providers failed")); reflexivity.
Defined.

(** An IPv6 address comes back cut at its first colon. *)
Lemma getClientIp_no_colon_witness :
  includes ":" "2001" = false /\
  (exists rest,
      IpManager.getClientIp (Mock.request (Some "2001:db8::1") [])
      = Normal (IpManager.stripPort "2001:db8::1") /\
      "2001:db8::1" = IpManager.stripPort "2001:db8::1" +:+ String ":" rest) /\
  (exists rest,
      IpManager.getClientIp
        (Mock.request None [("x-real-ip", IpManager.HString "2001:db8::1")])
      = Normal (IpManager.stripPort "2001:db8::1") /\
      "2001:db8::1" = IpManager.stripPort "2001:db8::1" +:+ String ":" rest).
Proof.
  destruct getClientIp_no_colon as (Hnone & Hdirect & Hreal & _).
  split; [|split].
  - apply (Hnone (Mock.request None
                    [("x-real-ip", IpManager.HString "2001:db8::1")])).
    reflexivity.
  - apply Hdirect; [reflexivity|discriminate|discriminate|reflexivity|reflexivity].
  - apply Hreal; reflexivity.
Defined.
End Instances.

(* ===================================================================== *)
(** * Part IV: further properties of the code                              *)
(* ===================================================================== *)

(** ** More on the TTL cache *)

Section CacheMore.
Context {T : Type}.
Variable config : NetworkInfoConfig.
Implicit Types (m : gmap string (CacheEntry T)) (k : string) (v : T).

Lemma getCached_hit_inv now k m v m' :
  Cache.getCached config now k m = (Some v, m') ->
  m' = m /\ enabled (cache config) = true /\
  exists e, m !! k = Some e /\ entry_data e = v /\
            now - entry_timestamp e <= entry_ttl e.
Proof.
  unfold Cache.getCached.
  destruct (enabled (cache config)); simpl; [|done].
  destruct (m !! k) as [e|] eqn:Hk; [|done].
  destruct (Z.gtb_spec (now - entry_timestamp e) (entry_ttl e)); [done|].
  intros [= <- <-]. split; [done|]. split; [done|].
  exists e. split; [done|]. split; [done|lia].
Qed.

Lemma getCached_other_keys now k m k' :
  k' <> k -> (Cache.getCached config now k m).2 !! k' = m !! k'.
Proof.
  intros Hne.
  destruct (getCached_map config now k m) as [->|(_ & -> & _)]; [done|].
  by apply lookup_delete_ne.
Qed.

(** X1. A lookup never serves an expired value and never touches
    another key: what it returns is the data of an entry whose age is at
    most its time to live, the map is then left as it is, and whatever
    the outcome every other key keeps its entry. *)
Theorem getCached_fresh_and_local now k m :
  (forall v m', Cache.getCached config now k m = (Some v, m') ->
     m' = m /\ enabled (cache config) = true /\
     exists e, m !! k = Some e /\ entry_data e = v /\
               now - entry_timestamp e <= entry_ttl e) /\
  (forall k', k' <> k -> (Cache.getCached config now k m).2 !! k' = m !! k').
Proof.
  split.
  - intros v m'. apply getCached_hit_inv.
  - intros k'. apply getCached_other_keys.
Qed.

(** X2. With the cache enabled, a value written at [now] with
    [setCached(key, value, ttl)] is read back at [later] exactly as long
    as [later - now] does not exceed the time to live in force, which is
    the argument when it is given and not zero, and the configured one
    otherwise (a [ttl] of 0 counts as not given); past that, the lookup
    reports nothing and removes the entry. The write touches no other
    key, and a second write to the key replaces the first. *)
Theorem setCached_roundtrip_with_ttl now later k v ttlArg m :
  enabled (cache config) = true ->
  let inForce := match ttlArg with
                 | Some t => if t =? 0 then ttl (cache config) else t
                 | None => ttl (cache config)
                 end in
  Cache.getCached config later k (Cache.setCached config now k v ttlArg m) =
    (if later - now >? inForce
     then (None, delete k m)
     else (Some v, Cache.setCached config now k v ttlArg m)) /\
  (forall k', k' <> k -> Cache.setCached config now k v ttlArg m !! k' = m !! k') /\
  (forall now' v' ttlArg',
     Cache.setCached config now' k v' ttlArg' (Cache.setCached config now k v ttlArg m)
     = Cache.setCached config now' k v' ttlArg' m).
Proof.
  intros He inForce. subst inForce. split; [|split].
  - rewrite (setCached_enabled _ _ _ _ _ _ He).
    unfold Cache.getCached. rewrite He, lookup_insert_eq. simpl.
    unfold Cache.ttlOrDefault.
    destruct (later - now >? _); [|done].
    by rewrite delete_insert_eq.
  - intros k' Hne. rewrite (setCached_enabled _ _ _ _ _ _ He).
    by rewrite lookup_insert_ne.
  - intros now' v' ttlArg'. rewrite !(setCached_enabled _ _ _ _ _ _ He).
    by rewrite insert_insert_eq.
Qed.

(** X3. [clearCache(key)] with a non-empty key removes that entry and
    leaves the others; without a key, and also with the empty string as
    key (which is falsy), it empties the whole cache. After either, a
    lookup of the key finds nothing. *)
Theorem clearCache_removes now k m :
  (k <> "" ->
   Cache.clearCache (Some k) m = delete k m /\
   forall k', k' <> k -> Cache.clearCache (Some k) m !! k' = m !! k') /\
  Cache.clearCache None m = ∅ /\
  Cache.clearCache (Some "") m = ∅ /\
  (forall key, (Cache.getCached config now k (Cache.clearCache key m)).1 = None
               \/ exists k', key = Some k' /\ k' <> "" /\ k' <> k).
Proof.
  assert (Hdel : k <> "" -> Cache.clearCache (Some k) m = delete k m).
  { intros Hk. unfold Cache.clearCache. simpl.
    by destruct (String.eqb_spec k ""). }
  split; [|split; [|split]].
  - intros Hk. split; [by apply Hdel|].
    intros k' Hne. rewrite (Hdel Hk). by apply lookup_delete_ne.
  - done.
  - done.
  - intros [k'|]; [|left; by rewrite getCached_absent].
    destruct (String.eqb_spec k' "") as [->|Hk'].
    { left. by rewrite getCached_absent. }
    destruct (decide (k' = k)) as [->|Hne]; [|right; by exists k'].
    left. rewrite (Hdel Hk'). rewrite getCached_absent; [done|].
    apply lookup_delete_eq.
Qed.

End CacheMore.

(** ** More on retry *)

Section RetryMore.
Import Helpers.
Context {S T E : Type}.
Variable operation : S -> Result T E * S.
Variable delay : Z -> S -> S.

Lemma sum_backoff base from n :
  0 <= from ->
  foldr Z.add 0 (Spec.backoff base from n) = base * 2 ^ from * (2 ^ Z.of_nat n - 1).
Proof.
  revert from. induction n as [|n IH]; intros from Hfrom.
  - simpl. lia.
  - rewrite backoff_cons. cbn [foldr]. rewrite IH by lia.
    rewrite Nat2Z.inj_succ, Z.pow_succ_r by lia.
    rewrite Z.pow_add_r by lia. lia.
Qed.

(** X4. When [maxRetries] is zero or negative, [retry] never invokes the
    operation and waits for nothing: it throws at once, and what it
    throws is [undefined], the variable [lastError] never having been
    assigned. *)
Theorem retry_no_attempt (maxRetries delayMs : Z) (s : S) :
  maxRetries <= 0 ->
  retry operation delay (Some maxRetries) (Some delayMs) s =
  (RejectedWith None, {| state := s; results := []; delays := [] |}).
Proof.
  intros Hle. unfold retry. simpl default.
  destruct (Z.to_nat maxRetries) as [|n] eqn:Hn; [done|].
  simpl. destruct (Z.ltb_spec 0 maxRetries); [lia|done].
Qed.

(** X5. The time spent waiting: when all [maxRetries >= 1] attempts
    fail, the delays add up to [delayMs * (2^(maxRetries-1) - 1)]; when
    the call succeeds after [k] failures, to [delayMs * (2^k - 1)]. *)
Theorem retry_total_delay (maxRetries delayMs : Z) (s : S) :
  1 <= maxRetries ->
  let '(res, run) := retry operation delay (Some maxRetries) (Some delayMs) s in
  match res with
  | Fulfilled _ =>
      foldr Z.add 0 (delays run) =
      delayMs * (2 ^ (Z.of_nat (invocations run) - 1) - 1)
  | RejectedWith _ =>
      foldr Z.add 0 (delays run) = delayMs * (2 ^ (maxRetries - 1) - 1)
  end.
Proof.
  intros Hmax. unfold retry. simpl default.
  set (r0 := {| state := s; results := []; delays := [] |}).
  destruct (retryFrom_trace operation delay (Z.to_nat maxRetries) maxRetries
              delayMs 0 None r0 ltac:(lia)) as [errs Htrace].
  destruct (retryFrom operation delay (Z.to_nat maxRetries) maxRetries delayMs 0 None r0)
    as [[v|e] run].
  - destruct Htrace as (_ & Hres & Hdel). simpl in Hres, Hdel.
    rewrite Hdel, sum_backoff by lia. unfold invocations.
    rewrite Hres, length_app, length_map. simpl.
    replace (Z.of_nat (length errs + 1) - 1) with (Z.of_nat (length errs)) by lia.
    lia.
  - destruct Htrace as (_ & _ & Hdel & _). simpl in Hdel.
    rewrite Hdel, sum_backoff by lia.
    replace (Z.of_nat (Z.to_nat maxRetries - 1)) with (maxRetries - 1) by lia.
    lia.
Qed.
End RetryMore.

(** ** More on the public address *)

Section PublicIpMore.
Context `{Platform}.
Import JS.

(** The provider loop, whatever happens: it contacts the first [n]
    providers of its list, in order; it stops early only on a valid
    address, which it then stores; otherwise it contacts them all and
    throws. *)
Lemma ip_resolveFrom_run ps : forall self rt,
  exists n,
    (n <= length ps)%nat /\ (ps <> [] -> (1 <= n)%nat) /\
    requests (IpManager.resolveFrom ps self rt).2 = requests rt ++ take n ps /\
    match (IpManager.resolveFrom ps self rt).1 with
    | (Normal v, self') =>
        IpManager.isValidIp v = true /\
        self' = IpManager.setCached self
                  (Date_now (world (IpManager.resolveFrom ps self rt).2))
                  IpManager.cacheKey v None
    | (Throw e, self') =>
        e = Err "All IP service providers failed" /\ self' = self /\ n = length ps
    end.
Proof.
  induction ps as [|p ps IH]; intros self rt.
  - exists O. simpl. by rewrite app_nil_r.
  - simpl.
    destruct (http_get p (timeout (api (IpManager.config self))) rt)
      as [res rt1] eqn:Hget.
    pose proof (http_get_requests _ _ _ _ _ Hget) as Hreq.
    destruct (IpManager.attempt res) as [v|] eqn:Hatt.
    + exists 1%nat. simpl. split; [lia|]. split; [done|].
      split; [by rewrite Hreq|]. split; [|done].
      unfold IpManager.attempt in Hatt. destruct res as [body|]; [|done].
      destruct (IpManager.candidate body) as [c|]; [|done].
      destruct (IpManager.isValidIp c) eqn:Hv; by simplify_eq.
    + destruct (IH self rt1) as (n & Hn & _ & Hr & Hout).
      exists (Datatypes.S n). simpl. split; [lia|]. split; [lia|]. split.
      * rewrite Hr, Hreq. by rewrite <- app_assoc.
      * destruct (IpManager.resolveFrom ps self rt1) as [[[v|e] self'] rt'];
          simpl in *; [done|]. destruct Hout as (? & ? & ?). by subst.
Qed.

Lemma ip_getPublicIp_hit self rt e :
  enabled (cache (IpManager.config self)) = true ->
  IpManager.cache self !! IpManager.cacheKey = Some e ->
  Date_now (world rt) - entry_timestamp e <= entry_ttl e ->
  entry_data e <> "" ->
  IpManager.getPublicIp self rt = (Normal (entry_data e), self, rt).
Proof.
  intros He Hk Hage Hne. unfold IpManager.getPublicIp, IpManager.getCached.
  rewrite (getCached_live _ _ _ _ e He Hk Hage). simpl.
  destruct (String.eqb_spec (entry_data e) ""); [done|]. by destruct self.
Qed.

(** X6. Whatever the platform answers, one call of [getPublicIp]
    contacts a prefix of the provider list, in order - never more than
    the three providers, never a provider twice, never another URL - and
    touches no cache key but its own. *)
Theorem getPublicIp_requests_bounded self rt :
  exists n,
    (n <= 3)%nat /\
    requests (IpManager.getPublicIp self rt).2 =
      requests rt ++ take n IpManager.providers /\
    forall k, k <> IpManager.cacheKey ->
      IpManager.cache (IpManager.getPublicIp self rt).1.2 !! k =
      IpManager.cache self !! k.
Proof.
  unfold IpManager.getPublicIp, IpManager.getCached.
  pose proof (getCached_other_keys (IpManager.config self)
                (Date_now (world rt)) IpManager.cacheKey (IpManager.cache self))
    as Hframe.
  destruct (Cache.getCached (IpManager.config self) (Date_now (world rt))
              IpManager.cacheKey (IpManager.cache self)) as [cached m1] eqn:Hc.
  simpl in Hframe.
  set (self1 := {| IpManager.config := IpManager.config self;
                   IpManager.cache := m1 |}).
  assert (Hloop : exists n, (n <= 3)%nat /\
            requests (IpManager.resolveFrom IpManager.providers self1 rt).2 =
              requests rt ++ take n IpManager.providers /\
            forall k, k <> IpManager.cacheKey ->
              IpManager.cache (IpManager.resolveFrom IpManager.providers self1 rt).1.2 !! k
              = IpManager.cache self !! k).
  { destruct (ip_resolveFrom_run IpManager.providers self1 rt)
      as (n & Hn & _ & Hr & Hout).
    exists n. split; [done|]. split; [done|]. intros k Hk.
    destruct (IpManager.resolveFrom IpManager.providers self1 rt)
      as [[[v|e] self'] rt']; simpl in *.
    - destruct Hout as [_ ->]. simpl. unfold Cache.setCached.
      destruct (negb _); simpl; [by apply Hframe|].
      rewrite lookup_insert_ne by done. by apply Hframe.
    - destruct Hout as (_ & -> & _). simpl. by apply Hframe. }
  destruct cached as [ip|]; [|exact Hloop].
  destruct (truthyStr (Some ip)); [|exact Hloop].
  exists O. simpl. split; [lia|]. split; [by rewrite app_nil_r|].
  intros k Hk. by apply Hframe.
Qed.

(** X7. What [getPublicIp] can produce: a returned address is a
    non-empty cached one or one the validator accepts, and the only
    error it ever throws is the one saying that all providers failed,
    thrown after all three have been contacted. *)
Theorem getPublicIp_outcomes self rt :
  match IpManager.getPublicIp self rt with
  | (Normal v, _, rt') =>
      (v <> "" /\ rt' = rt /\
       exists e, IpManager.cache self !! IpManager.cacheKey = Some e /\
                 entry_data e = v) \/
      IpManager.isValidIp v = true
  | (Throw e, _, rt') =>
      e = Err "All IP service providers failed" /\
      requests rt' = requests rt ++ IpManager.providers
  end.
Proof.
  unfold IpManager.getPublicIp, IpManager.getCached.
  pose proof (getCached_hit_inv (IpManager.config self)
                (Date_now (world rt)) IpManager.cacheKey (IpManager.cache self))
    as Hfresh.
  destruct (Cache.getCached (IpManager.config self) (Date_now (world rt))
              IpManager.cacheKey (IpManager.cache self)) as [cached m1] eqn:Hc.
  set (self1 := {| IpManager.config := IpManager.config self;
                   IpManager.cache := m1 |}).
  assert (Hloop : match IpManager.resolveFrom IpManager.providers self1 rt with
                  | (Normal v, _, rt') =>
                      (v <> "" /\ rt' = rt /\
                       exists e, IpManager.cache self !! IpManager.cacheKey = Some e /\
                                 entry_data e = v) \/
                      IpManager.isValidIp v = true
                  | (Throw e, _, rt') =>
                      e = Err "All IP service providers failed" /\
                      requests rt' = requests rt ++ IpManager.providers
                  end).
  { destruct (ip_resolveFrom_run IpManager.providers self1 rt)
      as (n & Hn & _ & Hr & Hout).
    destruct (IpManager.resolveFrom IpManager.providers self1 rt)
      as [[[v|e] self'] rt']; simpl in *.
    - right. by destruct Hout.
    - destruct Hout as (-> & _ & ->). by rewrite Hr. }
  destruct cached as [ip|]; [|exact Hloop].
  destruct (truthyStr (Some ip)) eqn:Ht; [|exact Hloop].
  left. destruct (Hfresh ip m1 eq_refl) as (_ & _ & e & Hk & Hd & _).
  split; [|split; [done|by exists e]].
  simpl in Ht. intros ->. done.
Qed.

(** X8. With caching enabled and a time to live that is not negative, a
    successful [getPublicIp] makes the next call free: called again on
    the state and at the instant the first call ended, it returns the
    same address without any request (the validator being one that
    rejects the empty string). *)
Theorem getPublicIp_second_call_cached self rt v self' rt' :
  enabled (cache (IpManager.config self)) = true ->
  0 <= ttl (cache (IpManager.config self)) ->
  IpManager.isValidIp "" = false ->
  IpManager.getPublicIp self rt = (Normal v, self', rt') ->
  IpManager.getPublicIp self' rt' = (Normal v, self', rt').
Proof.
  intros He Httl Hempty. unfold IpManager.getPublicIp at 1, IpManager.getCached.
  pose proof (getCached_hit_inv (IpManager.config self)
                (Date_now (world rt)) IpManager.cacheKey (IpManager.cache self))
    as Hfresh.
  destruct (Cache.getCached (IpManager.config self) (Date_now (world rt))
              IpManager.cacheKey (IpManager.cache self)) as [cached m1] eqn:Hc.
  set (self1 := {| IpManager.config := IpManager.config self;
                   IpManager.cache := m1 |}).
  assert (Hloop : IpManager.resolveFrom IpManager.providers self1 rt
                  = (Normal v, self', rt') ->
                  IpManager.getPublicIp self' rt' = (Normal v, self', rt')).
  { intros Hrun.
    destruct (ip_resolveFrom_run IpManager.providers self1 rt)
      as (n & _ & _ & _ & Hout).
    rewrite Hrun in Hout. simpl in Hout. destruct Hout as [Hvalid ->].
    assert (Hne : v <> "") by (intros ->; congruence).
    set (e := {| entry_data := v; entry_timestamp := Date_now (world rt');
                 entry_ttl := ttl (cache (IpManager.config self)) |}).
    apply (ip_getPublicIp_hit _ rt' e); simpl; [done| |lia|done].
    unfold Cache.setCached. rewrite He. simpl. apply lookup_insert_eq. }
  destruct cached as [ip|]; [|exact Hloop].
  destruct (truthyStr (Some ip)) eqn:Ht; [|exact Hloop].
  intros [= -> <- <-].
  destruct (Hfresh v m1 eq_refl) as (-> & _ & e & Hk & <- & Hage).
  apply (ip_getPublicIp_hit self1 rt e); [done|done|done|].
  simpl in Ht. intros Heq. by rewrite Heq in Ht.
Qed.

Lemma ip_getPublicIp_absent_requests self rt :
  IpManager.cache self !! IpManager.cacheKey = None ->
  exists rest,
    requests (IpManager.getPublicIp self rt).2 =
    requests rt ++ "https://api.ipify.org?format=json" :: rest.
Proof.
  intros Hk. unfold IpManager.getPublicIp, IpManager.getCached.
  rewrite getCached_absent by done.
  set (self1 := {| IpManager.config := IpManager.config self;
                   IpManager.cache := IpManager.cache self |}).
  destruct (ip_resolveFrom_run IpManager.providers self1 rt)
    as (n & _ & Hpos & Hr & _).
  destruct n as [|n]; [by specialize (Hpos ltac:(done)); lia|].
  rewrite Hr. by eexists.
Qed.

(** X9. When nothing can be served from the cache - caching is
    disabled, or the entry has just been cleared - [getPublicIp] goes to
    the network: it makes at least one request, the first one to the
    first provider; and with caching disabled it leaves the cache map as
    it found it. *)
Theorem getPublicIp_goes_to_network self rt :
  (enabled (cache (IpManager.config self)) = false ->
   (exists rest, requests (IpManager.getPublicIp self rt).2 =
                 requests rt ++ "https://api.ipify.org?format=json" :: rest) /\
   IpManager.cache (IpManager.getPublicIp self rt).1.2 = IpManager.cache self) /\
  (forall key, key = None \/ key = Some IpManager.cacheKey ->
   exists rest,
     requests (IpManager.getPublicIp (IpManager.clearCache self key) rt).2 =
     requests rt ++ "https://api.ipify.org?format=json" :: rest).
Proof.
  assert (Hloop : forall self1, exists rest,
            requests (IpManager.resolveFrom IpManager.providers self1 rt).2 =
            requests rt ++ "https://api.ipify.org?format=json" :: rest).
  { intros self1.
    destruct (ip_resolveFrom_run IpManager.providers self1 rt)
      as (n & _ & Hpos & Hr & _).
    destruct n as [|n]; [by specialize (Hpos ltac:(done)); lia|].
    rewrite Hr. by eexists. }
  split.
  - intros Hd. unfold IpManager.getPublicIp, IpManager.getCached.
    rewrite getCached_disabled by done. split; [apply Hloop|].
    set (self1 := {| IpManager.config := IpManager.config self;
                     IpManager.cache := IpManager.cache self |}).
    destruct (ip_resolveFrom_run IpManager.providers self1 rt)
      as (n & _ & _ & _ & Hout).
    destruct (IpManager.resolveFrom IpManager.providers self1 rt)
      as [[[v|e] self'] rt']; simpl in *.
    + destruct Hout as [_ ->]. simpl. by rewrite setCached_disabled.
    + by destruct Hout as (_ & -> & _).
  - intros key Hkey. unfold IpManager.getPublicIp, IpManager.getCached.
    rewrite getCached_absent; [apply Hloop|].
    simpl. destruct Hkey as [->| ->]; simpl; [done|]. apply lookup_delete_eq.
Qed.
End PublicIpMore.

(** ** More on the geolocation *)

Section LocationMore.
Context `{Platform}.
Import JS.

Lemma loc_resolveFrom_run ps : forall ip key self rt,
  exists n,
    (n <= length ps)%nat /\
    requests (LocationManager.resolveFrom ps ip key self rt).2 =
      requests rt ++ map (fun q => LocationManager.url q ip) (take n ps) /\
    match (LocationManager.resolveFrom ps ip key self rt).1 with
    | (Normal v, self') =>
        LocationManager.isValidLocationData v = true /\
        self' = LocationManager.setCached self
                  (Date_now (world (LocationManager.resolveFrom ps ip key self rt).2))
                  key v None
    | (Throw e, self') =>
        e = Err "All geolocation providers failed" /\ self' = self /\ n = length ps
    end.
Proof.
  induction ps as [|p ps IH]; intros ip key self rt.
  - exists O. simpl. by rewrite app_nil_r.
  - simpl.
    destruct (http_get (LocationManager.url p ip)
                (timeout (api (LocationManager.config self))) rt)
      as [res rt1] eqn:Hget.
    pose proof (http_get_requests _ _ _ _ _ Hget) as Hreq.
    destruct (LocationManager.attempt res) as [v|] eqn:Hatt.
    + exists 1%nat. simpl. split; [lia|]. split; [by rewrite Hreq|].
      split; [|done].
      unfold LocationManager.attempt in Hatt. destruct res as [body|]; [|done].
      destruct (truthy body); simpl in Hatt; [|done].
      destruct (LocationManager.isValidLocationData body) eqn:Hv; by simplify_eq.
    + destruct (IH ip key self rt1) as (n & Hn & Hr & Hout).
      exists (Datatypes.S n). simpl. split; [lia|]. split.
      * rewrite Hr, Hreq. by rewrite <- app_assoc.
      * destruct (LocationManager.resolveFrom ps ip key self rt1)
          as [[[v|e] self'] rt']; simpl in *; [done|].
        destruct Hout as (? & ? & ?). by subst.
Qed.

Lemma cacheKey_inj a b :
  LocationManager.cacheKey (Str a) = LocationManager.cacheKey (Str b) -> a = b.
Proof.
  unfold LocationManager.cacheKey. simpl. apply (String.app_inj "location-").
Qed.

(** X10. An address that fails the parameter check is refused at once:
    [getLocation] throws "Invalid IP address: <address>" without any
    request and without touching the cache. *)
Theorem getLocation_invalid_parameter a self rt :
  a <> "" ->
  LocationManager.isValidIp a = false ->
  LocationManager.getLocation (Some a) self rt =
  (Throw (Err ("Invalid IP address: " +:+ a)), self, rt).
Proof.
  intros Hne Hinv. unfold LocationManager.getLocation, LocationManager.targetIp.
  simpl. destruct (String.eqb_spec a ""); [done|]. simpl.
  unfold LocationManager.locate. simpl. by rewrite Hinv.
Qed.

(** X11. Without an address (none given, or the empty string), the
    machine's own address is asked for first, with one request. When
    that request is rejected, [getLocation] throws "Failed to get public
    IP for location lookup"; when it answers with an object that has no
    [ip] property, [getLocation] throws "Invalid IP address: undefined".
    In both cases no geolocation provider is contacted and the cache is
    left alone. *)
Theorem getLocation_own_address_unavailable ip self rt rt1 :
  truthyStr ip = false ->
  (forall e,
     http_get "https://api.ipify.org?format=json"
       (timeout (api (LocationManager.config self))) rt = (Rejected e, rt1) ->
     LocationManager.getLocation ip self rt =
       (Throw (Err "Failed to get public IP for location lookup"), self, rt1) /\
     requests rt1 = requests rt ++ ["https://api.ipify.org?format=json"]) /\
  (forall fields,
     http_get "https://api.ipify.org?format=json"
       (timeout (api (LocationManager.config self))) rt
       = (Resolved (Object fields), rt1) ->
     assoc "ip" fields = Undefined ->
     LocationManager.getLocation ip self rt =
       (Throw (Err "Invalid IP address: undefined"), self, rt1) /\
     requests rt1 = requests rt ++ ["https://api.ipify.org?format=json"]).
Proof.
  intros Hip.
  assert (Htarget : LocationManager.targetIp ip self rt =
                    LocationManager.getCurrentPublicIp self rt).
  { unfold LocationManager.targetIp. destruct ip as [a|]; [|done]. by rewrite Hip. }
  split.
  - intros e Hget. split; [|by apply http_get_requests in Hget].
    unfold LocationManager.getLocation. rewrite Htarget.
    unfold LocationManager.getCurrentPublicIp. by rewrite Hget.
  - intros fields Hget Hno. split; [|by apply http_get_requests in Hget].
    unfold LocationManager.getLocation. rewrite Htarget.
    unfold LocationManager.getCurrentPublicIp. rewrite Hget. simpl.
    rewrite Hno. reflexivity.
Qed.

(** X12. A live cached location of a valid address is served without
    any request, the cache and the runtime staying as they are. *)
Theorem getLocation_cache_hit a self rt e :
  a <> "" ->
  LocationManager.isValidIp a = true ->
  enabled (cache (LocationManager.config self)) = true ->
  LocationManager.cache self !! LocationManager.cacheKey (Str a) = Some e ->
  Date_now (world rt) - entry_timestamp e <= entry_ttl e ->
  truthy (entry_data e) = true ->
  LocationManager.getLocation (Some a) self rt = (Normal (entry_data e), self, rt).
Proof.
  intros Hne Hvalid He Hk Hage Htruthy.
  unfold LocationManager.getLocation, LocationManager.targetIp. simpl.
  destruct (String.eqb_spec a ""); [done|]. simpl.
  unfold LocationManager.locate, LocationManager.getCached. simpl.
  rewrite Hvalid. simpl.
  rewrite (getCached_live _ _ _ _ e He Hk Hage). rewrite Htruthy.
  by destruct self.
Qed.

(** X13. What [getLocation] can produce. The only errors it throws are
    the three it names: the refused address, the failed lookup of the
    machine's own address, and "All geolocation providers failed". A
    value it returns is a cached one or a body that passed
    [isValidLocationData]. And one call makes at most four requests. *)
Theorem getLocation_outcomes ip self rt :
  match LocationManager.getLocation ip self rt with
  | (Normal v, self', rt') =>
      LocationManager.isValidLocationData v = true \/
      exists k e, LocationManager.cache self !! k = Some e /\ entry_data e = v
  | (Throw e, self', rt') =>
      e = Err "All geolocation providers failed" \/
      e = Err "Failed to get public IP for location lookup" \/
      exists target, e = Err ("Invalid IP address: " +:+ target)
  end /\
  exists reqs, requests (LocationManager.getLocation ip self rt).2 =
               requests rt ++ reqs /\ (length reqs <= 4)%nat.
Proof.
  unfold LocationManager.getLocation.
  assert (Htarget : exists reqs0,
            requests (LocationManager.targetIp ip self rt).2 = requests rt ++ reqs0 /\
            (length reqs0 <= 1)%nat /\
            forall e, (LocationManager.targetIp ip self rt).1 = Throw e ->
                      e = Err "Failed to get public IP for location lookup").
  { assert (Hcur : exists reqs0,
              requests (LocationManager.getCurrentPublicIp self rt).2
                = requests rt ++ reqs0 /\ (length reqs0 <= 1)%nat /\
              forall e, (LocationManager.getCurrentPublicIp self rt).1 = Throw e ->
                        e = Err "Failed to get public IP for location lookup").
    { unfold LocationManager.getCurrentPublicIp.
      destruct (http_get _ _ rt) as [res rt1] eqn:Hget.
      apply http_get_requests in Hget.
      exists ["https://api.ipify.org?format=json"].
      destruct res as [[]|]; simpl; repeat split; try done; by intros ? [=]. }
    unfold LocationManager.targetIp. destruct ip as [a|]; [|exact Hcur].
    destruct (truthyStr (Some a)); [|exact Hcur].
    exists []. simpl. rewrite app_nil_r. repeat split; [lia|done]. }
  destruct Htarget as (reqs0 & Hreq0 & Hlen0 & Herr0).
  destruct (LocationManager.targetIp ip self rt) as [[target|e0] rt0]; simpl in *.
  2:{ split; [right; left; by apply Herr0|]. exists reqs0. split; [done|lia]. }
  unfold LocationManager.locate.
  destruct (LocationManager.isValidIp (ToString target)); simpl.
  2:{ split; [right; right; by eexists|]. exists reqs0. split; [done|lia]. }
  unfold LocationManager.getCached.
  pose proof (getCached_hit_inv (LocationManager.config self) (Date_now (world rt0))
                (LocationManager.cacheKey target) (LocationManager.cache self))
    as Hfresh.
  destruct (Cache.getCached (LocationManager.config self) (Date_now (world rt0))
              (LocationManager.cacheKey target) (LocationManager.cache self))
    as [cached m1].
  set (self1 := {| LocationManager.config := LocationManager.config self;
                   LocationManager.cache := m1 |}).
  assert (Hloop :
    match LocationManager.resolveFrom LocationManager.providers ip
            (LocationManager.cacheKey target) self1 rt0 with
    | (Normal v, self', rt') =>
        LocationManager.isValidLocationData v = true \/
        exists k e, LocationManager.cache self !! k = Some e /\ entry_data e = v
    | (Throw e, self', rt') =>
        e = Err "All geolocation providers failed" \/
        e = Err "Failed to get public IP for location lookup" \/
        exists target, e = Err ("Invalid IP address: " +:+ target)
    end /\
    exists reqs,
      requests (LocationManager.resolveFrom LocationManager.providers ip
                  (LocationManager.cacheKey target) self1 rt0).2 =
      requests rt ++ reqs /\ (length reqs <= 4)%nat).
  { destruct (loc_resolveFrom_run LocationManager.providers ip
                (LocationManager.cacheKey target) self1 rt0)
      as (n & Hn & Hr & Hout).
    split.
    - destruct (LocationManager.resolveFrom LocationManager.providers ip
                  (LocationManager.cacheKey target) self1 rt0)
        as [[[v|e] self'] rt']; simpl in *.
      + left. by destruct Hout.
      + left. by destruct Hout.
    - eexists. split; [rewrite Hr, Hreq0, <- app_assoc; reflexivity|].
      rewrite length_app, length_map, list.length_take. simpl in Hn. lia. }
  destruct cached as [v|]; [|exact Hloop].
  destruct (truthy v); [|exact Hloop].
  split.
  - right. destruct (Hfresh v m1 eq_refl) as (_ & _ & e & Hk & Hd & _).
    by exists (LocationManager.cacheKey target), e.
  - exists reqs0. simpl. split; [done|lia].
Qed.

(** X14. Locations are cached per address: resolving the location of
    one address leaves the cache entry of every other address as it
    was. *)
Theorem getLocation_other_addresses a b self rt :
  a <> "" -> b <> a ->
  LocationManager.cache (LocationManager.getLocation (Some a) self rt).1.2
    !! LocationManager.cacheKey (Str b)
  = LocationManager.cache self !! LocationManager.cacheKey (Str b).
Proof.
  intros Hne Hab.
  assert (Hkey : LocationManager.cacheKey (Str b) <> LocationManager.cacheKey (Str a))
    by (by intros ?%cacheKey_inj).
  unfold LocationManager.getLocation, LocationManager.targetIp. simpl.
  destruct (String.eqb_spec a ""); [done|]. simpl.
  unfold LocationManager.locate. simpl ToString.
  destruct (LocationManager.isValidIp a); simpl; [|done].
  unfold LocationManager.getCached.
  pose proof (getCached_other_keys (LocationManager.config self) (Date_now (world rt))
                (LocationManager.cacheKey (Str a)) (LocationManager.cache self)
                _ Hkey) as Hframe.
  destruct (Cache.getCached (LocationManager.config self) (Date_now (world rt))
              (LocationManager.cacheKey (Str a)) (LocationManager.cache self))
    as [cached m1]. simpl in Hframe.
  set (self1 := {| LocationManager.config := LocationManager.config self;
                   LocationManager.cache := m1 |}).
  assert (Hloop :
    LocationManager.cache
      (LocationManager.resolveFrom LocationManager.providers (Some a)
         (LocationManager.cacheKey (Str a)) self1 rt).1.2
      !! LocationManager.cacheKey (Str b)
    = LocationManager.cache self !! LocationManager.cacheKey (Str b)).
  { destruct (loc_resolveFrom_run LocationManager.providers (Some a)
                (LocationManager.cacheKey (Str a)) self1 rt)
      as (cnt & _ & _ & Hout).
    destruct (LocationManager.resolveFrom LocationManager.providers (Some a)
                (LocationManager.cacheKey (Str a)) self1 rt)
      as [[[v|e] self'] rt']; simpl in *.
    - destruct Hout as [_ ->]. simpl. unfold Cache.setCached.
      destruct (negb _); simpl; [done|]. by rewrite lookup_insert_ne.
    - by destruct Hout as (_ & -> & _). }
  destruct cached as [v|]; [|exact Hloop].
  destruct (truthy v); [|exact Hloop]. done.
Qed.

End LocationMore.

(** ** More on the validation of address literals *)

Section ValidationMore.
Import JS RegExp Spec.

Lemma includes_allChars_false (q : ascii -> bool) sep s :
  q sep = false -> includes (String sep "") s = true -> allChars q s = false.
Proof.
  intros Hq Hin. destruct (allChars q s) eqn:Hall; [|done].
  rewrite (allChars_no_sep q sep s Hall Hq) in Hin. done.
Qed.

Lemma ipv6Basic_no_dot s : ipv6Basic s = true -> includes "." s = false.
Proof.
  unfold ipv6Basic. intros Hb.
  destruct (includes "." s) eqn:Hdot; [|done].
  rewrite (includes_allChars_false _ "." s) in Hb; [done|done|done].
Qed.

(** X15. On strings with a dot, the manual validation of [IpManager] is
    exact: it accepts such a string if and only if it is four
    dot-separated decimal octets, each in [0,255] and written
    canonically (no leading zero). *)
Theorem fallback_ipv4_exact s :
  includes "." s = true ->
  IpManager.fallbackIpValidation s = ipv4Literal s.
Proof.
  intros Hdot. rewrite fallbackIpValidation_spec.
  destruct (ipv6Basic s) eqn:Hb; [|by rewrite orb_false_r].
  apply ipv6Basic_no_dot in Hb. congruence.
Qed.

(** X16. What the manual validation never accepts: the empty string, a
    string with a character other than a hexadecimal digit, a colon or
    a dot, and a string that has both a dot and a colon (so the dotted
    form of an IPv4-mapped address, ["::ffff:192.168.1.1"], is
    rejected). *)
Theorem fallback_never_accepts s :
  IpManager.fallbackIpValidation s = true ->
  s <> "" /\
  allChars (fun c => isHexDigit c || Ascii.eqb c ":" || Ascii.eqb c ".") s = true /\
  (includes "." s = false \/ includes ":" s = false).
Proof.
  rewrite fallbackIpValidation_spec. intros [Hv4|Hv6]%orb_true_iff.
  - pose proof (ipv4Literal_no_colon _ Hv4) as Hcolon.
    apply ipv4Literal_regex, test_ipv4Regex in Hv4
      as (a & b & c & d & -> & Ha & Hb & Hc & Hd).
    split; [|split; [|by right]].
    + destruct a; [done|]. by rewrite app_cons'.
    + assert (Hg : forall g, digitGroup g = true ->
        allChars (fun c => isHexDigit c || Ascii.eqb c ":" || Ascii.eqb c ".") g = true).
      { intros g [_ Hall]%andb_true_iff.
        apply (allChars_weaken isDigit); [|done].
        intros ch Hch. unfold isHexDigit. by rewrite Hch. }
      rewrite !allChars_app. cbn [allChars]. rewrite !allChars_app. cbn [allChars].
      rewrite !allChars_app. cbn [allChars].
      by rewrite (Hg a), (Hg b), (Hg c), (Hg d).
  - pose proof (ipv6Basic_no_dot _ Hv6) as Hdot.
    unfold ipv6Basic in Hv6.
    apply andb_true_iff in Hv6 as [[[[Hall Hlo]%andb_true_iff _]%andb_true_iff _]%andb_true_iff _].
    split; [|split; [|by left]].
    + intros ->. done.
    + apply (allChars_weaken (fun c => isHexDigit c || Ascii.eqb c ":")); [|done].
      intros ch ->. done.
Qed.

(** *** The patterns of [LocationManager] *)

Lemma lang_cat_assoc a b c s :
  lang (Cat (Cat a b) c) s <-> lang (Cat a (Cat b c)) s.
Proof.
  simpl. split.
  - intros (s12 & s3 & -> & (s1 & s2 & -> & Ha & Hb) & Hc).
    exists s1, (s2 +:+ s3). rewrite app_assoc'. repeat split; [done|].
    by exists s2, s3.
  - intros (s1 & s23 & -> & Ha & (s2 & s3 & -> & Hb & Hc)).
    exists (s1 +:+ s2), s3. rewrite app_assoc'. repeat split; [|done].
    by exists s1, s2.
Qed.

(** A group: between [lo] and [hi] characters, all satisfying [p]. *)
Lemma split_cons_inv sep s g p ps :
  split sep s = g :: p :: ps ->
  exists rest, s = g +:+ String sep rest /\ split sep rest = p :: ps.
Proof.
  revert g. induction s as [|c s IH]; intros g; [done|]. simpl.
  destruct (Ascii.eqb_spec c sep) as [->|Hne].
  - intros [= <- Hs]. by exists s.
  - destruct (split sep s) as [|q qs] eqn:Hs; [done|].
    intros [= <- ->]. destruct (IH q eq_refl) as (rest & -> & Hrest).
    by exists rest.
Qed.

Lemma test_groups p sep lo hi n s :
  p sep = false -> (lo <= hi)%nat ->
  test (Cat (Times n (Cat (Range lo hi (Class p)) (Chr sep)))
            (Range lo hi (Class p))) s =
  (length (split sep s) =? Datatypes.S n)%nat &&
  forallb (fun g => (lo <=? String.length g)%nat && (String.length g <=? hi)%nat
                    && allChars p g) (split sep s).
Proof.
  intros Hsep Hle. apply eq_true_iff_eq. unfold test. rewrite matches_lang.
  set (grp := fun g => (lo <=? String.length g)%nat && (String.length g <=? hi)%nat
                       && allChars p g).
  assert (Hgrp : forall g, lang (Range lo hi (Class p)) g <-> grp g = true).
  { intros g. rewrite lang_range by done. unfold grp.
    rewrite !andb_true_iff, !Nat.leb_le. tauto. }
  assert (Hnosep : forall g, grp g = true -> includes (String sep "") g = false).
  { intros g [_ Hall]%andb_true_iff. by apply (allChars_no_sep p). }
  revert s. induction n as [|n IH]; intros s.
  - change (Times 0 (Cat (Range lo hi (Class p)) (Chr sep))) with Eps.
    rewrite andb_true_iff, Nat.eqb_eq. split.
    + intros (s1 & s2 & -> & -> & Hg%Hgrp). rewrite app_nil_l'.
      rewrite (split_no_sep _ _ (Hnosep _ Hg)). simpl. by rewrite Hg.
    + intros [Hlen Hall]. rewrite <- (join_split sep s).
      destruct (split sep s) as [|g [|? ?]]; try done.
      simpl in Hall. rewrite andb_true_r in Hall.
      exists "", g. repeat split. by apply Hgrp.
  - change (Times (Datatypes.S n) (Cat (Range lo hi (Class p)) (Chr sep)))
      with (Cat (Cat (Range lo hi (Class p)) (Chr sep))
                (Times n (Cat (Range lo hi (Class p)) (Chr sep)))).
    rewrite lang_cat_assoc, lang_cat_assoc.
    rewrite andb_true_iff, Nat.eqb_eq. split.
    + intros (g & s2 & -> & Hg%Hgrp & (d & rest & -> & ->%lang_chr & Hrest)).
      apply matches_lang in Hrest. fold (test (Cat (Times n (Cat (Range lo hi (Class p)) (Chr sep))) (Range lo hi (Class p))) rest) in Hrest.
      unfold test in Hrest. apply matches_lang, IH in Hrest.
      apply andb_true_iff in Hrest as [Hlen%Nat.eqb_eq Hall].
      rewrite app_cons', app_nil_l'.
      rewrite (split_app_sep _ _ _ (Hnosep _ Hg)). simpl.
      rewrite Hlen. split; [done|]. by rewrite Hg, Hall.
    + intros [Hlen Hall].
      destruct (split sep s) as [|g [|q qs]] eqn:Hs; try done.
      destruct (split_cons_inv _ _ _ _ _ Hs) as (rest & -> & Hrest).
      cbn [forallb] in Hall. apply andb_true_iff in Hall as [Hg Hall].
      exists g, (String sep rest). repeat split; [by apply Hgrp|].
      exists (String sep ""), rest. repeat split; [by apply lang_chr|].
      apply IH. rewrite Hrest. apply andb_true_iff. split; [|done].
      apply Nat.eqb_eq. simpl in Hlen. simpl. lia.
Qed.

Lemma includes_double_empty_part sep s :
  includes (String sep (String sep "")) s = true -> In "" (tail (split sep s)).
Proof.
  induction s as [|c s IH]; [done|].
  cbn [includes]. intros [Hst|Hin]%orb_true_iff.
  - cbn [startsWith] in Hst.
    destruct (Ascii.eqb_spec sep c) as [<-|]; [|done].
    destruct s as [|c' s']; [done|].
    destruct (Ascii.eqb_spec sep c') as [<-|]; [|done].
    rewrite !split_cons_sep. by left.
  - specialize (IH Hin). simpl.
    destruct (Ascii.eqb c sep).
    + simpl. destruct (split sep s); [done|]. by right.
    + by destruct (split sep s).
Qed.

(** X17. The parameter check of [LocationManager] is purely a matter of
    shape: it accepts a string exactly when it is four dot-separated
    groups of one to three digits, or eight colon-separated groups of
    one to four hexadecimal digits. So it refuses every compressed IPv6
    address (any string with [::], the loopback ["::1"] included). *)
Theorem locationManager_isValidIp_shape s :
  LocationManager.isValidIp s =
    ((length (split "." s) =? 4)%nat && forallb digitGroup (split "." s)) ||
    ((length (split ":" s) =? 8)%nat && forallb hexGroup (split ":" s)) /\
  (includes "::" s = true -> LocationManager.isValidIp s = false).
Proof.
  assert (Heq : LocationManager.isValidIp s =
    ((length (split "." s) =? 4)%nat && forallb digitGroup (split "." s)) ||
    ((length (split ":" s) =? 8)%nat && forallb hexGroup (split ":" s))).
  { unfold LocationManager.isValidIp, LocationManager.ipv4Regex,
      LocationManager.ipv6Regex, Digit, Hex.
    by rewrite !test_groups by (done || lia). }
  split; [done|]. intros Hdouble. rewrite Heq. apply orb_false_iff. split.
  - destruct (forallb digitGroup (split "." s)) eqn:Hall; [|by rewrite andb_false_r].
    exfalso. rewrite forallb_forall in Hall.
    assert (Hdig : allChars (fun c => isDigit c || Ascii.eqb c ".") s = true).
    { rewrite <- (join_split "." s).
      assert (Hparts : Forall (fun g => allChars isDigit g = true) (split "." s)).
      { apply Forall_forall. intros g Hg%list_elem_of_In.
        by apply Hall, andb_true_iff in Hg as [_ ?]. }
      clear -Hparts. induction Hparts as [|g gs Hg _ IH]; [done|].
      assert (Hg' : allChars (fun c => isDigit c || Ascii.eqb c ".") g = true).
      { apply (allChars_weaken isDigit); [|done]. by intros ch ->. }
      destruct gs as [|g' gs']; [done|].
      change (join "." (g :: g' :: gs')) with (g +:+ String "." (join "." (g' :: gs'))).
      rewrite allChars_app. cbn [allChars]. by rewrite Hg', IH. }
    apply (allChars_no_sep _ ":") in Hdig; [|done].
    assert (Hno : forall t, includes ":" t = false -> includes "::" t = false).
    { induction t as [|c t IHt]; [done|].
      rewrite includes_char_cons. intros [Hc Ht]%orb_false_elim.
      cbn [includes startsWith]. rewrite Hc. by apply IHt. }
    rewrite (Hno _ Hdig) in Hdouble. done.
  - destruct (forallb hexGroup (split ":" s)) eqn:Hall; [|by rewrite andb_false_r].
    exfalso. rewrite forallb_forall in Hall.
    apply includes_double_empty_part in Hdouble.
    assert (Hin : In "" (split ":" s)).
    { destruct (split ":" s); [done|]. by right. }
    by apply Hall in Hin.
Qed.
End ValidationMore.

(** ** More on the client address *)

Section ClientIpMore.
Import JS IpManager.

(** The direct address once an ["::ffff:"] prefix is taken off. *)
Lemma getClientIp_direct_unwrapped req a :
  directAddress req = Some a -> a <> "" -> a <> "::1" ->
  let a' := if startsWith "::ffff:" a then replace "::ffff:" "" a else a in
  a' <> "" -> a' <> "::1" ->
  getClientIp req = Normal (stripPort a').
Proof.
  intros Hd Hne Hlo a' Hne' Hlo'. unfold getClientIp. rewrite Hd.
  rewrite bool_decide_eq_false_2 by congruence.
  assert (Ht : truthyStr (Some a) = true).
  { simpl. by destruct (String.eqb_spec a ""). }
  rewrite Ht. cbn [andb].
  assert (Hip1 : (if startsWith "::ffff:" a
                  then Some (replace "::ffff:" "" a) else Some a) = Some a').
  { subst a'. by destruct (startsWith "::ffff:" a). }
  rewrite Hip1, (unusable_false a' Hne' Hlo'). cbn iota.
  by rewrite (unusable_false a' Hne' Hlo').
Qed.

(** X19. The direct address wins over every header: when the request
    carries a usable direct address (not empty, not ["::1"], and still
    so once an ["::ffff:"] prefix is taken off), two requests with that
    same direct address get the same answer whatever their headers, and
    [getClientIp] does not throw, not even on headers that are arrays. *)
Theorem getClientIp_direct_address_wins req req' a :
  directAddress req = Some a -> directAddress req' = Some a ->
  a <> "" -> a <> "::1" ->
  (if startsWith "::ffff:" a then replace "::ffff:" "" a else a) <> "" ->
  (if startsWith "::ffff:" a then replace "::ffff:" "" a else a) <> "::1" ->
  getClientIp req = getClientIp req' /\
  exists s, getClientIp req = Normal s.
Proof.
  intros Hd Hd' Hne Hlo Hne' Hlo'.
  rewrite (getClientIp_direct_unwrapped req a), (getClientIp_direct_unwrapped req' a)
    by done.
  split; [done|]. by eexists.
Qed.

Lemma ip1_falsy req :
  truthyStr (directAddress req) = false ->
  match directAddress req with
  | Some a => if truthyStr (directAddress req) && startsWith "::ffff:" a
              then Some (replace "::ffff:" "" a)
              else directAddress req
  | None => directAddress req
  end = directAddress req.
Proof. intros Hd. rewrite Hd. by destruct (directAddress req). Qed.

(** *** What [trim] removes *)

Lemma trimStart_space l t :
  Spec.allChars isWhiteSpace l = true -> trimStart (l +:+ t) = trimStart t.
Proof.
  induction l as [|c l IH]; [done|].
  simpl. intros [Hc Hl]%andb_true_iff. rewrite Hc. by apply IH.
Qed.

Lemma trimStart_all_space r :
  Spec.allChars isWhiteSpace r = true -> trimStart r = "".
Proof.
  intros Hr. rewrite <- (app_nil_r' r). by rewrite trimStart_space.
Qed.

Lemma trimEnd_all_space r :
  Spec.allChars isWhiteSpace r = true -> trimEnd r = "".
Proof.
  induction r as [|c r IH]; [done|].
  simpl. intros [Hc Hr]%andb_true_iff. by rewrite (IH Hr), Hc.
Qed.

Lemma trimEnd_space e r c :
  Spec.lastChar e = Some c -> isWhiteSpace c = false ->
  Spec.allChars isWhiteSpace r = true ->
  trimEnd (e +:+ r) = e.
Proof.
  intros Hlast Hc Hr. induction e as [|a e IH]; [done|].
  rewrite app_cons'. destruct e as [|b e].
  - injection Hlast as ->. rewrite app_nil_l'. simpl.
    by rewrite (trimEnd_all_space r Hr), Hc.
  - change (Spec.lastChar (String a (String b e)))
      with (Spec.lastChar (String b e)) in Hlast.
    change (trimEnd (String a (String b e +:+ r)))
      with (match trimEnd (String b e +:+ r) with
            | EmptyString => if isWhiteSpace a then EmptyString
                             else String a EmptyString
            | t => String a t
            end).
    by rewrite (IH Hlast).
Qed.

(** [trim] removes the white space around a text that neither begins
    nor ends with white space, and nothing else. *)
Lemma trim_padded l e r :
  Spec.allChars isWhiteSpace l = true ->
  Spec.allChars isWhiteSpace r = true ->
  Spec.trimmed e = true ->
  trim (l +:+ e +:+ r) = e.
Proof.
  intros Hl Hr [Hhead Hlast]%andb_true_iff. unfold trim.
  rewrite (trimStart_space l _ Hl).
  destruct e as [|a e].
  - rewrite app_nil_l', (trimStart_all_space r Hr). done.
  - apply negb_true_iff in Hhead. apply negb_true_iff in Hlast.
    rewrite app_cons'. cbn [trimStart]. rewrite Hhead, <- app_cons'.
    destruct (Spec.lastChar (String a e)) as [c|] eqn:Hc.
    + by apply (trimEnd_space _ _ c).
    + exfalso. clear -Hc. revert a Hc.
      induction e as [|b e IH]; intros a Hc; [done|].
      apply (IH b). exact Hc.
Qed.

(** The first entry of a forwarded list: the text before the first
    comma without the white space around it. *)
Lemma firstForwarded_entry l e r tail :
  Spec.allChars isWhiteSpace l = true ->
  Spec.allChars isWhiteSpace r = true ->
  Spec.trimmed e = true ->
  includes "," e = false ->
  tail = "" \/ (exists rest, tail = String "," rest) ->
  firstForwarded (l +:+ e +:+ r +:+ tail) = e.
Proof.
  intros Hl Hr He Hcomma Htail.
  assert (Hsp : forall t, Spec.allChars isWhiteSpace t = true ->
                          includes "," t = false).
  { intros t Ht. apply (allChars_no_sep isWhiteSpace); done. }
  assert (Hno : includes "," (l +:+ e +:+ r) = false).
  { destruct (includes "," (l +:+ e +:+ r)) eqn:Hin; [|done].
    exfalso.
    assert (Hq : Spec.allChars (fun c => negb (Ascii.eqb c ",")) (l +:+ e +:+ r)
                 = true).
    { assert (Hconv : forall w, includes "," w = false ->
                Spec.allChars (fun c => negb (Ascii.eqb c ",")) w = true).
      { intros w. induction w as [|c w IH]; [done|].
        rewrite includes_char_cons. intros [Hc Hw]%orb_false_elim.
        simpl. rewrite (IH Hw), andb_true_r.
        by rewrite Ascii.eqb_sym, Hc. }
      rewrite !allChars_app.
      by rewrite (Hconv l (Hsp l Hl)), (Hconv e Hcomma), (Hconv r (Hsp r Hr)). }
    rewrite (allChars_no_sep _ "," _ Hq) in Hin; [done|].
    by rewrite Ascii.eqb_refl. }
  unfold firstForwarded.
  assert (Hfirst : first (split "," (l +:+ e +:+ r +:+ tail))
                   = Some (l +:+ e +:+ r)).
  { destruct Htail as [->|[rest ->]].
    - rewrite app_nil_r'. by rewrite (split_no_sep _ _ Hno).
    - replace (l +:+ e +:+ r +:+ String "," rest)
        with ((l +:+ e +:+ r) +:+ String "," rest)
        by (by rewrite !app_assoc').
      by rewrite (split_app_sep _ _ _ Hno). }
  rewrite Hfirst. simpl. by apply trim_padded.
Qed.

(** X20. The order of the headers when there is no usable direct
    address: the first entry of [x-forwarded-for], if it is usable,
    decides, whatever [x-real-ip] and [x-client-ip] say; without
    [x-forwarded-for], a non-empty [x-real-ip] decides whatever
    [x-client-ip] says; and [x-client-ip] is used only when [x-real-ip]
    is missing or empty. Each time the answer is the chosen value cut at
    its first colon. The first entry of [x-forwarded-for] is the text
    before the first comma with the white space around it removed (the
    no-break space included): for a header, or a first array element,
    made of white space, an entry that neither begins nor ends with
    white space and has no comma, white space again, and then nothing
    or a comma and more, the answer is that entry cut at its first
    colon. *)
Theorem getClientIp_header_order req :
  truthyStr (directAddress req) = false ->
  (forall x, headers req !! "x-forwarded-for" = Some (HString x) ->
             firstForwarded x <> "" -> firstForwarded x <> "::1" ->
             getClientIp req = Normal (stripPort (firstForwarded x))) /\
  (forall x xs, headers req !! "x-forwarded-for" = Some (HArray (x :: xs)) ->
             firstForwarded x <> "" -> firstForwarded x <> "::1" ->
             getClientIp req = Normal (stripPort (firstForwarded x))) /\
  (forall l e r tail,
             Spec.allChars isWhiteSpace l = true ->
             Spec.allChars isWhiteSpace r = true ->
             Spec.trimmed e = true -> includes "," e = false ->
             tail = "" \/ (exists rest, tail = String "," rest) ->
             e <> "" -> e <> "::1" ->
             headers req !! "x-forwarded-for" = Some (HString (l +:+ e +:+ r +:+ tail))
             \/ (exists xs, headers req !! "x-forwarded-for"
                            = Some (HArray ((l +:+ e +:+ r +:+ tail) :: xs))) ->
             getClientIp req = Normal (stripPort e)) /\
  (forall r, headers req !! "x-forwarded-for" = None ->
             headers req !! "x-real-ip" = Some (HString r) -> r <> "" ->
             getClientIp req = Normal (stripPort r)) /\
  (forall c, headers req !! "x-forwarded-for" = None ->
             truthyHeader (headers req !! "x-real-ip") = false ->
             headers req !! "x-client-ip" = Some (HString c) -> c <> "" ->
             getClientIp req = Normal (stripPort c)).
Proof.
  intros Hd.
  assert (Hnot : bool_decide (directAddress req = Some "::1") = false).
  { apply bool_decide_eq_false_2. intros E. by rewrite E in Hd. }
  assert (Hstr : forall x, headers req !! "x-forwarded-for" = Some (HString x) ->
             firstForwarded x <> "" -> firstForwarded x <> "::1" ->
             getClientIp req = Normal (stripPort (firstForwarded x))).
  { intros x Hx Hne Hlo. unfold getClientIp.
    rewrite Hnot, (ip1_falsy _ Hd), (unusable_falsy _ Hd), Hx. cbn iota.
    by rewrite (unusable_false _ Hne Hlo). }
  assert (Harr : forall x xs,
             headers req !! "x-forwarded-for" = Some (HArray (x :: xs)) ->
             firstForwarded x <> "" -> firstForwarded x <> "::1" ->
             getClientIp req = Normal (stripPort (firstForwarded x))).
  { intros x xs Hx Hne Hlo. unfold getClientIp.
    rewrite Hnot, (ip1_falsy _ Hd), (unusable_falsy _ Hd), Hx. cbn.
    by rewrite (unusable_false _ Hne Hlo). }
  split; [exact Hstr|]. split; [exact Harr|]. split; [|split].
  - intros l e r tail Hl Hr He Hcomma Htail Hne Hlo Hx.
    pose proof (firstForwarded_entry l e r tail Hl Hr He Hcomma Htail) as Hff.
    destruct Hx as [Hx|[xs Hx]].
    + rewrite <- Hff at 1. apply Hstr; [done|by rewrite Hff..].
    + rewrite <- Hff at 1. apply (Harr _ xs); [done|by rewrite Hff..].
  - intros r Hxff Hreal Hne. by apply getClientIp_real_ip.
  - intros c Hxff Hreal Hclient Hne. unfold getClientIp.
    rewrite Hnot, (ip1_falsy _ Hd), (unusable_falsy _ Hd), Hxff. cbn iota.
    rewrite (unusable_falsy _ Hd), Hreal, Hclient. simpl.
    by destruct (String.eqb_spec c "").
Qed.

(** X21. An unusable first entry of [x-forwarded-for] (empty, or
    ["::1"]) is passed over: the answer is then taken from [x-real-ip],
    [x-client-ip] or the sentinel, as if [x-forwarded-for] were not
    there. *)
Theorem getClientIp_unusable_forwarded req x :
  truthyStr (directAddress req) = false ->
  headers req !! "x-forwarded-for" = Some (HString x) ->
  firstForwarded x = "" \/ firstForwarded x = "::1" ->
  getClientIp req =
  getClientIp {| ip := None; connection := None; socket := None;
                 headers := delete "x-forwarded-for" (headers req) |}.
Proof.
  intros Hd Hx Hbad.
  assert (Hnot : bool_decide (directAddress req = Some "::1") = false).
  { apply bool_decide_eq_false_2. intros E. by rewrite E in Hd. }
  unfold getClientIp at 1.
  rewrite Hnot, (ip1_falsy _ Hd), (unusable_falsy _ Hd), Hx. cbn iota.
  assert (Hun : unusable (Some (firstForwarded x)) = true).
  { by destruct Hbad as [-> | ->]. }
  rewrite Hun. unfold getClientIp. simpl.
  rewrite lookup_delete_eq. simpl.
  by rewrite !lookup_delete_ne by done.
Qed.
End ClientIpMore.

(** ** More on the aggregations *)

Section AggregationMore.
Import JS NetworkService.

(** X22. The health check never fails as a whole: on every platform it
    makes exactly two requests - to the address service, then to the
    geolocation service - and answers with [success] true and
    [networkInfo] true, the two other flags telling which request was
    answered; this even when both services are down. *)
Theorem healthCheck_always_succeeds `{Platform} (rt : Runtime) now :
  let first := http_get "https://api.ipify.org" 5000 rt in
  let second := http_get "https://ipapi.co/json/" 5000 first.2 in
  exists ipOk geoOk,
    healthCheck rt now =
      (Normal {| success := true;
                 data := Some {| ipServices := ipOk;
                                 geolocationServices := geoOk;
                                 networkInfo := true |};
                 error := None; timestamp := now |}, second.2) /\
    requests second.2 =
      requests rt ++ ["https://api.ipify.org"; "https://ipapi.co/json/"] /\
    (ipOk = true <-> exists body, first.1 = Resolved body) /\
    (geoOk = true <-> exists body, second.1 = Resolved body).
Proof.
  intros first second. subst first second.
  unfold healthCheck, IpManager.healthCheck, LocationManager.healthCheck.
  destruct (http_get "https://api.ipify.org" 5000 rt) as [res1 rt1] eqn:H1.
  pose proof (http_get_requests _ _ _ _ _ H1) as Hr1.
  destruct res1 as [b1|e1]; simpl;
    destruct (http_get "https://ipapi.co/json/" 5000 rt1) as [res2 rt2] eqn:H2;
    pose proof (http_get_requests _ _ _ _ _ H2) as Hr2;
    destruct res2 as [b2|e2]; simpl; eexists _, _;
    (split; [reflexivity|]);
    (split; [by rewrite Hr2, Hr1, <- app_assoc|]);
    split; split; try done; try (by eexists); by intros [? [=]].
Qed.
End AggregationMore.

(** ** The network manager *)

Section NetworkManagerFacts.
Import JS NetworkManager.




Lemma pushExternal_spec arr : forall acc,
  pushExternal acc arr =
  acc ++ map address
           (List.filter (fun i => negb (internal i) && String.eqb (family i) "IPv4") arr).
Proof.
  unfold pushExternal. induction arr as [|i arr IH]; intros acc; simpl.
  - by rewrite app_nil_r.
  - destruct (negb (internal i) && String.eqb (family i) "IPv4"); simpl.
    + rewrite IH. by rewrite <- app_assoc.
    + apply IH.
Qed.

Lemma fold_pushExternal arrs : forall acc,
  fold_left pushExternal arrs acc =
  acc ++ map address
           (List.filter (fun i => negb (internal i) && String.eqb (family i) "IPv4")
              (concat arrs)).
Proof.
  induction arrs as [|arr arrs IH]; intros acc; simpl.
  - by rewrite app_nil_r.
  - rewrite IH, pushExternal_spec, List.filter_app, map_app. by rewrite <- app_assoc.
Qed.

(** X24. The external addresses are the addresses of the entries that
    are not internal and whose family is ["IPv4"], taken from the
    interfaces that [getInterfaces] reports, interface by interface and
    in order; the call leaves the manager in the state [getInterfaces]
    leaves it. *)
Theorem getExternalAddresses_spec self now os :
  (getExternalAddresses self now os).1 =
    map address
      (List.filter (fun i => negb (internal i) && String.eqb (family i) "IPv4")
         (concat (map snd (getInterfaces self now os).1))) /\
  (getExternalAddresses self now os).2 = (getInterfaces self now os).2.
Proof.
  unfold getExternalAddresses.
  destruct (getInterfaces self now os) as [ifs self1]. simpl.
  by rewrite fold_pushExternal.
Qed.

Lemma countOne_spec arr : forall c,
  countOne c arr =
  ((c.1 + length (List.filter (fun i => negb (internal i)) arr))%nat,
   (c.2 + length (List.filter internal arr))%nat).
Proof.
  unfold countOne. induction arr as [|i arr IH]; intros [e n]; simpl.
  - f_equal; lia.
  - rewrite IH. destruct (internal i); simpl; f_equal; lia.
Qed.

Lemma fold_countOne arrs : forall c,
  fold_left countOne arrs c =
  ((c.1 + length (List.filter (fun i => negb (internal i)) (concat arrs)))%nat,
   (c.2 + length (List.filter internal (concat arrs)))%nat).
Proof.
  induction arrs as [|arr arrs IH]; intros [e n]; simpl.
  - f_equal; lia.
  - rewrite IH, countOne_spec. simpl.
    rewrite !List.filter_app, !length_app. f_equal; lia.
Qed.

Lemma filter_length_le {A} (f g : A -> bool) l :
  (forall x, f x = true -> g x = true) ->
  (length (List.filter f l) <= length (List.filter g l))%nat.
Proof.
  intros Hfg. induction l as [|x l IH]; simpl; [done|].
  destruct (f x) eqn:Hf.
  - rewrite (Hfg _ Hf). simpl. lia.
  - destruct (g x); simpl; lia.
Qed.

Lemma filter_partition_length {A} (f : A -> bool) l :
  (length (List.filter (fun x => negb (f x)) l) + length (List.filter f l))%nat
  = length l.
Proof.
  induction l as [|x l IH]; simpl; [done|]. destruct (f x); simpl; lia.
Qed.

(** X25. The statistics add up: the external and the internal count
    together are the number of entries of all interfaces, the number of
    interfaces is the number of names, and the external count (which
    counts every family) is never below the number of external
    addresses (IPv4 only). *)
Theorem getNetworkStats_adds_up self now os :
  let stats := (getNetworkStats self now os).1 in
  let ifs := (getInterfaces self now os).1 in
  totalInterfaces stats = length ifs /\
  (externalAddresses stats + internalAddresses stats)%nat
    = length (concat (map snd ifs)) /\
  (length (getExternalAddresses self now os).1 <= externalAddresses stats)%nat.
Proof.
  intros stats ifs. subst stats ifs.
  unfold getNetworkStats, getExternalAddresses.
  destruct (getInterfaces self now os) as [ifs self1]. simpl.
  rewrite fold_countOne, fold_pushExternal. simpl.
  split; [done|]. split.
  - apply filter_partition_length.
  - rewrite length_map. apply filter_length_le.
    by intros x [? _]%andb_true_iff.
Qed.

End NetworkManagerFacts.

Section NetworkManagerCache.

(** X26. With caching enabled, the interfaces are read from the
    operating system once and then served from the cache for 60000 ms,
    whatever time to live is configured: a call that finds no entry
    reads the OS; a later call not more than 60000 ms after it returns
    the same object without looking at the OS again; a call after that
    reads the OS anew. *)
Theorem getInterfaces_cached_for_a_minute self now os :
  enabled (cache (NetworkManager.config self)) = true ->
  NetworkManager.cache self !! NetworkManager.cacheKey = None ->
  let first := NetworkManager.getInterfaces self now os in
  first.1 = NetworkManager.collect os /\
  (forall later os', later - now <= 60000 ->
     NetworkManager.getInterfaces first.2 later os'
     = (NetworkManager.collect os, first.2)) /\
  (forall later os', later - now > 60000 ->
     (NetworkManager.getInterfaces first.2 later os').1
     = NetworkManager.collect os').
Proof.
  intros He Hk first.
  set (e := {| entry_data := NetworkManager.collect os; entry_timestamp := now;
               entry_ttl := 60000 |}).
  set (self2 := NetworkManager.setCached
                  {| NetworkManager.config := NetworkManager.config self;
                     NetworkManager.cache := NetworkManager.cache self |}
                  now NetworkManager.cacheKey
                  (NetworkManager.collect os) (Some 60000)).
  assert (Hfirst : first = (NetworkManager.collect os, self2)).
  { subst first. unfold NetworkManager.getInterfaces, NetworkManager.getCached.
    by rewrite getCached_absent. }
  assert (Hstored : NetworkManager.cache self2 !! NetworkManager.cacheKey = Some e).
  { subst self2. simpl. rewrite setCached_enabled by done. apply lookup_insert_eq. }
  rewrite Hfirst. simpl. split; [done|]. split.
  - intros later os' Hage.
    unfold NetworkManager.getInterfaces, NetworkManager.getCached.
    rewrite (getCached_live _ _ _ _ e); [|done|exact Hstored|simpl; lia].
    reflexivity.
  - intros later os' Hage.
    unfold NetworkManager.getInterfaces, NetworkManager.getCached.
    rewrite (getCached_expired _ _ _ _ e); [|done|exact Hstored|simpl; lia].
    reflexivity.
Qed.
End NetworkManagerCache.

(** ** The service object *)

Section ServiceFacts.
Import JS.

(** [x || d] on a number and on a string: the value given when it is
    given and truthy, the default otherwise. *)
Lemma orNum_given n d : n <> 0 -> Service.orNum (Some n) d = n.
Proof. intros Hn. simpl. by destruct (Z.eqb_spec n 0). Qed.

Lemma orNum_default x d : x = None \/ x = Some 0 -> Service.orNum x d = d.
Proof. by intros [-> | ->]. Qed.

Lemma orStr_given s d : s <> "" -> Service.orStr (Some s) d = s.
Proof. intros Hs. simpl. by destruct (String.eqb_spec s ""). Qed.

Lemma orStr_default x d : x = None \/ x = Some "" -> Service.orStr x d = d.
Proof. by intros [-> | ->]. Qed.

(** X27. The configuration the constructor builds, setting by setting.
    A timeout, a retry count, a time to live or a URL is the value the
    caller gave when it was given and is not zero or empty, and the
    default (10000, 3, 300000 and the two default URLs) when it is
    missing, zero or empty; so none of them is ever zero or empty, and a
    time to live of 0 cannot be configured this way. The three flags are
    the value the caller gave, [false] included, and [true] when
    missing; so caching is off only when the caller said
    [enabled: false]. Without any argument the configuration is the
    documented default. *)
Theorem resolveConfig_defaults config :
  let c := Service.resolveConfig config in
  let a := config ≫= Service.p_api in
  let ca := config ≫= Service.p_cache in
  let f := config ≫= Service.p_features in
  timeout (api c) <> 0 /\ retries (api c) <> 0 /\ ttl (cache c) <> 0 /\
  ipifyUrl (api c) <> "" /\ geolocationUrl (api c) <> "" /\
  (enabled (cache c) = false <->
   (config ≫= Service.p_cache) ≫= Service.p_enabled = Some false) /\
  ((forall n, a ≫= Service.p_timeout = Some n -> n <> 0 -> timeout (api c) = n) /\
   (a ≫= Service.p_timeout = None \/ a ≫= Service.p_timeout = Some 0 ->
    timeout (api c) = 10000)) /\
  ((forall n, a ≫= Service.p_retries = Some n -> n <> 0 -> retries (api c) = n) /\
   (a ≫= Service.p_retries = None \/ a ≫= Service.p_retries = Some 0 ->
    retries (api c) = 3)) /\
  ((forall n, ca ≫= Service.p_ttl = Some n -> n <> 0 -> ttl (cache c) = n) /\
   (ca ≫= Service.p_ttl = None \/ ca ≫= Service.p_ttl = Some 0 ->
    ttl (cache c) = 300000)) /\
  ((forall u, a ≫= Service.p_ipifyUrl = Some u -> u <> "" -> ipifyUrl (api c) = u) /\
   (a ≫= Service.p_ipifyUrl = None \/ a ≫= Service.p_ipifyUrl = Some "" ->
    ipifyUrl (api c) = "https://api.ipify.org?format=json")) /\
  ((forall u, a ≫= Service.p_geolocationUrl = Some u -> u <> "" ->
              geolocationUrl (api c) = u) /\
   (a ≫= Service.p_geolocationUrl = None \/ a ≫= Service.p_geolocationUrl = Some "" ->
    geolocationUrl (api c) = "https://ipapi.co")) /\
  enabled (cache c) = default true (ca ≫= Service.p_enabled) /\
  rateLimiting (features c) = default true (f ≫= Service.p_rateLimiting) /\
  fallbackProviders (features c) = default true (f ≫= Service.p_fallbackProviders) /\
  Service.resolveConfig None =
    {| api := {| ipifyUrl := "https://api.ipify.org?format=json";
                 geolocationUrl := "https://ipapi.co";
                 timeout := 10000; retries := 3 |};
       cache := {| enabled := true; ttl := 300000 |};
       features := {| rateLimiting := true; fallbackProviders := true |} |}.
Proof.
  assert (Hnum : forall x d, d <> 0 -> Service.orNum x d <> 0).
  { intros [n|] d Hd; simpl; [|done]. by destruct (Z.eqb_spec n 0). }
  assert (Hstr : forall x d, d <> "" -> Service.orStr x d <> "").
  { intros [s|] d Hd; simpl; [|done]. by destruct (String.eqb_spec s ""). }
  cbn zeta. unfold Service.resolveConfig. cbn [api cache features timeout retries
    ttl ipifyUrl geolocationUrl enabled rateLimiting fallbackProviders].
  split; [by apply Hnum|]. split; [by apply Hnum|]. split; [by apply Hnum|].
  split; [by apply Hstr|]. split; [by apply Hstr|].
  split.
  { unfold Service.nullish.
    by destruct ((config ≫= Service.p_cache) ≫= Service.p_enabled) as [[]|]. }
  repeat split; try done.
  all: try (intros n Hn Hne; rewrite Hn;
            first [by apply orNum_given | by apply orStr_given]).
  all: intros Hx; first [by apply orNum_default | by apply orStr_default].
Qed.

(** X28. Changing the configuration forgets everything cached. Take an
    update as the type [Partial<NetworkInfoConfig>] has it, each section
    it has being a whole one. After [updateConfig] the three managers
    are new ones, with empty caches and, all three, the merged
    configuration, in which each of the sections [api], [cache] and
    [features] is the one of the update when the update has it and the
    old one otherwise; [getConfig] returns that configuration. So the
    next [getPublicIp] goes to the network. [clearCaches] empties the
    three caches too, and keeps the configuration. *)
Theorem updateConfig_forgets_caches `{Platform} svc u (rt : Runtime) :
  let svc' := Service.updateConfig svc u in
  IpManager.cache (Service.ipManager svc') = ∅ /\
  LocationManager.cache (Service.locationManager svc') = ∅ /\
  NetworkManager.cache (Service.networkManager svc') = ∅ /\
  IpManager.config (Service.ipManager svc') = Service.config svc' /\
  LocationManager.config (Service.locationManager svc') = Service.config svc' /\
  NetworkManager.config (Service.networkManager svc') = Service.config svc' /\
  Service.getConfig svc' = Service.config svc' /\
  api (Service.config svc') =
    default (api (Service.config svc)) (Service.u_api u) /\
  cache (Service.config svc') =
    default (cache (Service.config svc)) (Service.u_cache u) /\
  features (Service.config svc') =
    default (features (Service.config svc)) (Service.u_features u) /\
  (exists rest, requests (Service.getPublicIp svc' rt).2 =
                requests rt ++ "https://api.ipify.org?format=json" :: rest) /\
  IpManager.cache (Service.ipManager (Service.clearCaches svc)) = ∅ /\
  LocationManager.cache (Service.locationManager (Service.clearCaches svc)) = ∅ /\
  NetworkManager.cache (Service.networkManager (Service.clearCaches svc)) = ∅ /\
  Service.config (Service.clearCaches svc) = Service.config svc.
Proof.
  intros svc'. repeat split.
  unfold Service.getPublicIp.
  destruct (ip_getPublicIp_absent_requests (Service.ipManager svc') rt eq_refl)
    as [rest Hrest].
  destruct (IpManager.getPublicIp (Service.ipManager svc') rt) as [[res m] rt1].
  by exists rest.
Qed.
End ServiceFacts.

(** ** The routes *)

Section RouteFacts.
Context `{Platform}.
Variable toISOString : Z -> string.
Import JS.

(** X29. [GET /location] asks for the location of the client's address
    as [getClientIp] extracts it. When that address is not empty and
    fails the parameter check of [LocationManager] - the sentinel
    ["unknown"], or an IPv6 address cut at its first colon - the answer
    is status 500 with the error "Invalid IP address: <address>", and no
    request is made. In particular this is the answer when the request
    carries no address at all. *)
Theorem location_route_refuses_client svc req (rt : Runtime) :
  (forall s, IpManager.getClientIp req = Normal s ->
     s <> "" -> LocationManager.isValidIp s = false ->
     Routes.getLocation toISOString svc req rt =
       ({| Routes.status := 500;
           Routes.body := Routes.createErrorResponse ("Invalid IP address: " +:+ s)
                            (toISOString (Date_now (world rt))) |}, svc, rt)) /\
  (truthyStr (IpManager.directAddress req) = false ->
   IpManager.headers req !! "x-forwarded-for" = None ->
   IpManager.truthyHeader (IpManager.headers req !! "x-real-ip") = false ->
   IpManager.truthyHeader (IpManager.headers req !! "x-client-ip") = false ->
   Routes.getLocation toISOString svc req rt =
     ({| Routes.status := 500;
         Routes.body := Routes.createErrorResponse "Invalid IP address: unknown"
                          (toISOString (Date_now (world rt))) |}, svc, rt)).
Proof.
  assert (Hgen : forall s, IpManager.getClientIp req = Normal s ->
     s <> "" -> LocationManager.isValidIp s = false ->
     Routes.getLocation toISOString svc req rt =
       ({| Routes.status := 500;
           Routes.body := Routes.createErrorResponse ("Invalid IP address: " +:+ s)
                            (toISOString (Date_now (world rt))) |}, svc, rt)).
  { intros s Hs Hne Hinv. unfold Routes.getLocation, Service.getClientIp.
    rewrite Hs. unfold Service.getLocation, LocationManager.getLocation,
      LocationManager.targetIp. simpl.
    destruct (String.eqb_spec s ""); [done|]. simpl.
    unfold LocationManager.locate. simpl. rewrite Hinv. simpl.
    by destruct svc. }
  split; [exact Hgen|].
  intros Hd Hxff Hreal Hclient.
  apply (Hgen "unknown"); [|done|by vm_compute].
  unfold IpManager.getClientIp.
  rewrite bool_decide_eq_false_2 by (intros E; by rewrite E in Hd).
  rewrite (ip1_falsy _ Hd), (unusable_falsy _ Hd), Hxff. cbn iota.
  by rewrite (unusable_falsy _ Hd), Hreal, Hclient.
Qed.

End RouteFacts.

Section ForwardFacts.
Import JS.

(** X30. [GET /full] and [GET /health] always answer status 200, also
    when the service reports a failure: the service calls they await
    never throw, so a failed resolution shows only as [success] false in
    a body sent with status 200. *)
Theorem full_and_health_routes_always_200 {I : Type}
    (pIp : NetworkService.Settled string) (pLoc : NetworkService.Settled Value)
    (ifaces : I) addresses (pIpOk pGeoOk : NetworkService.Settled bool) now :
  Routes.status
    (Routes.forward
       (NetworkService.getFullNetworkInfo pIp pLoc ifaces addresses now) now) = 200 /\
  Routes.status
    (Routes.forward (NetworkService.healthCheckOf pIpOk pGeoOk now) now) = 200 /\
  (forall e loc,
     NetworkService.outcome pIp = Throw e ->
     NetworkService.outcome pLoc = Normal loc ->
     success (Routes.body
       (Routes.forward
          (NetworkService.getFullNetworkInfo pIp pLoc ifaces addresses now) now))
     = false).
Proof.
  unfold NetworkService.getFullNetworkInfo, NetworkService.healthCheckOf.
  split; [|split].
  - by destruct (NetworkService.promiseAll pIp pLoc) as [[]|].
  - by destruct (NetworkService.promiseAll pIpOk pGeoOk) as [[]|].
  - intros e loc Hip Hloc. unfold NetworkService.promiseAll. by rewrite Hip, Hloc.
Qed.
End ForwardFacts.

(** ** These properties at concrete inputs *)

Section MoreInstances.
Import JS.

Lemma getCached_fresh_and_local_witness :
  let m : gmap string (CacheEntry string) := {[ "public-ip" := Mock.oldEntry ]} in
  (exists e, m !! "public-ip" = Some e /\ entry_data e = "198.51.100.7" /\
             1000 - entry_timestamp e <= entry_ttl e) /\
  (Cache.getCached (Mock.config true) 400000 "public-ip" m).2 !! "other" = m !! "other".
Proof.
  intros m. split.
  - destruct (getCached_fresh_and_local (Mock.config true) 1000 "public-ip" m)
      as [Hfresh _].
    destruct (Hfresh "198.51.100.7" m eq_refl) as (_ & _ & He). exact He.
  - destruct (getCached_fresh_and_local (Mock.config true) 400000 "public-ip" m)
      as [_ Hlocal].
    apply Hlocal. discriminate.
Defined.

Lemma setCached_roundtrip_with_ttl_witness :
  let m : gmap string (CacheEntry string) := ∅ in
  Cache.getCached (Mock.config true) 300500 "k"
    (Cache.setCached (Mock.config true) 1000 "k" "v" (Some 0) m) =
  (Some "v", Cache.setCached (Mock.config true) 1000 "k" "v" (Some 0) m) /\
  Cache.getCached (Mock.config true) 62000 "k"
    (Cache.setCached (Mock.config true) 1000 "k" "v" (Some 60000) m) =
  (None, delete "k" m).
Proof.
  intros m. split.
  - exact (proj1 (setCached_roundtrip_with_ttl (Mock.config true) 1000 300500
                    "k" "v" (Some 0) m eq_refl)).
  - exact (proj1 (setCached_roundtrip_with_ttl (Mock.config true) 1000 62000
                    "k" "v" (Some 60000) m eq_refl)).
Defined.

Lemma clearCache_removes_witness :
  let m : gmap string (CacheEntry string) := {[ "public-ip" := Mock.oldEntry ]} in
  Cache.clearCache (Some "public-ip") m = delete "public-ip" m /\
  Cache.clearCache (Some "") m = ∅.
Proof.
  intros m.
  destruct (clearCache_removes (Mock.config true) 1000 "public-ip" m)
    as (Hkey & _ & Hempty & _).
  split; [|exact Hempty]. apply Hkey. discriminate.
Defined.

Lemma retry_no_attempt_witness :
  Helpers.retry Mock.alwaysFails Mock.noDelay (Some 0) (Some 100) O =
  (Helpers.RejectedWith None,
   {| Helpers.state := O; Helpers.results := []; Helpers.delays := [] |}).
Proof. apply retry_no_attempt. lia. Defined.

Lemma retry_total_delay_witness :
  (let '(res, run) :=
     Helpers.retry Mock.alwaysFails Mock.noDelay (Some 3) (Some 100) O in
   match res with
   | Helpers.Fulfilled _ =>
       foldr Z.add 0 (Helpers.delays run) =
       100 * (2 ^ (Z.of_nat (Helpers.invocations run) - 1) - 1)
   | Helpers.RejectedWith _ =>
       foldr Z.add 0 (Helpers.delays run) = 100 * (2 ^ (3 - 1) - 1)
   end) /\
  (let '(res, run) :=
     Helpers.retry Sample.thirdTimeLucky Mock.noDelay (Some 5) (Some 100) O in
   match res with
   | Helpers.Fulfilled _ =>
       foldr Z.add 0 (Helpers.delays run) =
       100 * (2 ^ (Z.of_nat (Helpers.invocations run) - 1) - 1)
   | Helpers.RejectedWith _ =>
       foldr Z.add 0 (Helpers.delays run) = 100 * (2 ^ (5 - 1) - 1)
   end).
Proof.
  split.
  - exact (retry_total_delay Mock.alwaysFails Mock.noDelay 3 100 O ltac:(lia)).
  - exact (retry_total_delay Sample.thirdTimeLucky Mock.noDelay 5 100 O ltac:(lia)).
Defined.

Lemma getPublicIp_requests_bounded_witness :
  exists n,
    (n <= 3)%nat /\
    requests (IpManager.getPublicIp (Mock.ipManager true ∅)
                (Mock.start [Mock.failure; Mock.okIp] 1000)).2 =
      [] ++ take n IpManager.providers /\
    forall k, k <> IpManager.cacheKey ->
      IpManager.cache (IpManager.getPublicIp (Mock.ipManager true ∅)
                         (Mock.start [Mock.failure; Mock.okIp] 1000)).1.2 !! k =
      (∅ : gmap string (CacheEntry string)) !! k.
Proof.
  exact (getPublicIp_requests_bounded (Mock.ipManager true ∅)
           (Mock.start [Mock.failure; Mock.okIp] 1000)).
Defined.

Lemma getPublicIp_second_call_cached_witness :
  let self' := Mock.ipManager true
                 {[ "public-ip" := {| entry_data := "192.168.1.2";
                                      entry_timestamp := 1012;
                                      entry_ttl := 300000 |} ]} in
  let rt' := Mock.after [] 1012 [ "https://api.ipify.org?format=json";
                                  "https://api64.ipify.org?format=json" ] in
  IpManager.getPublicIp self' rt' = (Normal "192.168.1.2", self', rt').
Proof.
  intros self' rt'.
  apply (getPublicIp_second_call_cached (Mock.ipManager true ∅)
           (Mock.start [Mock.failure; Mock.okIp] 1000)).
  - reflexivity.
  - simpl. lia.
  - reflexivity.
  - reflexivity.
Defined.

Lemma getPublicIp_goes_to_network_witness :
  (exists rest,
     requests (IpManager.getPublicIp (Mock.ipManager false ∅)
                 (Mock.start [Mock.okIp] 1000)).2 =
     [] ++ "https://api.ipify.org?format=json" :: rest) /\
  (exists rest,
     requests (IpManager.getPublicIp
                 (IpManager.clearCache
                    (Mock.ipManager true {[ "public-ip" := Mock.oldEntry ]})
                    (Some "public-ip"))
                 (Mock.start [Mock.okIp] 1000)).2 =
     [] ++ "https://api.ipify.org?format=json" :: rest).
Proof.
  split.
  - apply (proj1 (getPublicIp_goes_to_network (Mock.ipManager false ∅)
                    (Mock.start [Mock.okIp] 1000))). reflexivity.
  - apply (proj2 (getPublicIp_goes_to_network
                    (Mock.ipManager true {[ "public-ip" := Mock.oldEntry ]})
                    (Mock.start [Mock.okIp] 1000))). by right.
Defined.

Lemma getLocation_invalid_parameter_witness :
  LocationManager.getLocation (Some "invalid-ip") (Mock.locationManager true ∅)
    (Mock.start [Mock.okLocation] 1000) =
  (Throw (Err "Invalid IP address: invalid-ip"), Mock.locationManager true ∅,
   Mock.start [Mock.okLocation] 1000).
Proof.
  apply (getLocation_invalid_parameter "invalid-ip"); [discriminate|].
  vm_compute. reflexivity.
Defined.

Lemma getLocation_own_address_unavailable_witness :
  LocationManager.getLocation None (Mock.locationManager true ∅)
    (Mock.start [Mock.failure] 1000) =
  (Throw (Err "Failed to get public IP for location lookup"),
   Mock.locationManager true ∅,
   Mock.after [] 1005 ["https://api.ipify.org?format=json"]) /\
  LocationManager.getLocation None (Mock.locationManager true ∅)
    (Mock.start [(Resolved (Object []), 5)] 1000) =
  (Throw (Err "Invalid IP address: undefined"),
   Mock.locationManager true ∅,
   Mock.after [] 1005 ["https://api.ipify.org?format=json"]).
Proof.
  split.
  - destruct (getLocation_own_address_unavailable None (Mock.locationManager true ∅)
                (Mock.start [Mock.failure] 1000)
                (Mock.after [] 1005 ["https://api.ipify.org?format=json"]) eq_refl)
      as [Hrej _].
    apply (Hrej (Err "Provider failed")). reflexivity.
  - destruct (getLocation_own_address_unavailable None (Mock.locationManager true ∅)
                (Mock.start [(Resolved (Object []), 5)] 1000)
                (Mock.after [] 1005 ["https://api.ipify.org?format=json"]) eq_refl)
      as [_ Hobj].
    apply (Hobj []); reflexivity.
Defined.

Lemma getLocation_cache_hit_witness :
  let self := Mock.locationManager true
                {[ "location-192.168.1.1" := Sample.oldLocation ]} in
  LocationManager.getLocation (Some "192.168.1.1") self (Mock.start [] 1000) =
  (Normal Mock.locationData, self, Mock.start [] 1000).
Proof.
  intros self.
  apply (getLocation_cache_hit "192.168.1.1" self (Mock.start [] 1000)
           Sample.oldLocation).
  - discriminate.
  - vm_compute. reflexivity.
  - reflexivity.
  - reflexivity.
  - simpl. lia.
  - reflexivity.
Defined.

Lemma getLocation_other_addresses_witness :
  LocationManager.cache
    (LocationManager.getLocation (Some "8.8.8.8")
       (Mock.locationManager true {[ "location-192.168.1.1" := Sample.oldLocation ]})
       (Mock.start [Mock.okLocation] 1000)).1.2
    !! LocationManager.cacheKey (Str "192.168.1.1")
  = ({[ "location-192.168.1.1" := Sample.oldLocation ]}
       : gmap string (CacheEntry Value)) !! LocationManager.cacheKey (Str "192.168.1.1").
Proof.
  apply (getLocation_other_addresses "8.8.8.8" "192.168.1.1"); discriminate.
Defined.

Lemma fallback_ipv4_exact_witness :
  IpManager.fallbackIpValidation "255.255.255.255" = Spec.ipv4Literal "255.255.255.255" /\
  IpManager.fallbackIpValidation "192.168.01.1" = Spec.ipv4Literal "192.168.01.1".
Proof.
  split; apply fallback_ipv4_exact; reflexivity.
Defined.

Lemma fallback_never_accepts_witness :
  "fe80::1" <> "" /\
  Spec.allChars (fun c => isHexDigit c || Ascii.eqb c ":" || Ascii.eqb c ".")
    "fe80::1" = true /\
  (includes "." "fe80::1" = false \/ includes ":" "fe80::1" = false).
Proof.
  apply fallback_never_accepts. vm_compute. reflexivity.
Defined.

Lemma locationManager_isValidIp_shape_witness :
  LocationManager.isValidIp "::1" = false /\
  LocationManager.isValidIp "fe80::1" = false.
Proof.
  split.
  - apply (proj2 (locationManager_isValidIp_shape "::1")). reflexivity.
  - apply (proj2 (locationManager_isValidIp_shape "fe80::1")). reflexivity.
Defined.

Lemma getClientIp_returns_witness :
  exists s,
    IpManager.getClientIp
      (Mock.request None [("x-forwarded-for", IpManager.HString "");
                          ("x-client-ip", IpManager.HString "10.0.0.7")])
    = Normal s.
Proof.
  apply getClientIp_returns.
  - vm_compute. discriminate.
  - intros xs. vm_compute. discriminate.
  - intros xs. vm_compute. discriminate.
Defined.

Lemma getClientIp_direct_address_wins_witness :
  IpManager.getClientIp
    (Mock.request (Some "10.1.2.3") [("x-forwarded-for", IpManager.HArray [])])
  = IpManager.getClientIp (Mock.request (Some "10.1.2.3") []) /\
  exists s,
    IpManager.getClientIp
      (Mock.request (Some "10.1.2.3") [("x-forwarded-for", IpManager.HArray [])])
    = Normal s.
Proof.
  apply (getClientIp_direct_address_wins _ _ "10.1.2.3");
    first [reflexivity | discriminate].
Defined.

Lemma getClientIp_header_order_witness :
  IpManager.getClientIp
    (Mock.request None [("x-forwarded-for", IpManager.HString "203.0.113.195, 70.41.3.18");
                        ("x-real-ip", IpManager.HString "10.0.0.1")])
  = Normal "203.0.113.195" /\
  IpManager.getClientIp
    (Mock.request None
       [("x-forwarded-for",
         IpManager.HString (String (Ascii.ascii_of_nat 160) "10.0.0.1 ,10.0.0.2:80"));
        ("x-real-ip", IpManager.HString "10.0.0.9")])
  = Normal "10.0.0.1" /\
  IpManager.getClientIp
    (Mock.request None [("x-real-ip", IpManager.HString "10.0.0.1");
                        ("x-client-ip", IpManager.HString "10.0.0.2")])
  = Normal "10.0.0.1" /\
  IpManager.getClientIp
    (Mock.request None [("x-real-ip", IpManager.HString "");
                        ("x-client-ip", IpManager.HString "10.0.0.2")])
  = Normal "10.0.0.2".
Proof.
  split; [|split; [|split]].
  - destruct (getClientIp_header_order
                (Mock.request None
                   [("x-forwarded-for", IpManager.HString "203.0.113.195, 70.41.3.18");
                    ("x-real-ip", IpManager.HString "10.0.0.1")]) eq_refl)
      as (Hfwd & _).
    apply (Hfwd "203.0.113.195, 70.41.3.18"); [reflexivity|discriminate|discriminate].
  - destruct (getClientIp_header_order
                (Mock.request None
                   [("x-forwarded-for",
                     IpManager.HString
                       (String (Ascii.ascii_of_nat 160) "10.0.0.1 ,10.0.0.2:80"));
                    ("x-real-ip", IpManager.HString "10.0.0.9")]) eq_refl)
      as (_ & _ & Hentry & _).
    apply (Hentry (String (Ascii.ascii_of_nat 160) "") "10.0.0.1" " " ",10.0.0.2:80");
      try reflexivity; try discriminate.
    + right. by eexists.
    + left. reflexivity.
  - destruct (getClientIp_header_order
                (Mock.request None
                   [("x-real-ip", IpManager.HString "10.0.0.1");
                    ("x-client-ip", IpManager.HString "10.0.0.2")]) eq_refl)
      as (_ & _ & _ & Hreal & _).
    apply (Hreal "10.0.0.1"); [reflexivity|reflexivity|discriminate].
  - destruct (getClientIp_header_order
                (Mock.request None
                   [("x-real-ip", IpManager.HString "");
                    ("x-client-ip", IpManager.HString "10.0.0.2")]) eq_refl)
      as (_ & _ & _ & _ & Hclient).
    apply (Hclient "10.0.0.2"); [reflexivity|reflexivity|reflexivity|discriminate].
Defined.

Lemma getClientIp_unusable_forwarded_witness :
  IpManager.getClientIp
    (Mock.request None [("x-forwarded-for", IpManager.HString "::1, 10.0.0.9");
                        ("x-real-ip", IpManager.HString "10.0.0.1")])
  = IpManager.getClientIp
      {| IpManager.ip := None; IpManager.connection := None;
         IpManager.socket := None;
         IpManager.headers :=
           delete "x-forwarded-for"
             (IpManager.headers
                (Mock.request None
                   [("x-forwarded-for", IpManager.HString "::1, 10.0.0.9");
                    ("x-real-ip", IpManager.HString "10.0.0.1")])) |}.
Proof.
  apply (getClientIp_unusable_forwarded _ "::1, 10.0.0.9");
    [reflexivity|reflexivity|by right].
Defined.

Lemma healthCheck_always_succeeds_witness :
  exists ipOk geoOk,
    NetworkService.healthCheck (Mock.start [] 1000) "t" =
      (Normal {| success := true;
                 data := Some {| NetworkService.ipServices := ipOk;
                                 NetworkService.geolocationServices := geoOk;
                                 NetworkService.networkInfo := true |};
                 error := None; timestamp := "t" |},
       Mock.after [] 1000 ["https://api.ipify.org"; "https://ipapi.co/json/"]) /\
    requests (Mock.after [] 1000 ["https://api.ipify.org"; "https://ipapi.co/json/"]) =
      [] ++ ["https://api.ipify.org"; "https://ipapi.co/json/"] /\
    (ipOk = true <-> exists body, Rejected (Err "Network Error") = Resolved body) /\
    (geoOk = true <-> exists body, Rejected (Err "Network Error") = Resolved body).
Proof.
  exact (healthCheck_always_succeeds (Mock.start [] 1000) "t").
Defined.


Lemma getInterfaces_cached_for_a_minute_witness :
  let first := NetworkManager.getInterfaces Sample.networkManager 1000 Sample.os in
  first.1 = NetworkManager.collect Sample.os /\
  NetworkManager.getInterfaces first.2 61000 Sample.os'
  = (NetworkManager.collect Sample.os, first.2) /\
  (NetworkManager.getInterfaces first.2 61001 Sample.os').1
  = NetworkManager.collect Sample.os'.
Proof.
  intros first.
  destruct (getInterfaces_cached_for_a_minute Sample.networkManager 1000 Sample.os
              eq_refl eq_refl) as (H1 & Hhit & Hmiss).
  split; [exact H1|]. split.
  - apply Hhit. lia.
  - apply Hmiss. lia.
Defined.

Lemma resolveConfig_defaults_witness :
  let given :=
    Some {| Service.p_api := Some {| Service.p_ipifyUrl := None;
                                     Service.p_geolocationUrl := Some "";
                                     Service.p_timeout := Some 5000;
                                     Service.p_retries := Some 0 |};
            Service.p_cache := Some {| Service.p_enabled := Some false;
                                       Service.p_ttl := Some 0 |};
            Service.p_features := None |} in
  enabled (cache (Service.resolveConfig given)) = false /\
  ttl (cache (Service.resolveConfig given)) = 300000 /\
  timeout (api (Service.resolveConfig given)) = 5000 /\
  retries (api (Service.resolveConfig given)) = 3 /\
  geolocationUrl (api (Service.resolveConfig given)) = "https://ipapi.co".
Proof.
  intros given.
  destruct (resolveConfig_defaults given)
    as (_ & _ & _ & _ & _ & Hoff & Htimeout & Hretries & Httl & _ & Hgeo & _).
  split; [|split; [|split; [|split]]].
  - apply Hoff. reflexivity.
  - apply (proj2 Httl). by right.
  - apply (proj1 Htimeout 5000); [reflexivity|lia].
  - apply (proj2 Hretries). by right.
  - apply (proj2 Hgeo). by right.
Defined.

Lemma location_route_refuses_client_witness :
  Routes.getLocation Sample.iso Sample.service (Mock.request None [])
    (Mock.start [Mock.okLocation] 1000) =
  ({| Routes.status := 500;
      Routes.body := Routes.createErrorResponse "Invalid IP address: unknown"
                       (Sample.iso 1000) |},
   Sample.service, Mock.start [Mock.okLocation] 1000) /\
  Routes.getLocation Sample.iso Sample.service
    (Mock.request (Some "2001:db8::1") []) (Mock.start [Mock.okLocation] 1000) =
  ({| Routes.status := 500;
      Routes.body := Routes.createErrorResponse "Invalid IP address: 2001"
                       (Sample.iso 1000) |},
   Sample.service, Mock.start [Mock.okLocation] 1000).
Proof.
  split.
  - apply (proj2 (location_route_refuses_client Sample.iso Sample.service
                    (Mock.request None []) (Mock.start [Mock.okLocation] 1000)));
      reflexivity.
  - apply (proj1 (location_route_refuses_client Sample.iso Sample.service
                    (Mock.request (Some "2001:db8::1") [])
                    (Mock.start [Mock.okLocation] 1000)) "2001");
      [reflexivity|discriminate|vm_compute; reflexivity].
Defined.

Lemma full_and_health_routes_always_200_witness :
  success (Routes.body
    (Routes.forward
       (NetworkService.getFullNetworkInfo
          {| NetworkService.settledAt := 0;
             NetworkService.outcome := Throw (Err "All IP service providers failed") |}
          {| NetworkService.settledAt := 1;
             NetworkService.outcome := Normal Mock.locationData |}
          tt [] "t") "t")) = false.
Proof.
  destruct (full_and_health_routes_always_200
              {| NetworkService.settledAt := 0;
                 NetworkService.outcome := Throw (Err "All IP service providers failed") |}
              {| NetworkService.settledAt := 1;
                 NetworkService.outcome := Normal Mock.locationData |}
              tt []
              {| NetworkService.settledAt := 0; NetworkService.outcome := Normal true |}
              {| NetworkService.settledAt := 1; NetworkService.outcome := Normal true |}
              "t") as (_ & _ & Hfalse).
  apply (Hfalse (Err "All IP service providers failed") Mock.locationData); reflexivity.
Defined.
End MoreInstances.
